(** * Freight-matrix validator: a shallow embedding of
    [validate_hn_freight_matrix_file.py] and the properties of its
    validation and export pipeline and of its settings.

    Conventions of the embedding.
    - A Python [str] is a [string] over an alphabet of 256 code points:
      the code points below 256, with the euro sign U+20AC, which the
      source names, in the place of the control character U+0080.
      [PyStr.code] gives the code point of a character.  The
      classification methods ([isspace], [isalnum], [isdigit], [lower])
      are spelled out from the Unicode database on that alphabet.
    - A Python [float] is an IEEE-754 binary64 value, [spec_float] with
      precision 53.
    - A dict read only by key is a [gmap]; the set of seen ids is a [gset].
    - File writes are collected, in order, in a list of written files.
      Whether a folder can be made and whether a file opens for writing
      are read from the environment; two writes go to the same file when
      their folders and their names are equal.
    - A settings value is a JSON value, [jvalue], whose objects are
      association lists in the order of their keys. *)

From Stdlib Require Import ZArith NArith String Ascii List Bool Lia.
From Stdlib Require Import Floats.SpecFloat Numbers.DecimalString.
From stdpp Require Import gmap strings list.

Local Open Scope Z_scope.

(** ** Characters and the string methods of the Python runtime *)

Module PyStr.

(** The euro sign, U+20AC: the character of the alphabet that stands in
    the place of U+0080. *)
Definition euro : ascii := "128"%char.

(** The code point of a character. *)
Definition code (c : ascii) : N :=
  if Ascii.eqb c euro then 8364%N else N_of_ascii c.

Definition in_range (lo hi : N) (c : ascii) : bool :=
  ((lo <=? code c) && (code c <=? hi))%N.

(** The double quote, written by its code. *)
Definition dquote : ascii := "034"%char.

(** [str.isspace] on one character: TAB..CR, FS..US, space, NEL, NBSP. *)
Definition isspace (c : ascii) : bool :=
  in_range 9 13 c || in_range 28 32 c || in_range 133 133 c
  || in_range 160 160 c.

(** ASCII decimal digit. *)
Definition is_ascii_digit (c : ascii) : bool := in_range 48 57 c.

(** [str.isdigit] on one character: 0-9 and the superscripts 2, 3, 1. *)
Definition isdigit_char (c : ascii) : bool :=
  is_ascii_digit c || in_range 178 179 c || in_range 185 185 c.

(** [str.isalpha] on one character (the letter categories). *)
Definition isalpha_char (c : ascii) : bool :=
  in_range 65 90 c || in_range 97 122 c || in_range 170 170 c
  || in_range 181 181 c || in_range 186 186 c || in_range 192 214 c
  || in_range 216 246 c || in_range 248 255 c.

(** [str.isalnum] on one character: alphabetic, decimal, digit or numeric
    (the vulgar fractions 188..190). *)
Definition isalnum_char (c : ascii) : bool :=
  isalpha_char c || isdigit_char c || in_range 188 190 c.

(** [str.lower] on one character. *)
Definition lower_char (c : ascii) : ascii :=
  if in_range 65 90 c || in_range 192 214 c || in_range 216 222 c
  then ascii_of_N (code c + 32) else c.

Fixpoint lower (s : string) : string :=
  match s with
  | EmptyString => EmptyString
  | String c s' => String (lower_char c) (lower s')
  end.

(** Truth value of a string: non-empty. *)
Definition truthy (s : string) : bool :=
  match s with EmptyString => false | String _ _ => true end.

Fixpoint lstrip_with (p : ascii -> bool) (s : string) : string :=
  match s with
  | EmptyString => EmptyString
  | String c s' => if p c then lstrip_with p s' else s
  end.

Fixpoint rstrip_with (p : ascii -> bool) (s : string) : string :=
  match s with
  | EmptyString => EmptyString
  | String c s' =>
      match rstrip_with p s' with
      | EmptyString => if p c then EmptyString else String c EmptyString
      | r => String c r
      end
  end.

Definition strip_with (p : ascii -> bool) (s : string) : string :=
  rstrip_with p (lstrip_with p s).

(** [s.strip()] *)
Definition strip (s : string) : string := strip_with isspace s.

(** [s.strip(c)] and [s.lstrip(c)] for a one-character argument. *)
Definition strip_char (c : ascii) (s : string) : string :=
  strip_with (Ascii.eqb c) s.
Definition lstrip_char (c : ascii) (s : string) : string :=
  lstrip_with (Ascii.eqb c) s.

(** [s.replace(c, "")] for a one-character [c]. *)
Fixpoint remove_char (c : ascii) (s : string) : string :=
  match s with
  | EmptyString => EmptyString
  | String d s' =>
      if Ascii.eqb c d then remove_char c s' else String d (remove_char c s')
  end.

(** [s.replace(c, d)] for one-character [c] and [d]. *)
Fixpoint replace_char (c d : ascii) (s : string) : string :=
  match s with
  | EmptyString => EmptyString
  | String x s' =>
      String (if Ascii.eqb c x then d else x) (replace_char c d s')
  end.

Fixpoint forallb_str (p : ascii -> bool) (s : string) : bool :=
  match s with
  | EmptyString => true
  | String c s' => p c && forallb_str p s'
  end.

(** [s.isdigit()]: non-empty and every character a digit. *)
Definition isdigit (s : string) : bool := truthy s && forallb_str isdigit_char s.

(** [c in s] for a character [c]. *)
Fixpoint char_in (c : ascii) (s : string) : bool :=
  match s with
  | EmptyString => false
  | String d s' => Ascii.eqb c d || char_in c s'
  end.

Fixpoint map_str (f : ascii -> ascii) (s : string) : string :=
  match s with
  | EmptyString => EmptyString
  | String c s' => String (f c) (map_str f s')
  end.

(** [s[:n]] *)
Fixpoint take_str (n : nat) (s : string) : string :=
  match n, s with
  | O, _ => EmptyString
  | _, EmptyString => EmptyString
  | S n', String c s' => String c (take_str n' s')
  end.

(** A run of [n] zeros. *)
Fixpoint zeros (n : nat) : string :=
  match n with O => EmptyString | S n' => String "0" (zeros n') end.

(** [sep.join(l)] *)
Fixpoint join (sep : string) (l : list string) : string :=
  match l with
  | [] => EmptyString
  | [x] => x
  | x :: rest => x +:+ sep +:+ join sep rest
  end.

(** [str(n)] for an integer. *)
Definition of_Z (z : Z) : string := NilZero.string_of_int (Z.to_int z).

(** [s.splitlines()] followed by the caller's filter of blank lines.  Every
    line boundary splits; a two-character boundary CR LF splits twice and
    leaves an empty line, which the filter drops like any blank line. *)
Definition is_linebreak (c : ascii) : bool :=
  in_range 10 13 c || in_range 28 30 c || in_range 133 133 c.

Fixpoint split_at_breaks (s : string) (cur : string) : list string :=
  match s with
  | EmptyString => [cur]
  | String c s' =>
      if is_linebreak c then cur :: split_at_breaks s' EmptyString
      else split_at_breaks s' (cur +:+ String c EmptyString)
  end.

Definition nonblank_lines (text : string) : list string :=
  filter (fun ln => truthy (strip ln) = true) (split_at_breaks text EmptyString).

End PyStr.

(** ** Floats of the Python runtime: [float(s)], comparison, [round(x, 2)]
    and [str(x)] on IEEE-754 binary64 values *)

Module PyFloat.

Definition prec : Z := 53.
Definition emax : Z := 1024.

Definition zero : spec_float := S754_zero false.

(** The binary64 value nearest (ties to even) to [n / d], for [0 <= n] and
    [0 < d], with the sign [neg].  The quotient is taken with 1080
    fractional bits, below the finest binary64 grid (2^-1074), and the
    remainder is kept as a sticky bit, so that the one rounding done by
    [binary_normalize] is the rounding of the exact quotient. *)
Definition of_ratio (neg : bool) (n d : Z) : spec_float :=
  let num := n * 2 ^ 1080 in
  let q := num / d in
  let sticky := if num mod d =? 0 then 0 else 1 in
  binary_normalize prec emax (cond_Zopp neg (2 * q + sticky)) (-1081) neg.

(** A bound on the number of decimal digits: [m < 10 ^ digits10_ub m]. *)
Definition digits10_ub (m : Z) : Z := Z.log2 m * 30103 / 100000 + 2.

(** The binary64 value nearest to [m * 10^e] for [0 <= m].  Beyond the
    two cut-offs the result is already decided (overflow to infinity,
    underflow to zero), and the power of ten is not computed. *)
Definition of_decimal (neg : bool) (m e : Z) : spec_float :=
  if m =? 0 then S754_zero neg
  else if 310 <=? e then S754_infinity neg
  else if e + digits10_ub m <=? -330 then S754_zero neg
  else if 0 <=? e then of_ratio neg (m * 10 ^ e) 1
  else of_ratio neg m (10 ^ (- e)).

(** *** [float(s)] *)

Fixpoint span (p : ascii -> bool) (l : list ascii) : list ascii * list ascii :=
  match l with
  | [] => ([], [])
  | c :: l' =>
      if p c then let '(a, b) := span p l' in (c :: a, b) else ([], l)
  end.

Definition digit_value (c : ascii) : Z := Z.of_N (PyStr.code c) - 48.

Definition digits_value (l : list ascii) : Z :=
  fold_left (fun acc c => 10 * acc + digit_value c) l 0.

Definition is_char (c d : ascii) : bool := Ascii.eqb c d.

(** Whitespace that [float] strips at both ends: the C locale's, after the
    runtime has turned the non-ASCII spaces (NEL, NBSP) into spaces. *)
Definition float_space (c : ascii) : bool :=
  PyStr.in_range 9 13 c || PyStr.in_range 32 32 c
  || PyStr.in_range 133 133 c || PyStr.in_range 160 160 c.

(** Underscores are accepted between two digits only, and are dropped. *)
Fixpoint drop_underscores (prev : option ascii) (l : list ascii)
  : option (list ascii) :=
  match l with
  | [] =>
      match prev with
      | Some p => if is_char "_" p then None else Some []
      | None => Some []
      end
  | c :: l' =>
      let prev_digit :=
        match prev with Some p => PyStr.is_ascii_digit p | None => false end in
      let prev_us :=
        match prev with Some p => is_char "_" p | None => false end in
      if is_char "_" c then
        if prev_digit then drop_underscores (Some c) l' else None
      else if prev_us && negb (PyStr.is_ascii_digit c) then None
      else option_map (cons c) (drop_underscores (Some c) l')
  end.

(** digits [. digits] [(e|E) [+|-] digits], with a digit before the
    exponent; the result is the pair (mantissa, decimal exponent). *)
Definition parse_decimal (l : list ascii) : option (Z * Z) :=
  let '(ip, r1) := span PyStr.is_ascii_digit l in
  let '(fp, r2) :=
    match r1 with
    | c :: r => if is_char "." c then span PyStr.is_ascii_digit r else ([], r1)
    | [] => ([], r1)
    end in
  let m := digits_value (ip ++ fp) in
  let e0 := - Z.of_nat (length fp) in
  match ip ++ fp with
  | [] => None
  | _ :: _ =>
      match r2 with
      | [] => Some (m, e0)
      | c :: r3 =>
          if is_char "e" c || is_char "E" c then
            let '(eneg, r4) :=
              match r3 with
              | s :: r =>
                  if is_char "+" s then (false, r)
                  else if is_char "-" s then (true, r) else (false, r3)
              | [] => (false, r3)
              end in
            let '(ed, r5) := span PyStr.is_ascii_digit r4 in
            match ed, r5 with
            | _ :: _, [] => Some (m, cond_Zopp eneg (digits_value ed) + e0)
            | _, _ => None
            end
          else None
      end
  end.

Definition lower_list (l : list ascii) : string :=
  PyStr.lower (string_of_list_ascii l).

(** The body after the sign: a decimal number, or inf, infinity, nan in
    any case. *)
Definition parse_unsigned (neg : bool) (l : list ascii) : option spec_float :=
  match parse_decimal l with
  | Some (m, e) => Some (of_decimal neg m e)
  | None =>
      let w := lower_list l in
      if String.eqb w "inf" || String.eqb w "infinity"
      then Some (S754_infinity neg)
      else if String.eqb w "nan" then Some S754_nan else None
  end.

(** [float(s)]: [None] stands for the ValueError. *)
Definition of_string (s : string) : option spec_float :=
  let t := list_ascii_of_string (PyStr.strip_with float_space s) in
  match drop_underscores None t with
  | None => None
  | Some l =>
      match l with
      | c :: r =>
          if is_char "-" c then parse_unsigned true r
          else if is_char "+" c then parse_unsigned false r
          else parse_unsigned false l
      | [] => None
      end
  end.

(** [x < 0], [math.isinf(x)], [math.isnan(x)] *)
Definition ltb_zero (x : spec_float) : bool := SFltb x zero.
Definition isinf (x : spec_float) : bool :=
  match x with S754_infinity _ => true | _ => false end.
Definition isnan (x : spec_float) : bool :=
  match x with S754_nan => true | _ => false end.

(** *** [round(x, 2)]: the exact value is rounded to a multiple of 1/100,
    ties to even, and the nearest float of the outcome is returned. *)

Definition div_half_even (n d : Z) : Z :=
  let q := n / d in
  let r := n mod d in
  match 2 * r ?= d with
  | Lt => q
  | Gt => q + 1
  | Eq => if Z.even q then q else q + 1
  end.

Definition round2 (x : spec_float) : spec_float :=
  match x with
  | S754_finite s m e =>
      if 0 <=? e then x
      else of_ratio s (div_half_even (Z.pos m * 100) (2 ^ (- e))) 100
  | _ => x
  end.

(** *** [str(x)]: the shortest decimal string that reads back as [x], the
    one nearest to [x] among the shortest, laid out as [repr] does. *)

(** [10^p <= n / d] *)
Definition ge_pow10 (n d p : Z) : bool :=
  if 0 <=? p then 10 ^ p * d <=? n else d <=? n * 10 ^ (- p).

(** The [p] with [10^p <= n / d < 10^(p+1)], for positive [n] and [d]. *)
Definition floor_log10 (n d : Z) : Z :=
  let est := (Z.log2 n - Z.log2 d) * 30103 / 100000 in
  if ge_pow10 n d (est + 1) then est + 1
  else if ge_pow10 n d est then est
  else if ge_pow10 n d (est - 1) then est - 1
  else est - 2.

Definition same_float (x y : spec_float) : bool :=
  match x, y with
  | S754_finite s1 m1 e1, S754_finite s2 m2 e2 =>
      Bool.eqb s1 s2 && Pos.eqb m1 m2 && (e1 =? e2)
  | _, _ => false
  end.

(** The candidates with [nd] significant digits around [n / d]: the
    digits [D] and exponent [k] of a decimal [D * 10^k] that reads back as
    [x], the nearer one if both below and above do. *)
Definition candidate (x : spec_float) (n d : Z) (nd : Z) : option (Z * Z) :=
  let k := floor_log10 n d - nd + 1 in
  let sn := if 0 <=? k then n else n * 10 ^ (- k) in
  let sd := if 0 <=? k then d * 10 ^ k else d in
  let lo := sn / sd in
  let r := sn mod sd in
  let ok_lo := same_float (of_decimal false lo k) x in
  let ok_hi := same_float (of_decimal false (lo + 1) k) x in
  match ok_lo, ok_hi with
  | true, true =>
      match 2 * r ?= sd with
      | Lt => Some (lo, k)
      | Gt => Some (lo + 1, k)
      | Eq => if Z.even lo then Some (lo, k) else Some (lo + 1, k)
      end
  | true, false => Some (lo, k)
  | false, true => Some (lo + 1, k)
  | false, false => None
  end.

Fixpoint shortest_from (x : spec_float) (n d : Z) (nd : Z) (fuel : nat)
  : Z * Z :=
  match fuel with
  | O => (0, 0)
  | S fuel' =>
      match candidate x n d nd with
      | Some r => r
      | None => shortest_from x n d (nd + 1) fuel'
      end
  end.

Fixpoint strip_zeros (D k : Z) (fuel : nat) : Z * Z :=
  match fuel with
  | O => (D, k)
  | S fuel' =>
      if (D mod 10 =? 0) && negb (D =? 0) then strip_zeros (D / 10) (k + 1) fuel'
      else (D, k)
  end.

Fixpoint drop_str (n : nat) (s : string) : string :=
  match n, s with
  | O, _ => s
  | _, EmptyString => EmptyString
  | S n', String _ s' => drop_str n' s'
  end.

(** Layout of the digits [ds] with the decimal point after [decpt] of
    them: positional when [-4 < decpt <= 16], with an exponent otherwise. *)
Definition layout (ds : string) (decpt : Z) : string :=
  let len := Z.of_nat (String.length ds) in
  if (-4 <? decpt) && (decpt <=? 16) then
    if decpt <=? 0 then "0." +:+ PyStr.zeros (Z.to_nat (- decpt)) +:+ ds
    else if decpt <? len then
      PyStr.take_str (Z.to_nat decpt) ds +:+ "." +:+ drop_str (Z.to_nat decpt) ds
    else ds +:+ PyStr.zeros (Z.to_nat (decpt - len)) +:+ ".0"
  else
    let ex := decpt - 1 in
    let exs := PyStr.of_Z (Z.abs ex) in
    let exs := if Z.abs ex <? 10 then "0" +:+ exs else exs in
    PyStr.take_str 1 ds
    +:+ (if 1 <? len then "." +:+ drop_str 1 ds else EmptyString)
    +:+ "e" +:+ (if ex <? 0 then "-" else "+") +:+ exs.

Definition repr (x : spec_float) : string :=
  match x with
  | S754_zero s => if s then "-0.0" else "0.0"
  | S754_infinity s => if s then "-inf" else "inf"
  | S754_nan => "nan"
  | S754_finite s m e =>
      let n := if 0 <=? e then Z.pos m * 2 ^ e else Z.pos m in
      let d := if 0 <=? e then 1 else 2 ^ (- e) in
      let ax := of_ratio false n d in
      let '(D0, k0) := shortest_from ax n d 1 17 in
      let '(D, k) := strip_zeros D0 k0 20 in
      let ds := PyStr.of_Z D in
      (if s then "-" else EmptyString)
      +:+ layout ds (Z.of_nat (String.length ds) + k)
  end.

End PyFloat.

(** ** Values, rows and the field resolver *)

(** A value found in a row: what [csv.DictReader] or [json.load] put there. *)
Inductive pyval :=
| PyNone
| PyBool (b : bool)
| PyInt (z : Z)
| PyFloatV (x : spec_float)
| PyStrV (s : string)
| PyObj (text : string).
(** [PyObj text] is any other object (a list or a dict of a JSON document),
    held by the text [str] gives for it. *)

(** [str(v)] *)
Definition py_str (v : pyval) : string :=
  match v with
  | PyNone => "None"
  | PyBool b => if b then "True" else "False"
  | PyInt z => PyStr.of_Z z
  | PyFloatV x => PyFloat.repr x
  | PyStrV s => s
  | PyObj text => text
  end.

(** [isinstance(v, (int, float))]; a bool is an int. *)
Definition is_number (v : pyval) : bool :=
  match v with
  | PyBool _ | PyInt _ | PyFloatV _ => true
  | _ => false
  end.

Definition normalize_str (v : pyval) : string :=
  match v with
  | PyNone => EmptyString
  | _ =>
      if is_number v then PyStr.strip (py_str v)
      else PyStr.strip (PyStr.strip_char PyStr.dquote (PyStr.strip (py_str v)))
  end.

(** The items of a row dict, in insertion order.  A key is [None] for the
    surplus cells [csv.DictReader] files under its [restkey]. *)
Definition raw_row : Type := list (option string * pyval).

Definition lower_key (k : option string) : string :=
  PyStr.lower (PyStr.strip (default EmptyString k)).

(** The dict comprehension: a later item overwrites an earlier one with
    the same lowered key. *)
Definition _lower_keys (d : raw_row) : gmap string pyval :=
  foldl (fun m kv => <[lower_key kv.1 := kv.2]> m) ∅ d.

Definition CSV_FIELD_ALIASES : list (string * list string) :=
  [ ("sku", ["sku"; "productcode"; "productCode"; "product_code";
             "product id"; "productid"]);
    ("postCode", ["postcode"; "postCode"; "post_code"; "post code";
                  "zip"; "zip_code"]);
    ("price", ["price"; "unit_price"; "unitPrice"; "unitprice";
               "unit price"; "amount"]) ].

(** [CSV_FIELD_ALIASES.get(key, [])] *)
Fixpoint aliases_get (table : list (string * list string)) (key : string)
  : list string :=
  match table with
  | [] => []
  | (k, v) :: rest => if String.eqb k key then v else aliases_get rest key
  end.

Fixpoint first_alias (row : gmap string pyval) (aliases : list string)
  : pyval :=
  match aliases with
  | [] => PyNone
  | alias :: rest =>
      match row !! PyStr.lower alias with
      | Some v => v
      | None => first_alias row rest
      end
  end.

Definition field_from_row (row : gmap string pyval) (key : string) : pyval :=
  first_alias row (aliases_get CSV_FIELD_ALIASES key).

(** ** Value normalizers *)

Definition is_valid_sku (s : string) : bool * string :=
  let s := normalize_str (PyStrV s) in
  if negb (PyStr.truthy s) then (false, "sku empty")
  else if negb (PyStr.forallb_str
                  (fun ch => PyStr.isalnum_char ch || PyStr.char_in ch "-_./") s)
  then (false, "sku has invalid characters")
  else if (64 <? String.length s)%nat then (false, "sku too long")
  else (true, EmptyString).

Definition is_valid_postcode (pc : string) : bool * string :=
  let pc := normalize_str (PyStrV pc) in
  if negb (PyStr.truthy pc) then (false, "postCode empty")
  else if negb (PyStr.isdigit pc) || negb (String.length pc =? 4)%nat
  then (false, "postCode must be 4 digits")
  else (true, EmptyString).

(** The symbols removed one character at a time, ["$€£AUDaud "]: dollar,
    euro, pound (code 163), the letters of AUD and aud, and the space. *)
Definition price_symbols : list ascii :=
  ["$"%char; PyStr.euro; "163"%char; "A"%char; "U"%char; "D"%char;
   "a"%char; "u"%char; "d"%char; " "%char].

Definition strip_price_symbols (s : string) : string :=
  foldl (fun clean sym => PyStr.remove_char sym clean)
        (PyStr.remove_char "," s) price_symbols.

Definition normalize_price (p : string) : bool * spec_float * string :=
  let s := normalize_str (PyStrV p) in
  if String.eqb s EmptyString then (false, PyFloat.zero, "price empty")
  else
    let clean := strip_price_symbols s in
    match PyFloat.of_string clean with
    | None => (false, PyFloat.zero, "price not a number")
    | Some val =>
        if PyFloat.ltb_zero val then (false, PyFloat.zero, "price negative")
        else if PyFloat.isinf val || PyFloat.isnan val
        then (false, PyFloat.zero, "price not finite")
        else (true, PyFloat.round2 val, EmptyString)
    end.

(** ** Records, errors and the record validator *)

Record doc := { sku : string; postCode : string; price : spec_float }.

Record verror := { row : nat; context : string; error : string }.

Definition build_doc (raw_sku raw_pc : string) (price_val : spec_float) : doc :=
  {| sku := normalize_str (PyStrV raw_sku);
     postCode := normalize_str (PyStrV raw_pc);
     price := price_val |}.

(** The identity key of a record. *)
Definition identity_key (d : doc) : string := sku d +:+ "|" +:+ postCode d.

(** The four accumulators of a run. *)
Record vstate := {
  valid_docs : list doc;
  errors : list verror;
  warnings : list string;
  seen_ids : gset string }.

Definition vstate0 : vstate :=
  {| valid_docs := []; errors := []; warnings := []; seen_ids := ∅ |}.

Definition add_error (e : verror) (st : vstate) : vstate :=
  {| valid_docs := valid_docs st; errors := errors st ++ [e];
     warnings := warnings st; seen_ids := seen_ids st |}.

Definition add_warning (w : string) (st : vstate) : vstate :=
  {| valid_docs := valid_docs st; errors := errors st;
     warnings := warnings st ++ [w]; seen_ids := seen_ids st |}.

Definition add_doc (doc_id : string) (d : doc) (st : vstate) : vstate :=
  {| valid_docs := valid_docs st ++ [d]; errors := errors st;
     warnings := warnings st; seen_ids := {[doc_id]} ∪ seen_ids st |}.

Definition row_context (raw_sku raw_pc : string) : string :=
  "sku=" +:+ raw_sku +:+ ", postCode=" +:+ raw_pc.

Definition doc_id_of (raw_sku raw_pc : string) : string :=
  raw_sku +:+ "|" +:+ raw_pc.

Definition when (b : bool) (x : string) : list string := if b then [x] else [].

(** The body of the loop of [_validate_from_reader], for the row numbered
    [idx]. *)
Definition reader_row (idx : nat) (r : raw_row) (st : vstate) : vstate :=
  let row_lc := _lower_keys r in
  let raw_sku := normalize_str (field_from_row row_lc "sku") in
  let raw_pc := normalize_str (field_from_row row_lc "postCode") in
  let raw_price := normalize_str (field_from_row row_lc "price") in
  if negb (PyStr.truthy raw_sku) && negb (PyStr.truthy raw_pc)
     && negb (PyStr.truthy raw_price) then st
  else
    let '(ok_sku, sku_err) := is_valid_sku raw_sku in
    let '(ok_pc, pc_err) := is_valid_postcode raw_pc in
    let '(ok_price, norm_price, price_err) := normalize_price raw_price in
    let errs :=
      when (negb (PyStr.truthy raw_sku)) "sku missing"
      ++ when (negb (PyStr.truthy raw_pc)) "postCode missing"
      ++ when (negb (PyStr.truthy raw_price)) "price missing"
      ++ when (PyStr.truthy raw_sku && negb ok_sku) sku_err
      ++ when (PyStr.truthy raw_pc && negb ok_pc) pc_err
      ++ when (PyStr.truthy raw_price && negb ok_price) price_err in
    match errs with
    | _ :: _ =>
        add_error {| row := idx; context := row_context raw_sku raw_pc;
                     error := PyStr.join "; " errs |} st
    | [] =>
        let doc_id := doc_id_of raw_sku raw_pc in
        if bool_decide (doc_id ∈ seen_ids st) then
          add_error {| row := idx; context := row_context raw_sku raw_pc;
                       error := "Duplicate id within file" |} st
        else add_doc doc_id (build_doc raw_sku raw_pc norm_price) st
    end.

(** [validate_obj] of [validate_json]: the same checks without the skip of
    an all-empty row. *)
Definition validate_obj (obj : raw_row) (idx_for_report : nat) (st : vstate)
  : vstate :=
  let obj_lc := _lower_keys obj in
  let raw_sku := normalize_str (field_from_row obj_lc "sku") in
  let raw_pc := normalize_str (field_from_row obj_lc "postCode") in
  let raw_price := normalize_str (field_from_row obj_lc "price") in
  let '(ok_sku, sku_err) := is_valid_sku raw_sku in
  let '(ok_pc, pc_err) := is_valid_postcode raw_pc in
  let '(ok_price, norm_price, price_err) := normalize_price raw_price in
  let errs :=
    when (negb (PyStr.truthy raw_sku)) "sku missing"
    ++ when (negb (PyStr.truthy raw_pc)) "postCode missing"
    ++ when (String.eqb raw_price EmptyString) "price missing"
    ++ when (PyStr.truthy raw_sku && negb ok_sku) sku_err
    ++ when (PyStr.truthy raw_pc && negb ok_pc) pc_err
    ++ when (negb (String.eqb raw_price EmptyString) && negb ok_price) price_err in
  match errs with
  | _ :: _ =>
      add_error {| row := idx_for_report; context := row_context raw_sku raw_pc;
                   error := PyStr.join "; " errs |} st
  | [] =>
      let doc_id := doc_id_of raw_sku raw_pc in
      if bool_decide (doc_id ∈ seen_ids st) then
        add_error {| row := idx_for_report;
                     context := row_context raw_sku raw_pc;
                     error := "Duplicate id within file" |} st
      else add_doc doc_id (build_doc raw_sku raw_pc norm_price) st
  end.

(** ** Source adapters *)

(** What a validation returns: [(valid_docs, errors, warnings)]. *)
Definition result : Type := list doc * list verror * list string.

Definition records (res : result) : list doc := res.1.1.
Definition result_errors (res : result) : list verror := res.1.2.
Definition result_warnings (res : result) : list string := res.2.

Definition finish (st : vstate) : result :=
  (valid_docs st, errors st, warnings st).

(** A [csv.DictReader]: the header it read ([None] when the input has no
    line) and the row dicts it yields, in order. *)
Record csv_reader := {
  fieldnames : option (list string);
  reader_rows : list raw_row }.

(** [for idx, row in enumerate(reader, start=idx)] *)
Fixpoint reader_loop (idx : nat) (rows : list raw_row) (st : vstate) : vstate :=
  match rows with
  | [] => st
  | r :: rest => reader_loop (S idx) rest (reader_row idx r st)
  end.

Definition header_error (msg : string) : verror :=
  {| row := 1; context := "header"; error := msg |}.

Definition has_alias (fieldnames_lc : list string) (key : string) : bool :=
  existsb (fun alias => bool_decide (PyStr.lower alias ∈ fieldnames_lc))
          (aliases_get CSV_FIELD_ALIASES key).

Definition _validate_from_reader (reader : csv_reader) : result :=
  let raw_fieldnames := default [] (fieldnames reader) in
  let fieldnames_lc :=
    map (fun h => PyStr.lower (PyStr.strip h)) raw_fieldnames in
  match fieldnames_lc with
  | [] => ([], [header_error "Missing header row"], [])
  | _ :: _ =>
      let missing_min :=
        List.filter (fun key => negb (has_alias fieldnames_lc key))
                    ["sku"; "postCode"; "price"] in
      match missing_min with
      | _ :: _ =>
          ([], [header_error ("Missing required columns: "
                              +:+ PyStr.join ", " missing_min)], [])
      | [] => finish (reader_loop 2 (reader_rows reader) vstate0)
      end
  end.

(** A CSV file: reading it raises (with the text of the exception), or
    gives a reader. *)
Inductive csv_file :=
| CsvReadError (e : string)
| CsvOpened (reader : csv_reader).

Definition validate_csv (f : csv_file) : result :=
  match f with
  | CsvOpened reader => _validate_from_reader reader
  | CsvReadError e =>
      ([], [{| row := 0; context := "file"; error := "Read error: " +:+ e |}], [])
  end.

(** A JSON file, as the two readings of [validate_json] see it: what
    [json.load] makes of the whole file, and what [json.loads] makes of
    each of its lines. *)
Inductive json_item :=
| JObject (obj : raw_row)
| JNotObject.

Inductive json_top :=
| TopArray (items : list json_item)
| TopNotArray
| TopInvalid.

Inductive nd_line :=
| NdBlank
| NdObject (obj : raw_row)
| NdNotObject
| NdInvalid (e : string).

Record json_file := {
  top : json_top;
  lines : list nd_line;
  line_read_error : option string }.

Fixpoint array_loop (i : nat) (items : list json_item) (st : vstate) : vstate :=
  match items with
  | [] => st
  | JNotObject :: rest =>
      array_loop (S i) rest
        (add_error {| row := i; context := EmptyString;
                      error := "Each item must be a JSON object" |} st)
  | JObject obj :: rest => array_loop (S i) rest (validate_obj obj i st)
  end.

Fixpoint lines_loop (i : nat) (ls : list nd_line) (st : vstate) : vstate :=
  match ls with
  | [] => st
  | NdBlank :: rest => lines_loop (S i) rest st
  | NdNotObject :: rest =>
      lines_loop (S i) rest
        (add_error {| row := i; context := EmptyString;
                      error := "Line is not a JSON object" |} st)
  | NdObject obj :: rest => lines_loop (S i) rest (validate_obj obj i st)
  | NdInvalid e :: rest =>
      lines_loop (S i) rest
        (add_error {| row := i; context := EmptyString;
                      error := "Invalid JSON: " +:+ e |} st)
  end.

Definition ndjson_pass (f : json_file) (st : vstate) : vstate :=
  let st' := lines_loop 1 (lines f) st in
  match line_read_error f with
  | Some e =>
      add_error {| row := 0; context := EmptyString;
                   error := "Error reading file line-by-line: " +:+ e |} st'
  | None => st'
  end.

Definition validate_json (f : json_file) : result :=
  match top f with
  | TopArray items => finish (array_loop 1 items vstate0)
  | TopNotArray =>
      finish (ndjson_pass f
        (add_warning
           "Top-level JSON is not an array; falling back to NDJSON parser."
           vstate0))
  | TopInvalid =>
      finish (ndjson_pass f
        (add_warning
           "JSON is not an array; attempting NDJSON (one JSON object per line)."
           vstate0))
  end.

Section Pasted.
(** [csv.DictReader] over a list of lines: the tokenizer of the [csv]
    module. *)
Variable DictReader : list string -> csv_reader.

Definition validate_pasted_csv_text (text : string) : result :=
  match PyStr.nonblank_lines text with
  | [] => ([], [header_error "No content"], [])
  | (_ :: _) as lines => _validate_from_reader (DictReader lines)
  end.

(** The three sources of a run. *)
Inductive source :=
| FromCsv (f : csv_file)
| FromJson (f : json_file)
| FromPasted (text : string).

Definition validate (src : source) : result :=
  match src with
  | FromCsv f => validate_csv f
  | FromJson f => validate_json f
  | FromPasted text => validate_pasted_csv_text text
  end.
End Pasted.

(** ** Export partitioner *)

(** A row handed to a writer: the dict with the keys postCode, sku, price. *)
Record out_row := {
  out_postCode : string;
  out_sku : string;
  out_price : spec_float }.

(** What a file holds: the field names and rows given to [csv.DictWriter],
    or the list given to [json.dump]. *)
Inductive content :=
| CsvRows (fields : list string) (rows : list out_row)
| JsonRows (rows : list out_row)
| ErrorRows (fields : list string) (rows : list verror).

(** A written file: [os.path.join(folder, name)] and what was written. *)
Record written := { folder : string; name : string; body : content }.

(** The five values a file name is rendered from. *)
Record path_vals := {
  pv_base : string; pv_batch : string; pv_group : string;
  pv_ts : string; pv_ext : string }.

(** A filename pattern is held by what [str.format] makes of it, after the
    fallback to the default and the [strip]: the rendered name, or [None]
    when formatting raises (an unknown placeholder). *)
Definition pattern : Type := path_vals -> option string.

(** The default pattern, [{base}_{batch}_{group}_{ts}.{ext}]. *)
Definition default_pattern : pattern :=
  fun v => Some (pv_base v +:+ "_" +:+ pv_batch v +:+ "_" +:+ pv_group v
                 +:+ "_" +:+ pv_ts v +:+ "." +:+ pv_ext v).

(** The part of the application state that an export reads. *)
Record app := {
  file_stem : option string;
  last_valid_docs : list doc;
  last_errors : list verror;
  last_warnings : list string;
  output_folder_var : string;
  filename_pattern_var : pattern;
  export_csv_var : bool;
  export_json_var : bool;
  enable_batch_var : bool;
  batch_mode_var : string;
  rows_per_file_var : option Z;
  group_column_var : string }.
(** [file_stem] is [os.path.splitext(os.path.basename(file_path))[0]],
    [None] when no file is selected; [rows_per_file_var] is [None] when
    the entry does not hold an integer. *)

(** What an export takes from outside the state: the clock reading of
    [_ts]; the absolute path of the default folder; the result that
    [preview_data] would store ([None] when it stops at its error box);
    the headers that [preview_data] reads from the first line of pasted
    text; whether [os.makedirs(folder, exist_ok=True)] returns; and
    whether [open(os.path.join(folder, name), 'w')] gives a file that
    takes its content ([false] when the statement raises). *)
Record env := {
  now : string;
  default_folder : string;
  revalidated : option result;
  pasted_headers : list string;
  makedirs : string -> bool;
  opens : string -> string -> bool }.

(** Writes are collected in order; [None] is an exception, which ends the
    export and leaves the files written so far. *)
Definition io (A : Type) : Type := list written -> list written * option A.

Definition ret {A : Type} (a : A) : io A := fun w => (w, Some a).

Definition bind {A B : Type} (m : io A) (k : A -> io B) : io B :=
  fun w =>
    match m w with
    | (w', Some a) => k a w'
    | (w', None) => (w', None)
    end.

Notation "x <- m ;; k" := (bind m (fun x => k))
  (at level 100, m at next level, right associativity).
Notation "m ;;; k" := (bind m (fun _ => k))
  (at level 100, right associativity).

(** [with open(path, 'w') as f: ...], not guarded: the file is written
    when it opens, and the exception goes on when it does not. *)
Definition write_file (e : env) (f : written) : io unit :=
  fun w =>
    if opens e (folder f) (name f) then (w ++ [f], Some tt) else (w, None).

(** The same inside [try: ... except Exception: showwarning(...)]: [false]
    is the warning. *)
Definition try_write (e : env) (f : written) : io bool :=
  fun w =>
    if opens e (folder f) (name f) then (w ++ [f], Some true)
    else (w, Some false).

Definition lift {A : Type} (o : option A) : io A := fun w => (w, o).

Definition io_when (b : bool) (m : io unit) : io unit :=
  if b then m else ret tt.

Fixpoint io_for {A : Type} (l : list A) (body : A -> io unit) : io unit :=
  match l with
  | [] => ret tt
  | x :: rest => body x ;;; io_for rest body
  end.

Section ExportWriters.
Variable self : app.
Variable e : env.

Definition or_str (s d : string) : string := if PyStr.truthy s then s else d.

Definition _render_path (base batch group ts ext : string) : io string :=
  lift (filename_pattern_var self
          {| pv_base := base; pv_batch := batch;
             pv_group := or_str group "all"; pv_ts := ts;
             pv_ext := PyStr.lstrip_char "." ext |}).

Definition _ts : string := now e.

Definition out_fields : list string := ["postCode"; "sku"; "price"].

Definition _export_single (dir base : string) (csv_rows json_rows : list out_row)
  : io unit :=
  let ts := _ts in
  io_when (export_csv_var self)
    (csv_path <- _render_path base "all" "all" ts "csv" ;;
     write_file e {| folder := dir; name := csv_path;
                     body := CsvRows out_fields csv_rows |}) ;;;
  io_when (export_json_var self)
    (json_path <- _render_path base "all" "all" ts "json" ;;
     write_file e {| folder := dir; name := json_path;
                     body := JsonRows json_rows |}).

(** [l[start:stop]] *)
Definition slice {A : Type} (start stop : nat) (l : list A) : list A :=
  take (stop - start) (drop start l).

(** [f"{n:03d}"]: the decimal digits, padded with zeros to three. *)
Definition pad3 (n : nat) : string :=
  let ds := PyStr.of_Z (Z.of_nat n) in
  PyStr.zeros (3 - String.length ds) +:+ ds.

Definition batch_id (i : nat) : string := "part" +:+ pad3 (i + 1).

Definition _export_by_rows (dir base : string)
    (csv_rows json_rows : list out_row) (chunk_size : nat) : io unit :=
  let total := length csv_rows in
  if (total =? 0)%nat then ret tt
  else
    let ts := _ts in
    let parts := ((total + chunk_size - 1) / chunk_size)%nat in
    io_for (seq 0 parts) (fun i =>
      let start := (i * chunk_size)%nat in
      let stop := Nat.min ((i + 1) * chunk_size) total in
      io_when (export_csv_var self)
        (path <- _render_path base (batch_id i) "all" ts "csv" ;;
         write_file e {| folder := dir; name := path;
                         body := CsvRows out_fields
                                   (slice start stop csv_rows) |}) ;;;
      io_when (export_json_var self)
        (path <- _render_path base (batch_id i) "all" ts "json" ;;
         write_file e {| folder := dir; name := path;
                         body := JsonRows (slice start stop json_rows) |})).

(** [d.get(k)] on a row dict; the price is a float, the others strings. *)
Inductive cell := CellStr (s : string) | CellFloat (x : spec_float).

Definition out_get (d : out_row) (k : string) : option cell :=
  if String.eqb k "postCode" then Some (CellStr (out_postCode d))
  else if String.eqb k "sku" then Some (CellStr (out_sku d))
  else if String.eqb k "price" then Some (CellFloat (out_price d))
  else None.

Definition cell_truthy (c : cell) : bool :=
  match c with
  | CellStr s => PyStr.truthy s
  | CellFloat x => match x with S754_zero _ => false | _ => true end
  end.

Definition cell_str (c : cell) : string :=
  match c with CellStr s => s | CellFloat x => PyFloat.repr x end.

(** [d.get(k, "")] *)
Definition out_get_default (d : out_row) (k : string) : cell :=
  default (CellStr EmptyString) (out_get d k).

(** [c or "UNK"] *)
Definition or_unk (c : cell) : cell := if cell_truthy c then c else CellStr "UNK".

Definition key_for_json (key_lower : string) (d : out_row) : string :=
  if String.eqb key_lower "postcode" || String.eqb key_lower "post_code"
     || String.eqb key_lower "post code"
  then cell_str (or_unk (out_get_default d "postCode"))
  else if String.eqb key_lower "sku"
  then cell_str (or_unk (out_get_default d "sku"))
  else if String.eqb key_lower "price"
  then or_str (cell_str (out_get_default d "price")) "UNK"
  else cell_str (or_unk (out_get_default d key_lower)).

(** The group of a row: [(key_for_json(j) or "UNK").strip() or "UNK"]. *)
Definition group_of (key_lower : string) (j : out_row) : string :=
  or_str (PyStr.strip (or_str (key_for_json key_lower j) "UNK")) "UNK".

(** [groups[g].append(x)] on a [defaultdict(list)], kept in insertion
    order of its keys. *)
Fixpoint group_append {A : Type} (g : string) (x : A)
    (groups : list (string * list A)) : list (string * list A) :=
  match groups with
  | [] => [(g, [x])]
  | (k, xs) :: rest =>
      if String.eqb k g then (k, xs ++ [x]) :: rest
      else (k, xs) :: group_append g x rest
  end.

(** [groups[g]] on a [defaultdict(list)]. *)
Fixpoint group_lookup {A : Type} (g : string) (groups : list (string * list A))
  : list A :=
  match groups with
  | [] => []
  | (k, xs) :: rest => if String.eqb k g then xs else group_lookup g rest
  end.

(** The loop over [zip(json_rows, csv_rows)] that fills the two dicts. *)
Fixpoint fill_groups (key_lower : string) (json_rows csv_rows : list out_row)
    (groups_json groups_csv : list (string * list out_row))
  : list (string * list out_row) * list (string * list out_row) :=
  match json_rows, csv_rows with
  | j :: js, c :: cs =>
      let g := group_of key_lower j in
      fill_groups key_lower js cs
        (group_append g j groups_json) (group_append g c groups_csv)
  | _, _ => (groups_json, groups_csv)
  end.

Definition _sanitize_group (s : string) : string :=
  let out :=
    PyStr.map_str (fun c =>
      if PyStr.isalnum_char c || Ascii.eqb c "-" || Ascii.eqb c "_"
         || Ascii.eqb c "."
      then c else "_"%char) s in
  if PyStr.truthy out then PyStr.take_str 80 out else "UNK".

Definition _export_by_group (dir base : string)
    (json_rows csv_rows : list out_row) (group_col : string) : io unit :=
  let ts := _ts in
  let key_lower := PyStr.lower group_col in
  let '(groups_json, groups_csv) :=
    fill_groups key_lower json_rows csv_rows [] [] in
  io_for groups_csv (fun '(gval, rows_csv) =>
    let safe_group := _sanitize_group gval in
    io_when (export_csv_var self)
      (path <- _render_path base "group" safe_group ts "csv" ;;
       write_file e {| folder := dir; name := path;
                       body := CsvRows out_fields rows_csv |}) ;;;
    io_when (export_json_var self)
      (let rows_json := group_lookup gval groups_json in
       path <- _render_path base "group" safe_group ts "json" ;;
       write_file e {| folder := dir; name := path;
                       body := JsonRows rows_json |})).

End ExportWriters.

(** The row written to a CSV file: the postcode loses its leading zeros. *)
Definition csv_row_of (d : doc) : out_row :=
  {| out_postCode :=
       if PyStr.truthy (postCode d) then PyStr.lstrip_char "0" (postCode d)
       else EmptyString;
     out_sku := sku d; out_price := price d |}.

(** The row written to a JSON file. *)
Definition json_row_of (d : doc) : out_row :=
  {| out_postCode := postCode d; out_sku := sku d; out_price := price d |}.

(** How an export ends: the error box, an exception, the success box, or
    the success box after the warning that the errors file could not be
    written. *)
Inductive outcome :=
| NoValidRows
| Raised
| Completed
| CompletedWithWarning.

Definition set_group_column (g : string) (self : app) : app :=
  {| file_stem := file_stem self;
     last_valid_docs := last_valid_docs self;
     last_errors := last_errors self;
     last_warnings := last_warnings self;
     output_folder_var := output_folder_var self;
     filename_pattern_var := filename_pattern_var self;
     export_csv_var := export_csv_var self;
     export_json_var := export_json_var self;
     enable_batch_var := enable_batch_var self;
     batch_mode_var := batch_mode_var self;
     rows_per_file_var := rows_per_file_var self;
     group_column_var := g |}.

Definition set_result (res : result) (self : app) : app :=
  {| file_stem := file_stem self;
     last_valid_docs := records res;
     last_errors := result_errors res;
     last_warnings := result_warnings res;
     output_folder_var := output_folder_var self;
     filename_pattern_var := filename_pattern_var self;
     export_csv_var := export_csv_var self;
     export_json_var := export_json_var self;
     enable_batch_var := enable_batch_var self;
     batch_mode_var := batch_mode_var self;
     rows_per_file_var := rows_per_file_var self;
     group_column_var := group_column_var self |}.

(** [_update_group_columns(headers)]: a group column that is no header
    gives way to postcode, or to the first header. *)
Definition _update_group_columns (headers : list string) (self : app) : app :=
  match headers with
  | [] => self
  | h :: _ =>
      if bool_decide (group_column_var self ∈ headers) then self
      else set_group_column
             (if bool_decide ("postcode" ∈ headers) then "postcode" else h)
             self
  end.

(** [preview_data] as far as an export reads its effect: with a file
    selected the result is stored; without one the headers of the pasted
    text update the group column first. *)
Definition preview_data (e : env) (self : app) : app :=
  match revalidated e with
  | None => self
  | Some res =>
      match file_stem self with
      | Some _ => set_result res self
      | None => set_result res (_update_group_columns (pasted_headers e) self)
      end
  end.

Definition is_nil {A : Type} (l : list A) : bool :=
  match l with [] => true | _ :: _ => false end.

Definition base_name_snake (self : app) : string :=
  let base_name := default "pasted" (file_stem self) in
  PyStr.replace_char " " "_" (PyStr.replace_char "-" "_" (PyStr.lower base_name)).

Definition export_folder (e : env) (self : app) : string :=
  or_str (PyStr.strip (output_folder_var self)) (default_folder e).

Definition errors_file (e : env) (self : app) : written :=
  {| folder := export_folder e self;
     name := base_name_snake self +:+ "_errors.csv";
     body := ErrorRows ["row"; "context"; "error"] (last_errors self) |}.

(** The choice of the writer by batch mode, in [export_files]. *)
Definition export_batches (e : env) (self : app) (dir base : string)
    (csv_rows json_rows : list out_row) : io unit :=
  if enable_batch_var self then
    if String.eqb (batch_mode_var self) "rows" then
      let chunk :=
        match rows_per_file_var self with
        | Some n => Z.max 1 n
        | None => 1000
        end in
      _export_by_rows self e dir base csv_rows json_rows (Z.to_nat chunk)
    else
      let group_col := PyStr.strip (group_column_var self) in
      _export_by_group self e dir base json_rows csv_rows group_col
  else _export_single self e dir base csv_rows json_rows.

(** The writes of [export_files] after its two guards: the folder is
    made, the files of rows are written, and the errors file, if there
    are errors, inside its [try]; the value is [false] when the errors
    file could not be written. *)
Definition export_body (e : env) (self : app) : io bool :=
  let csv_rows := map csv_row_of (last_valid_docs self) in
  let json_rows := map json_row_of (last_valid_docs self) in
  let dir := export_folder e self in
  let base := base_name_snake self in
  lift (if makedirs e dir then Some tt else None) ;;;
  export_batches e self dir base csv_rows json_rows ;;;
  if is_nil (last_errors self) then ret true
  else try_write e (errors_file e self).

Definition export_files (e : env) (self0 : app) : list written * outcome :=
  let self :=
    if is_nil (last_valid_docs self0) && is_nil (last_errors self0)
    then preview_data e self0 else self0 in
  if is_nil (last_valid_docs self) && negb (is_nil (last_errors self))
  then ([], NoValidRows)
  else
    match export_body e self [] with
    | (files, Some true) => (files, Completed)
    | (files, Some false) => (files, CompletedWithWarning)
    | (files, None) => (files, Raised)
    end.

(** ** Settings *)

(** A value made by [json.load]; an object keeps its keys in the order
    of the file. *)
#[local] Unset Elimination Schemes.
Inductive jvalue :=
  | JNull
  | JBool (b : bool)
  | JInt (n : Z)
  | JFloat (x : spec_float)
  | JStr (s : string)
  | JArr (items : list jvalue)
  | JObj (members : list (string * jvalue)).
#[local] Set Elimination Schemes.

Definition is_dict (j : jvalue) : bool :=
  match j with JObj _ => true | _ => false end.

(** [d.get(k)] on the members of an object. *)
Fixpoint dict_get (k : string) (d : list (string * jvalue)) : option jvalue :=
  match d with
  | [] => None
  | (k', v) :: d' => if String.eqb k k' then Some v else dict_get k d'
  end.

(** [d[k] = v] on the members of an object: a key that is there keeps
    its place, a new key goes last. *)
Fixpoint dict_set (k : string) (v : jvalue) (d : list (string * jvalue))
  : list (string * jvalue) :=
  match d with
  | [] => [(k, v)]
  | (k', v') :: d' =>
      if String.eqb k k' then (k', v) :: d' else (k', v') :: dict_set k v d'
  end.

(** [k in s] for two strings. *)
Fixpoint str_in (k s : string) : bool :=
  String.prefix k s
  || match s with EmptyString => false | String _ s' => str_in k s' end.

(** [k in d] for a string [k]; [None] is a TypeError. *)
Definition contains (k : string) (d : jvalue) : option bool :=
  match d with
  | JObj members => Some (bool_decide (k ∈ map fst members))
  | JArr items =>
      Some (existsb (fun x => match x with
                              | JStr s => String.eqb k s
                              | _ => false
                              end) items)
  | JStr s => Some (str_in k s)
  | _ => None
  end.

(** [d[k]] for a string [k]; [None] is a KeyError or a TypeError. *)
Definition getitem (d : jvalue) (k : string) : option jvalue :=
  match d with JObj members => dict_get k members | _ => None end.

(** [d[k] = v] for a string [k]; [None] is a TypeError. *)
Definition setitem (d : jvalue) (k : string) (v : jvalue) : option jvalue :=
  match d with JObj members => Some (JObj (dict_set k v members)) | _ => None end.

Section DeepMerge.
Variable deep_merge : jvalue -> jvalue -> option jvalue.

(** One turn of the loop of [deep_merge], for the item [(k, v)] of the
    defaults; the inner call works on [d[k]] in place. *)
Definition merge_key (d : jvalue) (k : string) (v : jvalue) : option jvalue :=
  match contains k d with
  | None => None
  | Some false => setitem d k v
  | Some true =>
      if is_dict v then
        match getitem d k with
        | None => None
        | Some x =>
            if is_dict x then
              match deep_merge x v with
              | None => None
              | Some x' => setitem d k x'
              end
            else Some d
        end
      else Some d
  end.

Fixpoint merge_keys (items : list (string * jvalue)) (d : jvalue)
  : option jvalue :=
  match items with
  | [] => Some d
  | (k, v) :: rest =>
      match merge_key d k v with
      | None => None
      | Some d' => merge_keys rest d'
      end
  end.

End DeepMerge.

(** [deep_merge(d, default)]; [None] is an exception. *)
Fixpoint deep_merge (d default : jvalue) {struct default} : option jvalue :=
  match default with
  | JObj items => merge_keys (fun x v => deep_merge x v) items d
  | _ => None
  end.

(** [DEFAULT_SETTINGS]; [folder] is [os.path.abspath("export")]. *)
Definition DEFAULT_SETTINGS (folder : string) : jvalue :=
  JObj [("export",
         JObj [("folder", JStr folder);
               ("open_folder_after", JBool true);
               ("filename_pattern", JStr "{base}_{batch}_{group}_{ts}.{ext}");
               ("formats", JObj [("csv", JBool false); ("json", JBool true)])]);
        ("batch",
         JObj [("enabled", JBool true);
               ("mode", JStr "rows");
               ("rows_per_file", JInt 100000);
               ("group_column", JStr "postcode")])].

(** What [load_settings] finds at [CONFIG_PATH]: no file, a file that
    cannot be opened or parsed, or the value parsed from it. *)
Inductive config :=
  | NoConfig
  | BadConfig
  | Config (data : jvalue).

Definition load_settings (folder : string) (c : config) : jvalue :=
  match c with
  | NoConfig => DEFAULT_SETTINGS folder
  | BadConfig => DEFAULT_SETTINGS folder
  | Config data =>
      match deep_merge data (DEFAULT_SETTINGS folder) with
      | Some d => d
      | None => DEFAULT_SETTINGS folder
      end
  end.

(** ** Readings of a row and of a source, used to state the properties *)

Definition raw_sku_of (r : raw_row) : string :=
  normalize_str (field_from_row (_lower_keys r) "sku").
Definition raw_pc_of (r : raw_row) : string :=
  normalize_str (field_from_row (_lower_keys r) "postCode").
Definition raw_price_of (r : raw_row) : string :=
  normalize_str (field_from_row (_lower_keys r) "price").

(** All three resolved raw fields are empty. *)
Definition all_empty (r : raw_row) : bool :=
  negb (PyStr.truthy (raw_sku_of r)) && negb (PyStr.truthy (raw_pc_of r))
  && negb (PyStr.truthy (raw_price_of r)).

(** The reasons a row accumulates. *)
Definition row_errs (r : raw_row) : list string :=
  when (negb (PyStr.truthy (raw_sku_of r))) "sku missing"
  ++ when (negb (PyStr.truthy (raw_pc_of r))) "postCode missing"
  ++ when (negb (PyStr.truthy (raw_price_of r))) "price missing"
  ++ when (PyStr.truthy (raw_sku_of r) && negb (is_valid_sku (raw_sku_of r)).1)
          (is_valid_sku (raw_sku_of r)).2
  ++ when (PyStr.truthy (raw_pc_of r)
           && negb (is_valid_postcode (raw_pc_of r)).1)
          (is_valid_postcode (raw_pc_of r)).2
  ++ when (PyStr.truthy (raw_price_of r)
           && negb (normalize_price (raw_price_of r)).1.1)
          (normalize_price (raw_price_of r)).2.

(** The row passes field validation: no reason accumulated. *)
Definition field_valid (r : raw_row) : bool := is_nil (row_errs r).

(** The id the validator computes for a row, its context, and the record
    it builds. *)
Definition row_key (r : raw_row) : string :=
  doc_id_of (raw_sku_of r) (raw_pc_of r).
Definition row_ctx (r : raw_row) : string :=
  row_context (raw_sku_of r) (raw_pc_of r).
Definition row_doc (r : raw_row) : doc :=
  build_doc (raw_sku_of r) (raw_pc_of r) (normalize_price (raw_price_of r)).1.2.

Definition field_error (i : nat) (r : raw_row) : verror :=
  {| row := i; context := row_ctx r; error := PyStr.join "; " (row_errs r) |}.
Definition duplicate_error (i : nat) (r : raw_row) : verror :=
  {| row := i; context := row_ctx r; error := "Duplicate id within file" |}.

(** The resolved sku and postCode of a row are left as they are by one
    more normalization. *)
Definition stable (r : raw_row) : Prop :=
  normalize_str (PyStrV (raw_sku_of r)) = raw_sku_of r
  /\ normalize_str (PyStrV (raw_pc_of r)) = raw_pc_of r.

(** [enumerate(l, start=i)] *)
Fixpoint numbered {A : Type} (i : nat) (l : list A) : list (nat * A) :=
  match l with
  | [] => []
  | x :: rest => (i, x) :: numbered (S i) rest
  end.

(** The header of a reader names the three logical fields. *)
Definition header_ok (reader : csv_reader) : bool :=
  let fieldnames_lc :=
    map (fun h => PyStr.lower (PyStr.strip h)) (default [] (fieldnames reader)) in
  negb (is_nil fieldnames_lc)
  && forallb (has_alias fieldnames_lc) ["sku"; "postCode"; "price"].

(** The rows of a source that reach field validation, each with the row
    number it is reported under: for a reader the rows that are not
    skipped as empty, for a JSON file the items or the lines that are
    objects. *)
Definition reader_candidates (reader : csv_reader) : list (nat * raw_row) :=
  if header_ok reader
  then List.filter (fun p => negb (all_empty p.2)) (numbered 2 (reader_rows reader))
  else [].

Definition item_candidate (p : nat * json_item) : option (nat * raw_row) :=
  match p.2 with JObject obj => Some (p.1, obj) | JNotObject => None end.

Definition line_candidate (p : nat * nd_line) : option (nat * raw_row) :=
  match p.2 with NdObject obj => Some (p.1, obj) | _ => None end.

Definition json_candidates (f : json_file) : list (nat * raw_row) :=
  match top f with
  | TopArray items => omap item_candidate (numbered 1 items)
  | _ => omap line_candidate (numbered 1 (lines f))
  end.

Definition source_rows (DictReader : list string -> csv_reader) (src : source)
  : list (nat * raw_row) :=
  match src with
  | FromCsv (CsvOpened reader) => reader_candidates reader
  | FromCsv (CsvReadError _) => []
  | FromJson f => json_candidates f
  | FromPasted text =>
      match PyStr.nonblank_lines text with
      | [] => []
      | (_ :: _) as lines => reader_candidates (DictReader lines)
      end
  end.

(** The rows of a run that become records: the field-valid rows whose id
    no earlier field-valid row has. *)
Fixpoint accepted_from (seen : gset string) (rows : list (nat * raw_row))
  : list (nat * raw_row) :=
  match rows with
  | [] => []
  | (i, r) :: rest =>
      if field_valid r && negb (bool_decide (row_key r ∈ seen))
      then (i, r) :: accepted_from ({[row_key r]} ∪ seen) rest
      else accepted_from seen rest
  end.

Definition accepted (rows : list (nat * raw_row)) : list (nat * raw_row) :=
  accepted_from ∅ rows.

(** One step of a run, and a run, over the candidates and the reports
    that the three loops interleave. *)
Inductive event :=
| Candidate (idx : nat) (r : raw_row)
| Report (err : verror)
| Nothing.

Definition step (st : vstate) (ev : event) : vstate :=
  match ev with
  | Candidate idx r => validate_obj r idx st
  | Report err => add_error err st
  | Nothing => st
  end.

Definition run (evs : list event) (st : vstate) : vstate := foldl step st evs.

Definition reader_event (p : nat * raw_row) : event :=
  if all_empty p.2 then Nothing else Candidate p.1 p.2.

Definition item_event (p : nat * json_item) : event :=
  match p.2 with
  | JObject obj => Candidate p.1 obj
  | JNotObject =>
      Report {| row := p.1; context := EmptyString;
                error := "Each item must be a JSON object" |}
  end.

Definition line_event (p : nat * nd_line) : event :=
  match p.2 with
  | NdBlank => Nothing
  | NdObject obj => Candidate p.1 obj
  | NdNotObject =>
      Report {| row := p.1; context := EmptyString;
                error := "Line is not a JSON object" |}
  | NdInvalid e =>
      Report {| row := p.1; context := EmptyString;
                error := "Invalid JSON: " +:+ e |}
  end.

Definition event_candidate (ev : event) : option (nat * raw_row) :=
  match ev with Candidate i r => Some (i, r) | _ => None end.

(** The errors a run reports, from the ids seen so far. *)
Fixpoint reported_from (seen : gset string) (evs : list event) : list verror :=
  match evs with
  | [] => []
  | Candidate i r :: rest =>
      if field_valid r then
        if bool_decide (row_key r ∈ seen)
        then duplicate_error i r :: reported_from seen rest
        else reported_from ({[row_key r]} ∪ seen) rest
      else field_error i r :: reported_from seen rest
  | Report err :: rest => err :: reported_from seen rest
  | Nothing :: rest => reported_from seen rest
  end.

Definition reader_events (reader : csv_reader) : list event :=
  let raw_fieldnames := default [] (fieldnames reader) in
  let fieldnames_lc :=
    map (fun h => PyStr.lower (PyStr.strip h)) raw_fieldnames in
  match fieldnames_lc with
  | [] => [Report (header_error "Missing header row")]
  | _ :: _ =>
      match List.filter (fun key => negb (has_alias fieldnames_lc key))
                        ["sku"; "postCode"; "price"] with
      | (_ :: _) as missing_min =>
          [Report (header_error ("Missing required columns: "
                                 +:+ PyStr.join ", " missing_min))]
      | [] => map reader_event (numbered 2 (reader_rows reader))
      end
  end.

Definition json_events (f : json_file) : list event :=
  match top f with
  | TopArray items => map item_event (numbered 1 items)
  | _ =>
      map line_event (numbered 1 (lines f))
      ++ match line_read_error f with
         | Some e =>
             [Report {| row := 0; context := EmptyString;
                        error := "Error reading file line-by-line: " +:+ e |}]
         | None => []
         end
  end.

Definition source_events (DictReader : list string -> csv_reader)
    (src : source) : list event :=
  match src with
  | FromCsv (CsvOpened reader) => reader_events reader
  | FromCsv (CsvReadError e) =>
      [Report {| row := 0; context := "file"; error := "Read error: " +:+ e |}]
  | FromJson f => json_events f
  | FromPasted text =>
      match PyStr.nonblank_lines text with
      | [] => [Report (header_error "No content")]
      | (_ :: _) as lines => reader_events (DictReader lines)
      end
  end.

(** The id the validator gives a numbered row. *)
Definition key_of (p : nat * raw_row) : string := row_key p.2.

(** ** Further readings used to state the properties *)

Definition duplicate_message : string := "Duplicate id within file".

(** A message that does not begin with the letter D. *)
Definition not_D (m : string) : Prop :=
  match m with
  | String c _ => c <> "D"%char
  | EmptyString => False
  end.

(** Example inputs. *)
Definition example_row (s p pr : string) : raw_row :=
  [(Some "sku", PyStrV s); (Some "postCode", PyStrV p); (Some "price", PyStrV pr)].

Definition example_reader (rows : list raw_row) : csv_reader :=
  {| fieldnames := Some ["sku"; "postCode"; "price"]; reader_rows := rows |}.

Definition example_csv (rows : list raw_row) : source :=
  FromCsv (CsvOpened (example_reader rows)).

Definition example_json (objs : list raw_row) : source :=
  FromJson {| top := TopArray (map JObject objs); lines := [];
              line_read_error := None |}.

(** A tokenizer that finds no line; the CSV-file and JSON sources do not
    use the tokenizer. *)
Definition no_lines (ls : list string) : csv_reader :=
  {| fieldnames := None; reader_rows := [] |}.

Definition empty_row_error (idx : nat) : verror :=
  {| row := idx; context := "sku=, postCode=";
     error := "sku missing; postCode missing; price missing" |}.

(** A run of [n] double quotes. *)
Fixpoint quotes (n : nat) : string :=
  match n with O => EmptyString | S n' => String PyStr.dquote (quotes n') end.

Definition first_char (s : string) : option ascii :=
  match s with String c _ => Some c | EmptyString => None end.

Fixpoint last_char (s : string) : option ascii :=
  match s with
  | EmptyString => None
  | String c EmptyString => Some c
  | String _ s' => last_char s'
  end.

(** The lowered headers under which the sku is looked up, in the order of
    the lookups. *)
Definition sku_headers : list string :=
  ["sku"; "productcode"; "product_code"; "product id"; "productid"].

(** The characters removed from a price: the comma and the price symbols. *)
Definition removed_from_price : list ascii := ","%char :: price_symbols.

Definition is_removed (c : ascii) : bool :=
  existsb (Ascii.eqb c) removed_from_price.

(** The characters of [s] that satisfy [p], in order. *)
Fixpoint keep (p : ascii -> bool) (s : string) : string :=
  match s with
  | EmptyString => EmptyString
  | String c s' => if p c then String c (keep p s') else keep p s'
  end.

(** A file of rows, not the file of errors. *)
Definition data_file (f : written) : Prop :=
  match body f with ErrorRows _ _ => False | _ => True end.

(** The file opens for writing. *)
Definition can_open (e : env) (f : written) : bool :=
  opens e (folder f) (name f).

(** Of the files opened one after the other, those that are written: the
    files before the first that does not open. *)
Fixpoint opened (e : env) (files : list written) : list written :=
  match files with
  | [] => []
  | f :: rest => if can_open e f then f :: opened e rest else []
  end.

Definition all_open (e : env) (files : list written) : bool :=
  forallb (can_open e) files.

(** [m] opens the files [files] one after the other: it writes them and
    returns when each of them opens, and raises at the first that does
    not. *)
Definition writes (e : env) (m : io unit) (files : list written) : Prop :=
  forall w,
    m w = (w ++ opened e files, if all_open e files then Some tt else None).

(** The pattern renders every name. *)
Definition renders (self : app) : Prop :=
  forall v, filename_pattern_var self v <> None.

(** The name a pattern that renders gives. *)
Definition rendered (self : app) (base batch group ts ext : string) : string :=
  default EmptyString
    (filename_pattern_var self
       {| pv_base := base; pv_batch := batch;
          pv_group := or_str group "all"; pv_ts := ts;
          pv_ext := PyStr.lstrip_char "." ext |}).

Definition example_doc (s p : string) : doc :=
  {| sku := s; postCode := p; price := PyFloat.zero |}.

Definition example_error : verror :=
  {| row := 2; context := "sku=A1, postCode=20"; error := "postCode must be 4 digits" |}.

Definition example_app (docs : list doc) (errs : list verror) (batch : bool)
    (mode : string) : app :=
  {| file_stem := Some "Freight-Matrix"; last_valid_docs := docs;
     last_errors := errs; last_warnings := [];
     output_folder_var := "out"; filename_pattern_var := default_pattern;
     export_csv_var := true; export_json_var := true;
     enable_batch_var := batch; batch_mode_var := mode;
     rows_per_file_var := Some 2; group_column_var := "sku" |}.

(** An environment with a new export folder: every folder can be made,
    and a file opens unless its name is empty or holds a slash. *)
Definition example_env : env :=
  {| now := "20240101_000000"; default_folder := "/export";
     revalidated := None; pasted_headers := ["sku"; "postcode"; "price"];
     makedirs := fun _ => true;
     opens := fun _ name =>
                PyStr.truthy name && negb (PyStr.char_in "/" name) |}.

(** The number of files of one kind that rows mode writes, and the rows
    of the [i]-th of them. *)
Definition rows_parts (total k : nat) : nat := ((total + k - 1) / k)%nat.

Definition rows_batch {A : Type} (total k : nat) (rows : list A) (i : nat)
  : list A :=
  slice (i * k) (Nat.min ((i + 1) * k) total) rows.

(** The files rows mode writes for the [i]-th batch. *)
Definition rows_files (self : app) (e : env) (dir base : string)
    (csv_rows json_rows : list out_row) (k : nat) (i : nat) : list written :=
  (if export_csv_var self then
     [{| folder := dir;
         name := rendered self base (batch_id i) "all" (now e) "csv";
         body := CsvRows out_fields
                   (rows_batch (length csv_rows) k csv_rows i) |}]
   else [])
  ++ (if export_json_var self then
        [{| folder := dir;
            name := rendered self base (batch_id i) "all" (now e) "json";
            body := JsonRows (rows_batch (length csv_rows) k json_rows i) |}]
      else []).

(** The groups a list of (group, item) pairs fills, from [acc]. *)
Definition grouped {A : Type} (pairs : list (string * A))
    (acc : list (string * list A)) : list (string * list A) :=
  foldl (fun acc p => group_append p.1 p.2 acc) acc pairs.

(** The items of the pairs of group [g], in order. *)
Definition members {A : Type} (g : string) (pairs : list (string * A)) : list A :=
  map snd (List.filter (fun p => String.eqb p.1 g) pairs).

(** The pairs that the loop of group mode appends to its two dicts. *)
Definition json_pairs (key_lower : string) (json_rows csv_rows : list out_row)
  : list (string * out_row) :=
  map (fun jc => (group_of key_lower jc.1, jc.1)) (zip json_rows csv_rows).

Definition csv_pairs (key_lower : string) (json_rows csv_rows : list out_row)
  : list (string * out_row) :=
  map (fun jc => (group_of key_lower jc.1, jc.2)) (zip json_rows csv_rows).

(** A character that the sanitizer keeps. *)
Definition kept_char (c : ascii) : bool :=
  PyStr.isalnum_char c || Ascii.eqb c "-" || Ascii.eqb c "_" || Ascii.eqb c ".".

(** The files group mode writes for one group. *)
Definition group_files (self : app) (e : env) (dir base : string)
    (groups_json : list (string * list out_row))
    (g : string * list out_row) : list written :=
  (if export_csv_var self then
     [{| folder := dir;
         name := rendered self base "group" (_sanitize_group g.1) (now e) "csv";
         body := CsvRows out_fields g.2 |}]
   else [])
  ++ (if export_json_var self then
        [{| folder := dir;
            name := rendered self base "group" (_sanitize_group g.1) (now e)
                      "json";
            body := JsonRows (group_lookup g.1 groups_json) |}]
      else []).

(** A character allowed in a sku. *)
Definition sku_char (ch : ascii) : bool :=
  PyStr.isalnum_char ch || PyStr.char_in ch "-_./".

(** What field validation guarantees of a record. *)
Definition well_formed (d : doc) : Prop :=
  sku d <> EmptyString
  /\ PyStr.forallb_str sku_char (sku d) = true
  /\ (String.length (sku d) <= 64)%nat
  /\ String.length (postCode d) = 4%nat
  /\ PyStr.forallb_str PyStr.isdigit_char (postCode d) = true
  /\ exists val, PyFloat.ltb_zero val = false /\ PyFloat.isinf val = false
                 /\ PyFloat.isnan val = false /\ price d = PyFloat.round2 val.

(** An event that adds a record or an error. *)
Definition counts (ev : event) : bool :=
  match ev with Nothing => false | _ => true end.

(** The row number an event reports under. *)
Definition event_row (ev : event) : option nat :=
  match ev with
  | Candidate i _ => Some i
  | Report err => Some (row err)
  | Nothing => None
  end.

(** The object on a line of an NDJSON file, if the line holds one. *)
Definition line_object (l : nd_line) : option raw_row :=
  match l with NdObject obj => Some obj | _ => None end.

(** A text that neither begins nor ends with a double quote. *)
Definition no_outer_quote (s : string) : Prop :=
  first_char s <> Some PyStr.dquote /\ last_char s <> Some PyStr.dquote.

(** The value of the last item of a row whose header lowers to [k]. *)
Fixpoint last_value (k : string) (r : raw_row) : option pyval :=
  match r with
  | [] => None
  | kv :: rest =>
      match last_value k rest with
      | Some v => Some v
      | None => if String.eqb (lower_key kv.1) k then Some kv.2 else None
      end
  end.

(** The value under the first of the aliases that a header of the row
    lowers to. *)
Fixpoint first_present (r : raw_row) (aliases : list string) : pyval :=
  match aliases with
  | [] => PyNone
  | a :: rest =>
      match last_value (PyStr.lower a) r with
      | Some v => v
      | None => first_present r rest
      end
  end.

(** [m] raises before it writes. *)
Definition fails (m : io unit) : Prop := forall w, m w = (w, None).

(** The pattern renders no name. *)
Definition never_renders (self : app) : Prop :=
  forall v, filename_pattern_var self v = None.


(** The files single mode writes. *)
Definition single_files (self : app) (e : env) (dir base : string)
    (csv_rows json_rows : list out_row) : list written :=
  (if export_csv_var self then
     [{| folder := dir; name := rendered self base "all" "all" (now e) "csv";
         body := CsvRows out_fields csv_rows |}]
   else [])
  ++ (if export_json_var self then
        [{| folder := dir; name := rendered self base "all" "all" (now e) "json";
            body := JsonRows json_rows |}]
      else []).

(** The lowered group columns that name a field of a row. *)
Definition group_columns : list string :=
  ["postcode"; "post_code"; "post code"; "sku"; "price"].

(** The files of rows that an export opens, in order, by batch mode. *)
Definition data_files (e : env) (self : app) : list written :=
  let csv_rows := map csv_row_of (last_valid_docs self) in
  let json_rows := map json_row_of (last_valid_docs self) in
  let dir := export_folder e self in
  let base := base_name_snake self in
  if enable_batch_var self then
    if String.eqb (batch_mode_var self) "rows" then
      let k := Z.to_nat match rows_per_file_var self with
                        | Some n => Z.max 1 n
                        | None => 1000
                        end in
      flat_map (rows_files self e dir base csv_rows json_rows k)
        (seq 0 (rows_parts (length csv_rows) k))
    else
      let key := PyStr.lower (PyStr.strip (group_column_var self)) in
      flat_map
        (group_files self e dir base
           (fill_groups key json_rows csv_rows [] []).1)
        (fill_groups key json_rows csv_rows [] []).2
  else single_files self e dir base csv_rows json_rows.

(** Two writes go to the same file. *)
Definition same_path (f g : written) : bool :=
  String.eqb (folder f) (folder g) && String.eqb (name f) (name g).

(** What is on disk after the writes: of the writes to one file the last
    one. *)
Fixpoint on_disk (files : list written) : list written :=
  match files with
  | [] => []
  | f :: rest =>
      if existsb (same_path f) rest then on_disk rest else f :: on_disk rest
  end.

(** The rows of a CSV file, and of a JSON file. *)
Definition csv_rows_in (f : written) : list out_row :=
  match body f with CsvRows _ rows => rows | _ => [] end.

Definition json_rows_in (f : written) : list out_row :=
  match body f with JsonRows rows => rows | _ => [] end.

(** [k] is the integer nearest to [100 * n / d], the even one of two
    nearest ones, for a positive [d]. *)
Definition nearest_hundredths (n d k : Z) : Prop :=
  2 * Z.abs (100 * n - k * d) <= d
  /\ (2 * Z.abs (100 * n - k * d) = d -> Z.even k = true).

(** [r] is [x] rounded to two decimal places: a float [m * 2^e] with
    [e] negative becomes the float that the decimal [k / 100] reads as,
    for the integer [k] nearest to a hundred times its value; a float
    with no fractional bit, a zero or a special value is kept. *)
Definition rounded2 (x r : spec_float) : Prop :=
  match x with
  | S754_finite s m e =>
      if 0 <=? e then r = x
      else exists k, nearest_hundredths (Z.pos m) (2 ^ (- e)) k
                     /\ r = PyFloat.of_decimal s k (-2)
  | _ => r = x
  end.

(** ** Readings of settings, used to state the properties *)

Section Covers.
Variable covers : jvalue -> jvalue -> bool.
Variable missing : bool.

(** Every item [(k, v)] of the defaults has in [d] a value that covers
    [v]; [missing] tells whether a key may be absent from [d]. *)
Fixpoint covers_keys (d items : list (string * jvalue)) : bool :=
  match items with
  | [] => true
  | (k, v) :: rest =>
      match dict_get k d with
      | None => missing
      | Some x => covers v x
      end && covers_keys d rest
  end.

End Covers.

Fixpoint covers (missing : bool) (default d : jvalue) {struct default} : bool :=
  match default with
  | JObj items =>
      match d with
      | JObj members =>
          covers_keys (fun v x => covers missing v x) missing members items
      | _ => false
      end
  | _ => true
  end.

(** Wherever the defaults have an object, [d] has an object or nothing. *)
Definition same_shape (default d : jvalue) : bool := covers true default d.

(** [d] has every key of the defaults, with an object wherever they
    have one. *)
Definition complete (default d : jvalue) : bool := covers false default d.

Section AllValues.
Variable p : jvalue -> bool.

Fixpoint all_values (items : list (string * jvalue)) : bool :=
  match items with
  | [] => true
  | (_, v) :: rest => p v && all_values rest
  end.

End AllValues.

(** No object has a key twice, as in a Python dict. *)
Fixpoint distinct_keys (j : jvalue) : bool :=
  match j with
  | JObj items =>
      bool_decide (NoDup (map fst items))
      && all_values (fun v => distinct_keys v) items
  | _ => true
  end.

(** [r] is [d] with more in it: a value that is no object is the same;
    an object keeps its keys, in their order, each with a value that
    extends its own, and may have gained keys after them. *)
#[local] Unset Elimination Schemes.
Inductive extends : jvalue -> jvalue -> Prop :=
  | extends_same (j : jvalue) : extends j j
  | extends_obj (d r extra : list (string * jvalue)) :
      Forall2 (fun p q => p.1 = q.1 /\ extends p.2 q.2) d r ->
      extends (JObj d) (JObj (r ++ extra)).
#[local] Set Elimination Schemes.

(** [s[k1][k2]...]; [None] is a KeyError or a TypeError. *)
Fixpoint read_path (s : jvalue) (path : list string) : option jvalue :=
  match path with
  | [] => Some s
  | k :: rest =>
      match getitem s k with
      | Some x => read_path x rest
      | None => None
      end
  end.

(** The settings that [App.__init__] reads. *)
Definition settings_reads : list (list string) :=
  [["export"; "folder"]; ["export"; "open_folder_after"];
   ["export"; "filename_pattern"]; ["export"; "formats"; "csv"];
   ["export"; "formats"; "json"]; ["batch"; "enabled"]; ["batch"; "mode"];
   ["batch"; "rows_per_file"]; ["batch"; "group_column"]].

(** A settings file that sets the batch mode only. *)
Definition example_settings : jvalue :=
  JObj [("batch", JObj [("mode", JStr "group")]); ("theme", JStr "dark")].

(** * Validation: the loops are runs over events *)

Lemma eqb_empty (s : string) : String.eqb s EmptyString = negb (PyStr.truthy s).
Proof. destruct s; reflexivity. Qed.

Lemma validate_obj_eq (r : raw_row) (idx : nat) (st : vstate) :
  validate_obj r idx st =
  match row_errs r with
  | _ :: _ => add_error (field_error idx r) st
  | [] =>
      if bool_decide (row_key r ∈ seen_ids st)
      then add_error (duplicate_error idx r) st
      else add_doc (row_key r) (row_doc r) st
  end.
Proof.
  unfold validate_obj, field_error, duplicate_error, row_errs, row_key,
    row_ctx, row_doc, raw_sku_of, raw_pc_of, raw_price_of.
  rewrite eqb_empty, negb_involutive.
  destruct (is_valid_sku _) as [ok_sku sku_err].
  destruct (is_valid_postcode _) as [ok_pc pc_err].
  destruct (normalize_price _) as [[ok_price norm_price] price_err].
  reflexivity.
Qed.

Lemma reader_row_eq (idx : nat) (r : raw_row) (st : vstate) :
  reader_row idx r st = if all_empty r then st else validate_obj r idx st.
Proof.
  unfold reader_row, validate_obj, all_empty, raw_sku_of, raw_pc_of,
    raw_price_of.
  rewrite eqb_empty, negb_involutive.
  destruct (negb _ && negb _ && negb _); reflexivity.
Qed.

Lemma run_cons (ev : event) (evs : list event) (st : vstate) :
  run (ev :: evs) st = run evs (step st ev).
Proof. reflexivity. Qed.

Lemma run_app (evs1 evs2 : list event) (st : vstate) :
  run (evs1 ++ evs2) st = run evs2 (run evs1 st).
Proof. unfold run. apply foldl_app. Qed.

Lemma step_candidate (i : nat) (r : raw_row) (st : vstate) :
  step st (Candidate i r) =
  if field_valid r then
    if bool_decide (row_key r ∈ seen_ids st)
    then add_error (duplicate_error i r) st
    else add_doc (row_key r) (row_doc r) st
  else add_error (field_error i r) st.
Proof.
  cbn [step]. rewrite validate_obj_eq. unfold field_valid.
  destruct (row_errs r); reflexivity.
Qed.

Lemma run_docs (evs : list event) (st : vstate) :
  valid_docs (run evs st) =
  valid_docs st
  ++ map (fun p => row_doc p.2)
       (accepted_from (seen_ids st) (omap event_candidate evs)).
Proof.
  revert st. induction evs as [|ev evs IH]; intros st.
  - cbn. by rewrite app_nil_r.
  - rewrite run_cons, IH. destruct ev as [i r|err|].
    + rewrite step_candidate. cbn [omap list_omap event_candidate accepted_from].
      destruct (field_valid r); cbn [andb]; [|reflexivity].
      destruct (bool_decide _); cbn [negb]; [reflexivity|].
      cbn. by rewrite <- app_assoc.
    + reflexivity.
    + reflexivity.
Qed.

Lemma run_errors (evs : list event) (st : vstate) :
  errors (run evs st) = errors st ++ reported_from (seen_ids st) evs.
Proof.
  revert st. induction evs as [|ev evs IH]; intros st.
  - cbn. by rewrite app_nil_r.
  - rewrite run_cons, IH. destruct ev as [i r|err|].
    + rewrite step_candidate. cbn [reported_from].
      destruct (field_valid r).
      * destruct (bool_decide _); cbn; [by rewrite <- app_assoc|reflexivity].
      * cbn. by rewrite <- app_assoc.
    + cbn. by rewrite <- app_assoc.
    + reflexivity.
Qed.

Lemma run_warnings (evs : list event) (st : vstate) :
  warnings (run evs st) = warnings st.
Proof.
  revert st. induction evs as [|ev evs IH]; intros st; [reflexivity|].
  rewrite run_cons, IH. destruct ev as [i r|err|]; [|reflexivity..].
  rewrite step_candidate.
  destruct (field_valid r); [destruct (bool_decide _)|]; reflexivity.
Qed.

(** The three loops are runs. *)
Lemma reader_loop_run (rows : list raw_row) (idx : nat) (st : vstate) :
  reader_loop idx rows st = run (map reader_event (numbered idx rows)) st.
Proof.
  revert idx st. induction rows as [|r rows IH]; intros idx st; [reflexivity|].
  cbn [reader_loop numbered map]. rewrite run_cons, IH. f_equal.
  rewrite reader_row_eq. unfold reader_event. cbn [fst snd].
  destruct (all_empty r); reflexivity.
Qed.

Lemma array_loop_run (items : list json_item) (i : nat) (st : vstate) :
  array_loop i items st = run (map item_event (numbered i items)) st.
Proof.
  revert i st. induction items as [|it items IH]; intros i st; [reflexivity|].
  cbn [numbered map]. rewrite run_cons.
  destruct it; cbn [array_loop]; rewrite IH; reflexivity.
Qed.

Lemma lines_loop_run (ls : list nd_line) (i : nat) (st : vstate) :
  lines_loop i ls st = run (map line_event (numbered i ls)) st.
Proof.
  revert i st. induction ls as [|l ls IH]; intros i st; [reflexivity|].
  cbn [numbered map]. rewrite run_cons.
  destruct l; cbn [lines_loop]; rewrite IH; reflexivity.
Qed.

Lemma header_ok_filter (fs : list string) :
  List.filter (fun key => negb (has_alias fs key)) ["sku"; "postCode"; "price"] = []
  <-> forallb (has_alias fs) ["sku"; "postCode"; "price"] = true.
Proof.
  cbn [List.filter forallb].
  destruct (has_alias fs "sku"), (has_alias fs "postCode"),
    (has_alias fs "price"); cbn; split; congruence.
Qed.

Lemma reader_run (reader : csv_reader) :
  _validate_from_reader reader = finish (run (reader_events reader) vstate0).
Proof.
  unfold _validate_from_reader, reader_events.
  destruct (map _ (default [] (fieldnames reader))) as [|h fs]; [reflexivity|].
  destruct (List.filter _ _) as [|k ks]; [|reflexivity].
  by rewrite reader_loop_run.
Qed.

Lemma reader_events_candidates (reader : csv_reader) :
  omap event_candidate (reader_events reader) = reader_candidates reader.
Proof.
  unfold reader_events, reader_candidates, header_ok.
  destruct (map _ (default [] (fieldnames reader))) as [|h fs] eqn:Hfs;
    [reflexivity|].
  cbn [is_nil negb andb].
  destruct (List.filter _ _) as [|k ks] eqn:Hf.
  - apply header_ok_filter in Hf. rewrite Hf.
    generalize (numbered 2 (reader_rows reader)). intros l.
    induction l as [|[i r] l IH]; [reflexivity|].
    cbn [map omap List.filter]. unfold reader_event at 1. cbn [fst snd].
    destruct (all_empty r); cbn; by rewrite <- IH.
  - destruct (forallb _ _) eqn:Hall; [|reflexivity].
    apply header_ok_filter in Hall. congruence.
Qed.

Section RunSources.
Variable DictReader : list string -> csv_reader.

Lemma validate_records (src : source) :
  records (validate DictReader src)
  = valid_docs (run (source_events DictReader src) vstate0).
Proof.
  destruct src as [[e|reader]|f|text]; cbn [validate source_events].
  - reflexivity.
  - cbn [validate_csv]. by rewrite reader_run.
  - unfold validate_json, json_events, ndjson_pass.
    destruct (top f); cbn [records finish fst].
    + by rewrite array_loop_run.
    + rewrite run_app, lines_loop_run.
      destruct (line_read_error f); cbn; by rewrite !run_docs.
    + rewrite run_app, lines_loop_run.
      destruct (line_read_error f); cbn; by rewrite !run_docs.
  - unfold validate_pasted_csv_text.
    destruct (PyStr.nonblank_lines text); [reflexivity|]. by rewrite reader_run.
Qed.

Lemma validate_errors (src : source) :
  result_errors (validate DictReader src)
  = errors (run (source_events DictReader src) vstate0).
Proof.
  destruct src as [[e|reader]|f|text]; cbn [validate source_events].
  - reflexivity.
  - cbn [validate_csv]. by rewrite reader_run.
  - unfold validate_json, json_events, ndjson_pass.
    destruct (top f); cbn [result_errors finish fst snd].
    + by rewrite array_loop_run.
    + rewrite run_app, lines_loop_run.
      destruct (line_read_error f); cbn; rewrite !run_errors; cbn;
        by rewrite ?app_nil_r.
    + rewrite run_app, lines_loop_run.
      destruct (line_read_error f); cbn; rewrite !run_errors; cbn;
        by rewrite ?app_nil_r.
  - unfold validate_pasted_csv_text.
    destruct (PyStr.nonblank_lines text); [reflexivity|]. by rewrite reader_run.
Qed.

Lemma source_events_candidates (src : source) :
  omap event_candidate (source_events DictReader src)
  = source_rows DictReader src.
Proof.
  destruct src as [[e|reader]|f|text]; cbn [source_events source_rows].
  - reflexivity.
  - apply reader_events_candidates.
  - unfold json_events, json_candidates.
    destruct (top f).
    + generalize (numbered 1 items). intros l.
      induction l as [|[i [o|]] l IH]; cbn; [reflexivity|by rewrite <- IH..].
    + rewrite omap_app.
      replace (omap event_candidate (match line_read_error f with
        | Some e => _ | None => [] end)) with (@nil (nat * raw_row))
        by (destruct (line_read_error f); reflexivity).
      rewrite app_nil_r.
      generalize (numbered 1 (lines f)). intros l.
      induction l as [|[i [|o| |e]] l IH]; cbn; [reflexivity|by rewrite <- IH..].
    + rewrite omap_app.
      replace (omap event_candidate (match line_read_error f with
        | Some e => _ | None => [] end)) with (@nil (nat * raw_row))
        by (destruct (line_read_error f); reflexivity).
      rewrite app_nil_r.
      generalize (numbered 1 (lines f)). intros l.
      induction l as [|[i [|o| |e]] l IH]; cbn; [reflexivity|by rewrite <- IH..].
  - destruct (PyStr.nonblank_lines text); [reflexivity|].
    apply reader_events_candidates.
Qed.

End RunSources.

(** * Accepted rows and reported errors *)

Lemma accepted_sublist (rows : list (nat * raw_row)) (seen : gset string) :
  sublist (accepted_from seen rows) rows.
Proof.
  revert seen. induction rows as [|[i r] rows IH]; intros seen; cbn.
  - constructor.
  - destruct (field_valid r && _); [apply sublist_skip|apply sublist_cons];
      apply IH.
Qed.

Lemma accepted_elem (rows : list (nat * raw_row)) (seen : gset string)
    (p : nat * raw_row) :
  p ∈ accepted_from seen rows ->
  field_valid p.2 = true /\ key_of p ∉ seen.
Proof.
  revert seen. induction rows as [|[i r] rows IH]; intros seen; cbn.
  - intros H. by apply elem_of_nil in H.
  - destruct (field_valid r) eqn:Hv; cbn [andb]; [|apply IH].
    destruct (bool_decide _) eqn:Hd; cbn [negb]; [apply IH|].
    apply bool_decide_eq_false in Hd.
    intros [->|H]%elem_of_cons; [done|].
    apply IH in H as [? H]. split; [done|]. set_solver.
Qed.

Lemma accepted_NoDup (rows : list (nat * raw_row)) (seen : gset string) :
  NoDup (map key_of (accepted_from seen rows)).
Proof.
  revert seen. induction rows as [|[i r] rows IH]; intros seen; cbn.
  - constructor.
  - destruct (field_valid r && _); [|apply IH].
    cbn. constructor; [|apply IH].
    intros (p & Hk & Hp)%list_elem_of_fmap.
    apply accepted_elem in Hp as [_ Hp]. unfold key_of in *. cbn in Hk.
    rewrite <- Hk in Hp. set_solver.
Qed.

(** A field-valid row whose id is new is accepted. *)
Lemma accepted_first (pre post : list (nat * raw_row)) (i : nat) (r : raw_row)
    (seen : gset string) :
  field_valid r = true ->
  row_key r ∉ seen ->
  (forall p, p ∈ pre -> field_valid p.2 = true -> key_of p <> row_key r) ->
  (i, r) ∈ accepted_from seen (pre ++ (i, r) :: post).
Proof.
  intros Hv. revert seen.
  induction pre as [|[j r'] pre IH]; intros seen Hs Hpre; cbn.
  - rewrite Hv. rewrite bool_decide_eq_false_2 by done. cbn. apply elem_of_cons. by left.
  - destruct (field_valid r') eqn:Hv'; cbn [andb].
    + destruct (bool_decide _); cbn [negb].
      * apply IH; [done|]. intros p Hp. apply Hpre. by apply elem_of_cons; right.
      * apply elem_of_cons. right. apply IH.
        -- assert (key_of (j, r') <> row_key r) as Hne
             by (apply Hpre; [apply elem_of_cons; by left|done]).
           unfold key_of in Hne. cbn in Hne. set_solver.
        -- intros p Hp. apply Hpre. by apply elem_of_cons; right.
    + apply IH; [done|]. intros p Hp. apply Hpre. by apply elem_of_cons; right.
Qed.

(** A row that is not field-valid, or whose id an earlier field-valid row
    has, leaves the accepted rows as they are without it. *)
Lemma accepted_skip (pre post : list (nat * raw_row)) (i : nat) (r : raw_row)
    (seen : gset string) :
  field_valid r = false
  \/ row_key r ∈ seen
  \/ (exists p, p ∈ pre /\ field_valid p.2 = true /\ key_of p = row_key r) ->
  accepted_from seen (pre ++ (i, r) :: post) = accepted_from seen (pre ++ post).
Proof.
  revert seen. induction pre as [|[j r'] pre IH]; intros seen H; cbn.
  - destruct H as [->|[H|(p & Hp & _)]]; [reflexivity| |by apply elem_of_nil in Hp].
    rewrite (bool_decide_eq_true_2 _ H). by rewrite andb_false_r.
  - destruct (field_valid r') eqn:Hv'; cbn [andb].
    + destruct (bool_decide (row_key r' ∈ seen)) eqn:Hd; cbn [negb].
      * apply IH. destruct H as [H|[H|(p & Hp & Hpv & Hk)]]; [by left|by right; left|].
        apply elem_of_cons in Hp as [->|Hp].
        -- right; left. apply bool_decide_eq_true in Hd.
           unfold key_of in Hk. cbn in Hk. by rewrite <- Hk.
        -- right; right. by exists p.
      * f_equal. apply IH.
        destruct H as [H|[H|(p & Hp & Hpv & Hk)]]; [by left|right; left; set_solver|].
        apply elem_of_cons in Hp as [->|Hp].
        -- right; left. unfold key_of in Hk. cbn in Hk. set_solver.
        -- right; right. by exists p.
    + apply IH. destruct H as [H|[H|(p & Hp & Hpv & Hk)]]; [by left|by right; left|].
      apply elem_of_cons in Hp as [->|Hp]; [cbn in Hpv; congruence|].
      right; right. by exists p.
Qed.

Lemma omap_split {A B : Type} (f : A -> option B) (l : list A)
    (l1 l2 : list B) (y : B) :
  omap f l = l1 ++ y :: l2 ->
  exists k1 x k2, l = k1 ++ x :: k2 /\ f x = Some y
                  /\ omap f k1 = l1 /\ omap f k2 = l2.
Proof.
  revert l1. induction l as [|a l IH]; intros l1 H; cbn in H.
  - by destruct l1.
  - destruct (f a) as [b|] eqn:Hfa.
    + destruct l1 as [|b' l1]; cbn in H.
      * injection H as -> <-. exists [], a, l. cbn. done.
      * injection H as -> H. apply IH in H as (k1 & x & k2 & -> & Hx & <- & <-).
        exists (a :: k1), x, k2. cbn. rewrite Hfa. done.
    + apply IH in H as (k1 & x & k2 & -> & Hx & <- & <-).
      exists (a :: k1), x, k2. cbn. rewrite Hfa. done.
Qed.

Lemma event_candidate_Some (ev : event) (i : nat) (r : raw_row) :
  event_candidate ev = Some (i, r) -> ev = Candidate i r.
Proof. destruct ev; cbn; congruence. Qed.

(** The error reported for a candidate of a run. *)
Lemma reported_field_error (pre post : list event) (i : nat) (r : raw_row)
    (seen : gset string) :
  field_valid r = false ->
  field_error i r ∈ reported_from seen (pre ++ Candidate i r :: post).
Proof.
  intros Hv. revert seen. induction pre as [|ev pre IH]; intros seen; cbn.
  - rewrite Hv. apply elem_of_cons. by left.
  - destruct ev as [j r'|err|].
    + destruct (field_valid r'); [destruct (bool_decide _)|];
        try (apply elem_of_cons; right); apply IH.
    + apply elem_of_cons; right; apply IH.
    + apply IH.
Qed.

Lemma reported_duplicate (pre post : list event) (i : nat) (r : raw_row)
    (seen : gset string) :
  field_valid r = true ->
  row_key r ∈ seen
  \/ (exists p, p ∈ omap event_candidate pre /\ field_valid p.2 = true
                /\ key_of p = row_key r) ->
  duplicate_error i r ∈ reported_from seen (pre ++ Candidate i r :: post).
Proof.
  intros Hv. revert seen. induction pre as [|ev pre IH]; intros seen H; cbn.
  - destruct H as [H|(p & Hp & _)]; [|by apply elem_of_nil in Hp].
    rewrite Hv, (bool_decide_eq_true_2 _ H). apply elem_of_cons. by left.
  - destruct ev as [j r'|err|]; cbn in H.
    + destruct (field_valid r') eqn:Hv'.
      * destruct (bool_decide (row_key r' ∈ seen)) eqn:Hd.
        -- apply elem_of_cons; right. apply IH.
           destruct H as [H|(p & Hp & Hpv & Hk)]; [by left|].
           apply elem_of_cons in Hp as [->|Hp].
           ++ left. apply bool_decide_eq_true in Hd.
              unfold key_of in Hk. cbn in Hk. by rewrite <- Hk.
           ++ right. by exists p.
        -- apply IH. destruct H as [H|(p & Hp & Hpv & Hk)]; [left; set_solver|].
           apply elem_of_cons in Hp as [->|Hp].
           ++ left. unfold key_of in Hk. cbn in Hk. set_solver.
           ++ right. by exists p.
      * apply elem_of_cons; right. apply IH.
        destruct H as [H|(p & Hp & Hpv & Hk)]; [by left|].
        apply elem_of_cons in Hp as [->|Hp]; [cbn in Hpv; congruence|].
        right. by exists p.
    + apply elem_of_cons; right. apply IH. done.
    + apply IH. done.
Qed.

(** * Row numbers *)

Lemma numbered_fst {A : Type} (l : list A) (i : nat) :
  map fst (numbered i l) = seq i (length l).
Proof.
  revert i. induction l as [|x l IH]; intros i; [reflexivity|].
  cbn. by rewrite IH.
Qed.

Lemma omap_fst_sublist {A B : Type} (f : nat * A -> option (nat * B))
    (l : list (nat * A)) :
  (forall p q, f p = Some q -> q.1 = p.1) ->
  sublist (map fst (omap f l)) (map fst l).
Proof.
  intros Hf. induction l as [|p l IH]; cbn; [constructor|].
  destruct (f p) as [q|] eqn:Hp; cbn.
  - rewrite (Hf _ _ Hp). by apply sublist_skip.
  - by apply sublist_cons.
Qed.

Lemma filter_fst_sublist {A : Type} (f : nat * A -> bool) (l : list (nat * A)) :
  sublist (map fst (List.filter f l)) (map fst l).
Proof.
  induction l as [|p l IH]; cbn; [constructor|].
  destruct (f p); cbn; [by apply sublist_skip|by apply sublist_cons].
Qed.

Lemma numbered_NoDup {A : Type} (l : list A) (i : nat) :
  NoDup (map fst (numbered i l)).
Proof. rewrite numbered_fst. apply NoDup_seq. Qed.

Lemma reader_candidates_NoDup (reader : csv_reader) :
  NoDup (map fst (reader_candidates reader)).
Proof.
  unfold reader_candidates. destruct (header_ok reader); [|constructor].
  exact (sublist_NoDup _ _ (numbered_NoDup _ _) (filter_fst_sublist _ _)).
Qed.

Lemma json_candidates_NoDup (f : json_file) :
  NoDup (map fst (json_candidates f)).
Proof.
  unfold json_candidates.
  destruct (top f);
    refine (sublist_NoDup _ _ (numbered_NoDup _ _) (omap_fst_sublist _ _ _)).
  - intros [i [o|]] q; cbn; [|done]. by intros [= <-].
  - intros [i [|o| |e]] q; cbn; try done. by intros [= <-].
  - intros [i [|o| |e]] q; cbn; try done. by intros [= <-].
Qed.

Lemma source_rows_NoDup (DictReader : list string -> csv_reader) (src : source) :
  NoDup (map fst (source_rows DictReader src)).
Proof.
  destruct src as [[e|reader]|f|text]; cbn [source_rows].
  - constructor.
  - apply reader_candidates_NoDup.
  - apply json_candidates_NoDup.
  - destruct (PyStr.nonblank_lines text); [constructor|].
    apply reader_candidates_NoDup.
Qed.

(** Two rows of a source under one row number are one row. *)
Lemma NoDup_fst_eq {A : Type} (l : list (nat * A)) (i : nat) (x y : A) :
  NoDup (map fst l) -> (i, x) ∈ l -> (i, y) ∈ l -> x = y.
Proof.
  induction l as [|[j z] l IH]; cbn; intros Hnd Hx Hy.
  - by apply elem_of_nil in Hx.
  - apply NoDup_cons in Hnd as [Hj Hnd].
    apply elem_of_cons in Hx as [Hx|Hx], Hy as [Hy|Hy].
    + congruence.
    + injection Hx as -> ->. exfalso. apply Hj.
      apply list_elem_of_fmap. by exists (j, y).
    + injection Hy as -> ->. exfalso. apply Hj.
      apply list_elem_of_fmap. by exists (j, x).
    + by apply IH.
Qed.

(** * Messages *)

Lemma not_D_duplicate (m : string) : not_D m -> m <> duplicate_message.
Proof. destruct m; cbn; [done|]. intros H [= -> _]. done. Qed.

Lemma not_D_app (m1 m2 : string) : not_D m1 -> not_D (m1 +:+ m2).
Proof. destruct m1; cbn; done. Qed.

Lemma not_D_join (sep x : string) (l : list string) :
  not_D x -> not_D (PyStr.join sep (x :: l)).
Proof.
  intros H. destruct l; cbn; [done|]. destruct x; cbn in *; done.
Qed.

Lemma when_cases (b : bool) (x : string) :
  when b x = [] \/ (b = true /\ when b x = [x]).
Proof. destruct b; cbn; auto. Qed.

Lemma is_valid_sku_msg (s : string) :
  (is_valid_sku s).1 = false -> not_D (is_valid_sku s).2.
Proof.
  unfold is_valid_sku. repeat case_match; cbn; done.
Qed.

Lemma is_valid_postcode_msg (s : string) :
  (is_valid_postcode s).1 = false -> not_D (is_valid_postcode s).2.
Proof.
  unfold is_valid_postcode. repeat case_match; cbn; done.
Qed.

Lemma normalize_price_msg (s : string) :
  (normalize_price s).1.1 = false -> not_D (normalize_price s).2.
Proof.
  unfold normalize_price. repeat case_match; cbn; done.
Qed.

Lemma row_errs_not_D (r : raw_row) : Forall not_D (row_errs r).
Proof.
  unfold row_errs.
  repeat (apply Forall_app; split);
    match goal with
    | |- Forall _ (when ?b ?x) =>
        destruct b eqn:Hb; cbn [when]; [|constructor];
        apply Forall_singleton
    end; try done.
  - apply is_valid_sku_msg.
    apply andb_true_iff in Hb as [_ Hb]. by apply negb_true_iff in Hb.
  - apply is_valid_postcode_msg.
    apply andb_true_iff in Hb as [_ Hb]. by apply negb_true_iff in Hb.
  - apply normalize_price_msg.
    apply andb_true_iff in Hb as [_ Hb]. by apply negb_true_iff in Hb.
Qed.

Lemma field_error_message (i : nat) (r : raw_row) :
  field_valid r = false -> not_D (error (field_error i r)).
Proof.
  unfold field_valid, field_error. cbn [error].
  pose proof (row_errs_not_D r) as H.
  destruct (row_errs r) as [|x l]; [done|]. intros _.
  apply not_D_join. by apply Forall_cons in H as [H _].
Qed.

(** * Where a reported error comes from *)

Lemma reported_elem (evs : list event) (seen : gset string) (err : verror) :
  err ∈ reported_from seen evs ->
  Report err ∈ evs
  \/ exists i r, Candidate i r ∈ evs
       /\ ((field_valid r = false /\ err = field_error i r)
           \/ (field_valid r = true /\ err = duplicate_error i r)).
Proof.
  revert seen. induction evs as [|ev evs IH]; intros seen; cbn.
  - intros H. by apply elem_of_nil in H.
  - assert (forall s, err ∈ reported_from s evs ->
       Report err ∈ ev :: evs
       \/ exists i r, Candidate i r ∈ ev :: evs
            /\ ((field_valid r = false /\ err = field_error i r)
                \/ (field_valid r = true /\ err = duplicate_error i r))) as IH'.
    { intros s Hs. destruct (IH _ Hs) as [H|(i & r & H & Hc)].
      - left. by apply elem_of_cons; right.
      - right. exists i, r. split; [by apply elem_of_cons; right|done]. }
    destruct ev as [j r'|e'|].
    + destruct (field_valid r') eqn:Hv.
      * destruct (bool_decide _).
        -- intros [->|H]%elem_of_cons; [|by eapply IH'].
           right. exists j, r'. split; [apply elem_of_cons; by left|]. by right.
        -- apply IH'.
      * intros [->|H]%elem_of_cons; [|by eapply IH'].
        right. exists j, r'. split; [apply elem_of_cons; by left|]. by left.
    + intros [->|H]%elem_of_cons; [|by eapply IH'].
      left. apply elem_of_cons. by left.
    + apply IH'.
Qed.

Lemma candidate_elem (evs : list event) (i : nat) (r : raw_row) :
  Candidate i r ∈ evs <-> (i, r) ∈ omap event_candidate evs.
Proof.
  rewrite list_elem_of_omap. split.
  - intros H. by exists (Candidate i r).
  - intros (ev & H & Hev). by rewrite <- (event_candidate_Some _ _ _ Hev).
Qed.

(** The reports of a source are no duplicate reports. *)
Lemma reader_events_reports (reader : csv_reader) (err : verror) :
  Report err ∈ reader_events reader -> not_D (error err).
Proof.
  unfold reader_events.
  destruct (map _ (default [] (fieldnames reader))) as [|h fs].
  { intros [= ->]%list_elem_of_singleton. done. }
  destruct (List.filter _ _) as [|k ks].
  - intros (p & Hp & _)%list_elem_of_fmap. unfold reader_event in Hp.
    destruct (all_empty p.2); done.
  - intros [= ->]%list_elem_of_singleton. done.
Qed.

Lemma json_events_reports (f : json_file) (err : verror) :
  Report err ∈ json_events f -> not_D (error err).
Proof.
  assert (forall l, Report err ∈ map line_event l -> not_D (error err)) as Hl.
  { intros l (p & Hp & _)%list_elem_of_fmap. unfold line_event in Hp.
    destruct p.2; try done; injection Hp as ->; done. }
  assert (forall o : option string, Report err ∈
     match o with
     | Some e => [Report {| row := 0; context := EmptyString;
                            error := "Error reading file line-by-line: " +:+ e |}]
     | None => []
     end -> not_D (error err)) as He.
  { intros [e|] H; [|by apply elem_of_nil in H].
    apply list_elem_of_singleton in H. injection H as ->. done. }
  unfold json_events. destruct (top f).
  - intros (p & Hp & _)%list_elem_of_fmap. unfold item_event in Hp.
    destruct p.2; try done; injection Hp as ->; done.
  - intros [H|H]%elem_of_app; eauto.
  - intros [H|H]%elem_of_app; eauto.
Qed.

Lemma source_events_reports (DictReader : list string -> csv_reader)
    (src : source) (err : verror) :
  Report err ∈ source_events DictReader src -> not_D (error err).
Proof.
  destruct src as [[e|reader]|f|text]; cbn [source_events].
  - intros [= ->]%list_elem_of_singleton. done.
  - apply reader_events_reports.
  - apply json_events_reports.
  - destruct (PyStr.nonblank_lines text).
    + intros [= ->]%list_elem_of_singleton. done.
    + apply reader_events_reports.
Qed.

(** An error with the duplicate message is the duplicate report of a
    field-valid row of the source. *)
Lemma duplicate_report_origin (DictReader : list string -> csv_reader)
    (src : source) (err : verror) :
  err ∈ result_errors (validate DictReader src) ->
  error err = duplicate_message ->
  exists i r, (i, r) ∈ source_rows DictReader src /\ field_valid r = true
              /\ err = duplicate_error i r.
Proof.
  rewrite validate_errors, run_errors. cbn [errors seen_ids vstate0 List.app].
  intros H Hmsg. apply reported_elem in H as [H|(i & r & H & Hc)].
  - apply source_events_reports in H. by apply not_D_duplicate in H.
  - apply candidate_elem in H. rewrite source_events_candidates in H.
    destruct Hc as [[Hv ->]|[Hv ->]].
    + apply (field_error_message i) in Hv. by apply not_D_duplicate in Hv.
    + by exists i, r.
Qed.

(** * Identity keys *)

Lemma stable_identity_key (r : raw_row) :
  stable r -> identity_key (row_doc r) = row_key r.
Proof.
  intros [Hs Hp]. unfold identity_key, row_doc, row_key, build_doc, doc_id_of.
  cbn [sku postCode]. by rewrite Hs, Hp.
Qed.

(** * Helper lemmas *)

Lemma accepted_app (pre post : list (nat * raw_row)) (seen : gset string) :
  exists seen', accepted_from seen (pre ++ post)
                = accepted_from seen pre ++ accepted_from seen' post.
Proof.
  revert seen. induction pre as [|[i r] pre IH]; intros seen; cbn.
  - by exists seen.
  - destruct (field_valid r && _).
    + destruct (IH ({[row_key r]} ∪ seen)) as [s' ->]. by exists s'.
    + apply IH.
Qed.

Lemma elem_of_accepted (rows : list (nat * raw_row)) (seen : gset string)
    (p : nat * raw_row) :
  p ∈ accepted_from seen rows -> p ∈ rows /\ field_valid p.2 = true.
Proof.
  intros H. split.
  - eapply elem_of_sublist; [exact H|apply accepted_sublist].
  - by apply accepted_elem in H as [H _].
Qed.

Lemma NoDup_fst_middle {A : Type} (pre post : list (nat * A)) (i : nat)
    (x y : A) :
  NoDup (map fst (pre ++ (i, x) :: post)) -> (i, y) ∉ pre ++ post.
Proof.
  rewrite map_app. cbn. intros Hnd Hin.
  apply NoDup_app in Hnd as (Hpre & Hdisj & Hpost).
  apply NoDup_cons in Hpost as [Hi Hpost].
  apply elem_of_app in Hin as [Hin|Hin].
  - apply (Hdisj i); [|apply elem_of_cons; by left].
    apply list_elem_of_fmap. by exists (i, y).
  - apply Hi. apply list_elem_of_fmap. by exists (i, y).
Qed.

Lemma source_events_split (DictReader : list string -> csv_reader)
    (src : source) (pre post : list (nat * raw_row)) (i : nat) (r : raw_row) :
  source_rows DictReader src = pre ++ (i, r) :: post ->
  exists epre epost,
    source_events DictReader src = epre ++ Candidate i r :: epost
    /\ omap event_candidate epre = pre.
Proof.
  rewrite <- source_events_candidates. intros H.
  apply omap_split in H as (k1 & x & k2 & -> & Hx & <- & _).
  apply event_candidate_Some in Hx as ->. by exists k1, k2.
Qed.

Lemma records_accepted (DictReader : list string -> csv_reader) (src : source) :
  records (validate DictReader src)
  = map (fun p => row_doc p.2) (accepted (source_rows DictReader src)).
Proof.
  by rewrite validate_records, run_docs, source_events_candidates.
Qed.

Lemma errors_reported (DictReader : list string -> csv_reader) (src : source) :
  result_errors (validate DictReader src)
  = reported_from ∅ (source_events DictReader src).
Proof. by rewrite validate_errors, run_errors. Qed.

Lemma no_duplicate_report_for_invalid (DictReader : list string -> csv_reader)
    (src : source) (i : nat) (r : raw_row) (err : verror) :
  (i, r) ∈ source_rows DictReader src ->
  field_valid r = false ->
  err ∈ result_errors (validate DictReader src) ->
  row err = i ->
  error err <> duplicate_message.
Proof.
  intros Hin Hv Herr Hrow Hmsg.
  destruct (duplicate_report_origin _ _ _ Herr Hmsg) as (i' & r' & Hin' & Hv' & ->).
  cbn in Hrow. subst i'.
  assert (r' = r) as ->
    by (eapply NoDup_fst_eq; [apply source_rows_NoDup|done..]).
  congruence.
Qed.

Lemma invalid_keeps_seen (r : raw_row) (i : nat) (st : vstate) :
  field_valid r = false ->
  seen_ids (validate_obj r i st) = seen_ids st
  /\ seen_ids (reader_row i r st) = seen_ids st.
Proof.
  intros Hv. rewrite reader_row_eq, validate_obj_eq.
  unfold field_valid in Hv. destruct (row_errs r); [done|].
  destruct (all_empty r); done.
Qed.

(** * C1 *)

(** C1 (amended): for every run over a CSV file, a JSON file or pasted
    text, the records are the records built from the accepted rows, where
    the accepted rows are the rows passing field validation whose id (the
    resolved sku, a bar, the resolved postCode) no earlier such row has;
    the accepted rows are a subsequence of the rows of the source, so the
    records are in input row order; their ids are pairwise distinct; when
    one more normalization leaves the resolved sku and postCode of the
    accepted rows unchanged, the identity keys of the records are
    pairwise distinct; and a row passing field validation whose id is the
    id of an earlier accepted row is reported with the message
    "Duplicate id within file" and is no accepted row: the records are
    those of the source without it; a row that fails field validation,
    whatever its id, is reported under its row number with its field
    errors joined by "; ", is no accepted row, and no error under its
    row number has the duplicate message. *)
Theorem C1_records_are_the_first_valid_rows
    (DictReader : list string -> csv_reader) (src : source) :
  let rows := source_rows DictReader src in
  let res := validate DictReader src in
  records res = map (fun p => row_doc p.2) (accepted rows)
  /\ sublist (accepted rows) rows
  /\ NoDup (map key_of (accepted rows))
  /\ (Forall (fun p => stable p.2) (accepted rows) ->
      NoDup (map identity_key (records res)))
  /\ (forall pre i r post,
        rows = pre ++ (i, r) :: post ->
        field_valid r = true ->
        (exists p, p ∈ accepted pre /\ key_of p = row_key r) ->
        duplicate_error i r ∈ result_errors res
        /\ error (duplicate_error i r) = duplicate_message
        /\ ((i, r) ∉ accepted rows)
        /\ records res = map (fun p => row_doc p.2) (accepted (pre ++ post)))
  /\ (forall i r,
        (i, r) ∈ rows ->
        field_valid r = false ->
        field_error i r ∈ result_errors res
        /\ row (field_error i r) = i
        /\ error (field_error i r) = PyStr.join "; " (row_errs r)
        /\ row_errs r <> []
        /\ ((i, r) ∉ accepted rows)
        /\ (forall err, err ∈ result_errors res -> row err = i ->
                        error err <> duplicate_message)).
Proof.
  cbv zeta. split; [apply records_accepted|].
  split; [apply accepted_sublist|].
  split; [apply accepted_NoDup|].
  split; [|split].
  - intros Hst. rewrite records_accepted, map_map.
    erewrite map_ext_Forall; [apply accepted_NoDup|].
    eapply Forall_impl; [exact Hst|]. intros p Hp. cbn.
    by apply stable_identity_key.
  - intros pre i r post Hrows Hv (p & Hp & Hk).
    apply elem_of_accepted in Hp as [Hp Hpv].
    assert (accepted (source_rows DictReader src) = accepted (pre ++ post))
      as Hacc.
    { rewrite Hrows. apply accepted_skip. right; right. by exists p. }
    split; [|split; [reflexivity|split]].
    + rewrite errors_reported.
      destruct (source_events_split _ _ _ _ _ _ Hrows) as (epre & epost & -> & Hpre).
      apply reported_duplicate; [done|]. right. exists p. by rewrite Hpre.
    + rewrite Hacc. intros Hin. apply elem_of_accepted in Hin as [Hin _].
      pose proof (source_rows_NoDup DictReader src) as Hnd. rewrite Hrows in Hnd.
      by apply NoDup_fst_middle with (y := r) in Hnd.
    + by rewrite records_accepted, Hacc.
  - intros i r Hin Hv.
    split.
    { destruct (list_elem_of_split _ _ Hin) as (pre & post & Hrows).
      rewrite errors_reported.
      destruct (source_events_split _ _ _ _ _ _ Hrows)
        as (epre & epost & -> & _).
      by apply reported_field_error. }
    split; [reflexivity|]. split; [reflexivity|].
    split; [unfold field_valid in Hv; by destruct (row_errs r)|].
    split.
    + intros Hacc. apply elem_of_accepted in Hacc as [_ Hacc].
      cbn [snd] in Hacc. congruence.
    + intros err Herr Hrow.
      by eapply no_duplicate_report_for_invalid.
Qed.

(** The theorem at a run with a repeated row: the second row is the
    duplicate, the third a new record. *)
Lemma C1_witness_three_rows :
  let src := example_csv [example_row "A1" "2000" "10";
                          example_row "A1" "2000" "12.5";
                          example_row "B2" "3000" "7"] in
  map identity_key (records (validate no_lines src)) = ["A1|2000"; "B2|3000"]
  /\ NoDup (map identity_key (records (validate no_lines src)))
  /\ duplicate_error 3 (example_row "A1" "2000" "12.5")
       ∈ result_errors (validate no_lines src).
Proof.
  cbv zeta.
  pose proof (C1_records_are_the_first_valid_rows no_lines
    (example_csv [example_row "A1" "2000" "10";
                  example_row "A1" "2000" "12.5";
                  example_row "B2" "3000" "7"])) as H.
  cbv zeta in H. destruct H as (_ & _ & _ & Hid & Hdup & _).
  split; [vm_compute; reflexivity|]. split.
  - apply Hid.
    assert (accepted (source_rows no_lines
              (example_csv [example_row "A1" "2000" "10";
                            example_row "A1" "2000" "12.5";
                            example_row "B2" "3000" "7"]))
            = [(2%nat, example_row "A1" "2000" "10");
               (4%nat, example_row "B2" "3000" "7")]) as ->
      by (vm_compute; reflexivity).
    repeat (apply Forall_cons_2 || apply Forall_nil_2);
      split; vm_compute; reflexivity.
  - refine (proj1 (Hdup [(2%nat, example_row "A1" "2000" "10")] 3%nat
                     (example_row "A1" "2000" "12.5")
                     [(4%nat, example_row "B2" "3000" "7")] _ _ _)).
    + vm_compute; reflexivity.
    + vm_compute; reflexivity.
    + exists (2%nat, example_row "A1" "2000" "10"). split.
      * vm_compute. apply elem_of_cons. by left.
      * vm_compute; reflexivity.
Defined.

(** C1, as stated, fails: the second row has the identity key of the
    accepted first row, and is reported for its price, not as a
    duplicate. *)
Lemma C1_counterexample_invalid_row_with_accepted_key :
  let r1 := example_row "A1" "2000" "10" in
  let r2 := example_row "A1" "2000" "abc" in
  let res := validate no_lines (example_csv [r1; r2]) in
  map identity_key (records res) = ["A1|2000"]
  /\ normalize_str (PyStrV (raw_sku_of r2)) +:+ "|"
       +:+ normalize_str (PyStrV (raw_pc_of r2)) = "A1|2000"
  /\ result_errors res
     = [{| row := 3; context := "sku=A1, postCode=2000";
           error := "price not a number" |}]
  /\ ~ (exists err, err ∈ result_errors res
                    /\ error err = "Duplicate id within file").
Proof.
  cbv zeta. split; [vm_compute; reflexivity|].
  split; [vm_compute; reflexivity|].
  assert (result_errors (validate no_lines
            (example_csv [example_row "A1" "2000" "10";
                          example_row "A1" "2000" "abc"]))
          = [{| row := 3; context := "sku=A1, postCode=2000";
                error := "price not a number" |}]) as ->
    by (vm_compute; reflexivity).
  split; [reflexivity|].
  intros (err & Hin & Hmsg). apply list_elem_of_singleton in Hin. subst err.
  discriminate Hmsg.
Qed.

(** Two layers of quotes around a sku: the id of the row keeps one layer,
    the record none, and two records share an identity key. *)
Example quoted_sku_shares_identity_key :
  let q := String PyStr.dquote EmptyString in
  let r1 := example_row (q +:+ " " +:+ q +:+ "x" +:+ q +:+ " " +:+ q) "2000" "1" in
  let r2 := example_row "x" "2000" "2" in
  map identity_key (records (validate no_lines (example_csv [r1; r2])))
  = ["x|2000"; "x|2000"]
  /\ result_errors (validate no_lines (example_csv [r1; r2])) = []
  /\ row_key r1 <> row_key r2.
Proof.
  cbv zeta. split; [vm_compute; reflexivity|].
  split; [vm_compute; reflexivity|]. vm_compute. discriminate.
Qed.

(** * C9 *)

(** C9: a row failing field validation leaves the set of seen ids as it
    is and is reported with its field error, and no error under its row
    number carries the duplicate message; a later row with the same id
    that passes field validation, when no row passing field validation
    before it has that id, is accepted and its record is in the records;
    a later row with the same id that fails field validation is reported
    with its own field error, and no error under its row number carries
    the duplicate message either. *)
Theorem C9_dedup_considers_field_valid_rows_only
    (DictReader : list string -> csv_reader) (src : source)
    (pre mid post : list (nat * raw_row)) (i j : nat) (r r' : raw_row) :
  source_rows DictReader src = pre ++ (i, r) :: mid ++ (j, r') :: post ->
  field_valid r = false ->
  row_key r' = row_key r ->
  (forall st, seen_ids (validate_obj r i st) = seen_ids st
              /\ seen_ids (reader_row i r st) = seen_ids st)
  /\ field_error i r ∈ result_errors (validate DictReader src)
  /\ (forall err, err ∈ result_errors (validate DictReader src) ->
                  row err = i -> error err <> duplicate_message)
  /\ (field_valid r' = true ->
      (forall p, p ∈ pre ++ mid -> field_valid p.2 = true ->
                 key_of p <> row_key r') ->
      (j, r') ∈ accepted (source_rows DictReader src)
      /\ row_doc r' ∈ records (validate DictReader src))
  /\ (field_valid r' = false ->
      field_error j r' ∈ result_errors (validate DictReader src)
      /\ (forall err, err ∈ result_errors (validate DictReader src) ->
                      row err = j -> error err <> duplicate_message)).
Proof.
  intros Hrows Hv Hk.
  assert ((i, r) ∈ source_rows DictReader src) as Hi.
  { rewrite Hrows. apply elem_of_app. right. apply elem_of_cons. by left. }
  assert ((j, r') ∈ source_rows DictReader src) as Hj.
  { rewrite Hrows. apply elem_of_app. right. apply elem_of_cons. right.
    apply elem_of_app. right. apply elem_of_cons. by left. }
  split; [intros st; by apply invalid_keeps_seen|].
  split.
  { rewrite errors_reported.
    destruct (source_events_split _ _ _ _ _ _ Hrows) as (epre & epost & -> & _).
    by apply reported_field_error. }
  split; [intros err; by apply no_duplicate_report_for_invalid with (r := r)|].
  split.
  - intros Hv' Hnew.
    assert ((j, r') ∈ accepted (source_rows DictReader src)) as Hacc.
    { rewrite Hrows.
      replace (pre ++ (i, r) :: mid ++ (j, r') :: post)
        with ((pre ++ (i, r) :: mid) ++ (j, r') :: post)
        by (by rewrite <- app_assoc).
      apply accepted_first; [done|set_solver|].
      intros p [Hp|Hp]%elem_of_app Hpv.
      - apply Hnew; [|done]. apply elem_of_app. by left.
      - apply elem_of_cons in Hp as [->|Hp]; [cbn in Hpv; congruence|].
        apply Hnew; [|done]. apply elem_of_app. by right. }
    split; [done|]. rewrite records_accepted.
    apply list_elem_of_fmap. by exists (j, r').
  - intros Hv'. split.
    + rewrite errors_reported.
      assert (source_rows DictReader src
              = (pre ++ (i, r) :: mid) ++ (j, r') :: post) as Hrows'
        by (by rewrite Hrows, <- app_assoc).
      destruct (source_events_split _ _ _ _ _ _ Hrows') as (epre & epost & -> & _).
      by apply reported_field_error.
    + intros err. by apply no_duplicate_report_for_invalid with (r := r').
Qed.

(** The theorem at a run of three rows with one id: the first two fail
    field validation, the third is accepted. *)
Lemma C9_witness_invalid_then_valid :
  let bad1 := example_row "A1" "2000" "abc" in
  let bad2 := example_row "A1" "2000" "-1" in
  let good := example_row "A1" "2000" "10" in
  let res := validate no_lines (example_csv [bad1; bad2; good]) in
  (field_error 2 bad1 ∈ result_errors res
   /\ row_doc good ∈ records res)
  /\ (field_error 2 bad1 ∈ result_errors res
      /\ field_error 3 bad2 ∈ result_errors res
      /\ forall err, err ∈ result_errors res -> row err = 3%nat ->
                     error err <> duplicate_message).
Proof.
  cbv zeta. split.
  - pose proof (C9_dedup_considers_field_valid_rows_only no_lines
      (example_csv [example_row "A1" "2000" "abc";
                    example_row "A1" "2000" "-1";
                    example_row "A1" "2000" "10"])
      [] [(3%nat, example_row "A1" "2000" "-1")] []
      2%nat 4%nat (example_row "A1" "2000" "abc")
      (example_row "A1" "2000" "10")) as H.
    destruct H as (_ & He & _ & Hgood & _);
      [vm_compute; reflexivity..|].
    split; [exact He|]. apply Hgood; [vm_compute; reflexivity|].
    intros p Hp. apply list_elem_of_singleton in Hp. subst p.
    vm_compute. discriminate.
  - pose proof (C9_dedup_considers_field_valid_rows_only no_lines
      (example_csv [example_row "A1" "2000" "abc";
                    example_row "A1" "2000" "-1";
                    example_row "A1" "2000" "10"])
      [] [] [(4%nat, example_row "A1" "2000" "10")]
      2%nat 3%nat (example_row "A1" "2000" "abc")
      (example_row "A1" "2000" "-1")) as H.
    destruct H as (_ & He & _ & _ & Hbad);
      [vm_compute; reflexivity..|].
    split; [exact He|]. apply Hbad. vm_compute; reflexivity.
Defined.

(** * C2 *)

Lemma reader_loop_app (pre post : list raw_row) (idx : nat) (st : vstate) :
  reader_loop idx (pre ++ post) st
  = reader_loop (idx + length pre) post (reader_loop idx pre st).
Proof.
  revert idx st. induction pre as [|r pre IH]; intros idx st; cbn.
  - by rewrite Nat.add_0_r.
  - rewrite IH. f_equal. lia.
Qed.

Lemma all_empty_fields (r : raw_row) :
  all_empty r = true ->
  raw_sku_of r = EmptyString /\ raw_pc_of r = EmptyString
  /\ raw_price_of r = EmptyString.
Proof.
  unfold all_empty.
  destruct (raw_sku_of r), (raw_pc_of r), (raw_price_of r); cbn; done.
Qed.

(** C2: a row whose three resolved raw fields are all empty is passed
    over, as the claim says, by the loop over the rows of a CSV reader (a
    CSV file or pasted text): the state is left as it is, with no record,
    no error and no seen id added, and the next row gets the next row
    number.  The check of a JSON object lacks that case, which is the
    defect: it reports the object with the three missing-field reasons
    and adds no record. *)
Theorem C2_empty_rows_are_skipped_by_csv_readers_only (r : raw_row) :
  all_empty r = true ->
  (forall idx st, reader_row idx r st = st)
  /\ (forall idx pre post st,
        reader_loop idx (pre ++ r :: post) st
        = reader_loop (S (idx + length pre)) post (reader_loop idx pre st))
  /\ (forall idx st,
        validate_obj r idx st = add_error (empty_row_error idx) st)
  /\ (forall items,
        result_errors (validate_json
          {| top := TopArray (JObject r :: items); lines := [];
             line_read_error := None |})
        = empty_row_error 1
          :: errors (array_loop 2 items vstate0)).
Proof.
  intros He.
  assert (forall idx st, reader_row idx r st = st) as Hrow.
  { intros idx st. by rewrite reader_row_eq, He. }
  assert (forall idx st,
            validate_obj r idx st = add_error (empty_row_error idx) st) as Hobj.
  { intros idx st. rewrite validate_obj_eq.
    unfold field_error, row_errs, row_ctx.
    destruct (all_empty_fields r He) as (-> & -> & ->). reflexivity. }
  split; [exact Hrow|]. split; [|split; [exact Hobj|]].
  - intros idx pre post st. rewrite reader_loop_app. cbn [reader_loop].
    by rewrite Hrow.
  - intros items. unfold validate_json. cbn [top result_errors finish fst snd array_loop].
    rewrite Hobj, !array_loop_run, !run_errors. reflexivity.
Qed.

(** * C2: witness and counterexample *)

Lemma C2_witness_blank_row :
  let r := example_row EmptyString "  " EmptyString in
  all_empty r = true
  /\ (forall idx st, reader_row idx r st = st)
  /\ (forall idx st, validate_obj r idx st = add_error (empty_row_error idx) st).
Proof.
  cbv zeta.
  assert (all_empty (example_row EmptyString "  " EmptyString) = true) as He
    by (vm_compute; reflexivity).
  split; [exact He|].
  destruct (C2_empty_rows_are_skipped_by_csv_readers_only _ He)
    as (Hrow & _ & Hobj & _).
  split; [exact Hrow|exact Hobj].
Defined.

(** C2 fails for JSON objects, where the code departs from the rule
    that its CSV loop follows: an object whose three fields are empty is
    reported. *)
Lemma C2_counterexample_json_empty_object :
  let r := [(Some "sku", PyStrV EmptyString); (Some "postCode", PyNone);
            (Some "price", PyStrV " ")] in
  all_empty r = true
  /\ records (validate no_lines (example_json [r])) = []
  /\ result_errors (validate no_lines (example_json [r]))
     = [{| row := 1; context := "sku=, postCode=";
           error := "sku missing; postCode missing; price missing" |}].
Proof. cbv zeta. repeat split; vm_compute; reflexivity. Qed.

(** * C5 *)

Lemma lstrip_quotes (n : nat) (s : string) :
  PyStr.lstrip_with (Ascii.eqb PyStr.dquote) (quotes n +:+ s)
  = PyStr.lstrip_with (Ascii.eqb PyStr.dquote) s.
Proof. induction n as [|n IH]; [reflexivity|]. cbn. exact IH. Qed.

Lemma lstrip_quotes_only (m : nat) :
  PyStr.lstrip_with (Ascii.eqb PyStr.dquote) (quotes m) = EmptyString.
Proof. induction m as [|m IH]; [reflexivity|]. cbn. exact IH. Qed.

Lemma lstrip_first (p : ascii -> bool) (s : string) :
  (forall c, first_char s = Some c -> p c = false) ->
  PyStr.lstrip_with p s = s.
Proof.
  destruct s as [|c s]; [reflexivity|]. cbn. intros H.
  by rewrite (H c eq_refl).
Qed.

Lemma rstrip_quotes_only (m : nat) :
  PyStr.rstrip_with (Ascii.eqb PyStr.dquote) (quotes m) = EmptyString.
Proof. induction m as [|m IH]; [reflexivity|]. cbn. by rewrite IH. Qed.

Lemma rstrip_quotes (m : nat) (s : string) :
  PyStr.rstrip_with (Ascii.eqb PyStr.dquote) (s +:+ quotes m)
  = PyStr.rstrip_with (Ascii.eqb PyStr.dquote) s.
Proof.
  induction s as [|c s IH]; simpl.
  - apply rstrip_quotes_only.
  - by rewrite IH.
Qed.

Lemma rstrip_last (p : ascii -> bool) (s : string) :
  (forall c, last_char s = Some c -> p c = false) ->
  PyStr.rstrip_with p s = s.
Proof.
  induction s as [|c s IH]; [reflexivity|]. intros H.
  destruct s as [|d s].
  - cbn. by rewrite (H c eq_refl).
  - change (PyStr.rstrip_with p (String c (String d s)))
      with (match PyStr.rstrip_with p (String d s) with
            | EmptyString => if p c then EmptyString else String c EmptyString
            | r => String c r
            end).
    rewrite IH; [reflexivity|]. intros e He. apply H. exact He.
Qed.

Lemma strip_quote_layers (n m : nat) (core : string) :
  first_char core <> Some PyStr.dquote ->
  last_char core <> Some PyStr.dquote ->
  PyStr.strip_char PyStr.dquote (quotes n +:+ core +:+ quotes m) = core.
Proof.
  intros Hf Hl. unfold PyStr.strip_char, PyStr.strip_with.
  rewrite lstrip_quotes.
  destruct core as [|c core].
  - change (EmptyString +:+ quotes m) with (quotes m).
    by rewrite lstrip_quotes_only.
  - rewrite lstrip_first.
    + rewrite rstrip_quotes. apply rstrip_last.
      intros e He. apply Ascii.eqb_neq. intros <-. by apply Hl.
    + intros e He. injection He as <-. apply Ascii.eqb_neq.
      intros Heq. apply Hf. cbn [first_char]. by rewrite Heq.
Qed.

(** * C5 *)

(** C5 (amended): [normalize_str] gives the empty string for [None]; for
    a number (an int, a float or a bool) the trimmed text of the number,
    with no quote removed; for any other value whose trimmed text is a
    core between [n] leading and [m] trailing double quotes, the core
    neither beginning nor ending with a double quote, the trimmed core:
    every layer of surrounding quotes is removed, not one. *)
Theorem C5_normalize_str_strips_every_quote_layer :
  normalize_str PyNone = EmptyString
  /\ (forall v, is_number v = true -> normalize_str v = PyStr.strip (py_str v))
  /\ (forall v n m core,
        v <> PyNone -> is_number v = false ->
        PyStr.strip (py_str v) = quotes n +:+ core +:+ quotes m ->
        first_char core <> Some PyStr.dquote ->
        last_char core <> Some PyStr.dquote ->
        normalize_str v = PyStr.strip core).
Proof.
  split; [reflexivity|]. split.
  - intros v Hn. destruct v; try discriminate Hn; reflexivity.
  - intros v n m core Hv Hn Hs Hf Hl.
    assert (normalize_str v
            = PyStr.strip (PyStr.strip_char PyStr.dquote
                             (PyStr.strip (py_str v)))) as ->.
    { destruct v; try discriminate Hn; try reflexivity. congruence. }
    by rewrite Hs, strip_quote_layers.
Qed.

(** The theorem at a text with two layers of quotes. *)
Lemma C5_witness_two_layers :
  normalize_str (PyStrV (quotes 2 +:+ "x" +:+ quotes 2)) = "x".
Proof.
  refine (proj2 (proj2 C5_normalize_str_strips_every_quote_layer)
            (PyStrV (quotes 2 +:+ "x" +:+ quotes 2)) 2%nat 2%nat "x" _ _ _ _ _).
  - discriminate.
  - reflexivity.
  - vm_compute; reflexivity.
  - vm_compute; discriminate.
  - vm_compute; discriminate.
Defined.

(** C5, as stated, fails: of two layers of quotes none remains. *)
Lemma C5_counterexample_no_layer_remains :
  normalize_str (PyStrV (quotes 2 +:+ "x" +:+ quotes 2)) = "x"
  /\ normalize_str (PyStrV (quotes 2 +:+ "x" +:+ quotes 2))
     <> quotes 1 +:+ "x" +:+ quotes 1.
Proof. split; [vm_compute; reflexivity|vm_compute; discriminate]. Qed.

(** * C6 *)

Lemma lower_keys_from (m : gmap string pyval) (r : raw_row) (k : string) :
  (forall kv, kv ∈ r -> lower_key kv.1 <> k) ->
  foldl (fun m kv => <[lower_key kv.1 := kv.2]> m) m r !! k = m !! k.
Proof.
  revert m. induction r as [|kv r IH]; intros m H; [reflexivity|].
  cbn [foldl]. rewrite IH.
  - apply lookup_insert_ne. apply H. apply elem_of_cons. by left.
  - intros kv' Hkv'. apply H. apply elem_of_cons. by right.
Qed.

Lemma lower_keys_absent (r : raw_row) (k : string) :
  (forall kv, kv ∈ r -> lower_key kv.1 <> k) -> _lower_keys r !! k = None.
Proof. intros H. unfold _lower_keys. by rewrite lower_keys_from. Qed.

Lemma lower_keys_last (pre post : raw_row) (k0 : option string) (v : pyval) :
  (forall kv, kv ∈ post -> lower_key kv.1 <> lower_key k0) ->
  _lower_keys (pre ++ (k0, v) :: post) !! lower_key k0 = Some v.
Proof.
  intros H. unfold _lower_keys. rewrite foldl_app. cbn [foldl].
  rewrite lower_keys_from by done. cbn [fst snd]. apply lookup_insert_eq.
Qed.

Lemma field_from_row_sku (row : gmap string pyval) :
  field_from_row row "sku"
  = match row !! "sku" with
    | Some v => v
    | None =>
        match row !! "productcode" with
        | Some v => v
        | None =>
            match row !! "product_code" with
            | Some v => v
            | None =>
                match row !! "product id" with
                | Some v => v
                | None =>
                    match row !! "productid" with
                    | Some v => v
                    | None => PyNone
                    end
                end
            end
        end
    end.
Proof.
  unfold field_from_row.
  change (aliases_get CSV_FIELD_ALIASES "sku")
    with ["sku"; "productcode"; "productCode"; "product_code";
          "product id"; "productid"].
  cbn [first_alias].
  change (PyStr.lower "sku") with "sku".
  change (PyStr.lower "productcode") with "productcode".
  change (PyStr.lower "productCode") with "productcode".
  change (PyStr.lower "product_code") with "product_code".
  change (PyStr.lower "product id") with "product id".
  change (PyStr.lower "productid") with "productid".
  destruct (row !! "sku"); [reflexivity|].
  destruct (row !! "productcode"); reflexivity.
Qed.

(** C6 (amended): the sku of a row is looked up under the lowered,
    trimmed headers sku, productcode, product_code, "product id" and
    productid, and under no other: a row none of whose headers lowers to
    one of the five resolves to no sku, and a row with exactly one such
    header resolves to the value under it.  The header "product code"
    is none of the five. *)
Theorem C6_sku_is_resolved_under_five_headers (r : raw_row) :
  ((forall kv, kv ∈ r -> lower_key kv.1 ∉ sku_headers) ->
   field_from_row (_lower_keys r) "sku" = PyNone)
  /\ (forall pre k v post,
        r = pre ++ (k, v) :: post ->
        lower_key k ∈ sku_headers ->
        (forall kv, kv ∈ pre ++ post -> lower_key kv.1 ∉ sku_headers) ->
        field_from_row (_lower_keys r) "sku" = v)
  /\ ("product code" ∉ sku_headers)
  /\ "product id" ∈ sku_headers.
Proof.
  split; [|split; [|split]].
  - intros H. rewrite field_from_row_sku.
    rewrite !lower_keys_absent; [reflexivity|..];
      intros kv Hkv Heq; apply (H kv Hkv); rewrite Heq;
      unfold sku_headers; set_solver.
  - intros pre k v post -> Hk Hothers.
    assert (forall a, a ∈ sku_headers -> a <> lower_key k ->
              _lower_keys (pre ++ (k, v) :: post) !! a = None) as Hnone.
    { intros a Ha Hne. apply lower_keys_absent. intros kv Hkv Heq.
      apply elem_of_app in Hkv as [Hkv|Hkv].
      - apply (Hothers kv); [apply elem_of_app; by left|]. by rewrite Heq.
      - apply elem_of_cons in Hkv as [->|Hkv]; [by apply Hne|].
        apply (Hothers kv); [apply elem_of_app; by right|]. by rewrite Heq. }
    assert (_lower_keys (pre ++ (k, v) :: post) !! lower_key k = Some v)
      as Hsome.
    { apply lower_keys_last. intros kv Hkv Heq.
      apply (Hothers kv); [apply elem_of_app; by right|]. by rewrite Heq. }
    rewrite field_from_row_sku.
    unfold sku_headers in Hk, Hnone.
    repeat (apply elem_of_cons in Hk as [Hk|Hk]);
      [..|by apply elem_of_nil in Hk];
      rewrite Hk in Hsome; rewrite Hk in Hnone;
      repeat (first [rewrite Hsome; reflexivity
                    |rewrite Hnone; [|set_solver|discriminate]]).
  - unfold sku_headers. intros H.
    repeat (apply elem_of_cons in H as [H|H]; [discriminate H|]).
    by apply elem_of_nil in H.
  - unfold sku_headers. set_solver.
Qed.

(** The theorem at a row whose sku is under the header "Product ID". *)
Lemma C6_witness_product_id :
  field_from_row
    (_lower_keys [(Some "Product ID", PyStrV "A1"); (Some "Price", PyStrV "1")])
    "sku" = PyStrV "A1".
Proof.
  refine (proj1 (proj2 (C6_sku_is_resolved_under_five_headers
            [(Some "Product ID", PyStrV "A1"); (Some "Price", PyStrV "1")]))
            [] (Some "Product ID") (PyStrV "A1") [(Some "Price", PyStrV "1")]
            eq_refl _ _).
  - vm_compute. set_solver.
  - intros kv Hkv. apply list_elem_of_singleton in Hkv. subst kv.
    vm_compute. intros H.
    repeat (apply elem_of_cons in H as [H|H]; [discriminate H|]).
    by apply elem_of_nil in H.
Defined.

(** C6, as stated, fails: the header "product code" resolves to no sku,
    and a file with that header is refused for its missing sku column. *)
Lemma C6_counterexample_product_code :
  field_from_row (_lower_keys [(Some "product code", PyStrV "A1")]) "sku"
  = PyNone
  /\ result_errors (_validate_from_reader
       {| fieldnames := Some ["product code"; "postcode"; "price"];
          reader_rows := [[(Some "product code", PyStrV "A1");
                           (Some "postcode", PyStrV "2000");
                           (Some "price", PyStrV "10")]] |})
     = [{| row := 1; context := "header";
           error := "Missing required columns: sku" |}].
Proof. split; vm_compute; reflexivity. Qed.

(** * C4 *)

Lemma keep_ext (p q : ascii -> bool) (s : string) :
  (forall c, p c = q c) -> keep p s = keep q s.
Proof.
  intros H. induction s as [|c s IH]; [reflexivity|].
  cbn. by rewrite H, IH.
Qed.

Lemma keep_keep (p q : ascii -> bool) (s : string) :
  keep p (keep q s) = keep (fun c => q c && p c) s.
Proof.
  induction s as [|c s IH]; [reflexivity|]. cbn.
  destruct (q c); cbn; [|exact IH]. destruct (p c); by rewrite IH.
Qed.

Lemma remove_char_keep (c : ascii) (s : string) :
  PyStr.remove_char c s = keep (fun d => negb (Ascii.eqb c d)) s.
Proof.
  induction s as [|d s IH]; [reflexivity|]. cbn.
  destruct (Ascii.eqb c d); cbn; by rewrite IH.
Qed.

Lemma remove_chars_keep (l : list ascii) (s : string) :
  foldl (fun clean sym => PyStr.remove_char sym clean) s l
  = keep (fun c => negb (existsb (Ascii.eqb c) l)) s.
Proof.
  revert s. induction l as [|a l IH]; intros s; cbn [foldl existsb].
  - induction s as [|c s IHs]; [reflexivity|].
    change (String c s = String c (keep (fun c => negb false) s)).
    f_equal. exact IHs.
  - rewrite IH, remove_char_keep, keep_keep. apply keep_ext.
    intros c. rewrite negb_orb. by rewrite (Ascii.eqb_sym a c).
Qed.

Lemma strip_price_symbols_keep (s : string) :
  strip_price_symbols s = keep (fun c => negb (is_removed c)) s.
Proof.
  unfold strip_price_symbols.
  rewrite remove_chars_keep, remove_char_keep, keep_keep.
  apply keep_ext. intros c. unfold is_removed, removed_from_price.
  cbn [existsb]. rewrite negb_orb. by rewrite (Ascii.eqb_sym "," c).
Qed.

Lemma div_half_even_nearest (n d : Z) :
  0 < d -> nearest_hundredths n d (PyFloat.div_half_even (100 * n) d).
Proof.
  intros Hd. unfold nearest_hundredths, PyFloat.div_half_even. cbv zeta.
  pose proof (Z.div_mod (100 * n) d ltac:(lia)) as Hdiv.
  pose proof (Z.mod_pos_bound (100 * n) d Hd) as Hmod.
  destruct (Z.compare_spec (2 * ((100 * n) mod d)) d) as [Heq|Hlt|Hgt].
  - destruct (Z.even (100 * n / d)) eqn:Hev.
    + split; [lia|done].
    + split; [lia|]. intros _.
      rewrite Z.even_add, Hev. reflexivity.
  - split; lia.
  - split; lia.
Qed.

Lemma of_ratio_zero (s : bool) : PyFloat.of_ratio s 0 100 = S754_zero s.
Proof. destruct s; vm_compute; reflexivity. Qed.

Lemma of_decimal_hundredths (s : bool) (k : Z) :
  0 <= k -> PyFloat.of_decimal s k (-2) = PyFloat.of_ratio s k 100.
Proof.
  intros Hk. unfold PyFloat.of_decimal.
  destruct (Z.eqb_spec k 0) as [->|Hne]; [by rewrite of_ratio_zero|].
  change (310 <=? -2) with false. cbv iota.
  assert (0 <= Z.log2 k * 30103 / 100000) as Hlog.
  { apply Z.div_pos; [|lia]. pose proof (Z.log2_nonneg k). lia. }
  unfold PyFloat.digits10_ub.
  destruct (Z.leb_spec (-2 + (Z.log2 k * 30103 / 100000 + 2)) (-330));
    [lia|].
  reflexivity.
Qed.

(** [round(x, 2)] rounds to two decimal places. *)
Lemma round2_rounded2 (x : spec_float) : rounded2 x (PyFloat.round2 x).
Proof.
  destruct x as [s|s| |s m e]; try reflexivity.
  unfold rounded2, PyFloat.round2.
  destruct (Z.leb_spec 0 e) as [He|He]; [reflexivity|].
  exists (PyFloat.div_half_even (Z.pos m * 100) (2 ^ (- e))).
  assert (0 < 2 ^ (- e)) as Hpow by (apply Z.pow_pos_nonneg; lia).
  split.
  - rewrite (Z.mul_comm (Z.pos m) 100). by apply div_half_even_nearest.
  - rewrite of_decimal_hundredths; [reflexivity|].
    pose proof (div_half_even_nearest (Z.pos m) _ Hpow) as [Hn _].
    rewrite (Z.mul_comm 100) in Hn.
    destruct (Z.le_gt_cases 0
                (PyFloat.div_half_even (Z.pos m * 100) (2 ^ (- e))));
      [done|nia].
Qed.

(** C4: with [s] the normalized input and [clean] what is left of [s]
    when every comma, dollar, euro and pound sign, every letter A, U, D,
    a, u, d and every space is removed, [normalize_price] fails exactly
    when [s] is empty, or [clean] is no number for [float], or the number
    is negative, infinite or NaN; otherwise it succeeds with an empty
    reason and the number rounded to two decimal places: the float that
    the decimal [k / 100] reads as, for the integer [k] nearest to a
    hundred times the number, the even one on a tie (a number with no
    fractional bit is returned as it is). *)
Theorem C4_normalize_price_fails_exactly (p : string) :
  let s := normalize_str (PyStrV p) in
  let clean := keep (fun c => negb (is_removed c)) s in
  strip_price_symbols s = clean
  /\ ((normalize_price p).1.1 = false
      <-> s = EmptyString
          \/ PyFloat.of_string clean = None
          \/ exists val, PyFloat.of_string clean = Some val
               /\ (PyFloat.ltb_zero val = true \/ PyFloat.isinf val = true
                   \/ PyFloat.isnan val = true))
  /\ (forall val,
        s <> EmptyString ->
        PyFloat.of_string clean = Some val ->
        PyFloat.ltb_zero val = false ->
        PyFloat.isinf val = false ->
        PyFloat.isnan val = false ->
        exists r, normalize_price p = (true, r, EmptyString)
                  /\ rounded2 val r)
  /\ is_removed PyStr.euro = true
  /\ PyStr.code PyStr.euro = 8364%N.
Proof.
  cbv zeta. split; [apply strip_price_symbols_keep|].
  match goal with
  | |- ?B /\ ?C /\ _ =>
      cut (B /\ C);
      [intros [HB HC]; split; [exact HB|split; [exact HC|split; reflexivity]]|]
  end.
  unfold normalize_price. rewrite strip_price_symbols_keep.
  destruct (String.eqb_spec (normalize_str (PyStrV p)) EmptyString) as [He|He].
  { split; [split; [by left|reflexivity]|]. intros val Hne. done. }
  destruct (PyFloat.of_string _) as [val|] eqn:Hval.
  2:{ split; [split; [by right; left|reflexivity]|]. intros val _ Hv. done. }
  destruct (PyFloat.ltb_zero val) eqn:Hneg.
  { split.
    - split; [|reflexivity]. intros _. right; right. exists val. auto.
    - intros v _ [= <-] Hn. congruence. }
  destruct (PyFloat.isinf val) eqn:Hinf.
  { split.
    - split; [|reflexivity]. intros _. right; right. exists val. auto.
    - intros v _ [= <-] _ Hi. congruence. }
  destruct (PyFloat.isnan val) eqn:Hnan.
  { split.
    - split; [|reflexivity]. intros _. right; right. exists val. auto.
    - intros v _ [= <-] _ _ Hn. congruence. }
  cbn [orb fst snd]. split.
  - split; [discriminate|].
    intros [H|[H|(v & [= <-] & [H|[H|H]])]]; congruence.
  - intros v _ [= <-] _ _ _. exists (PyFloat.round2 val).
    split; [reflexivity|apply round2_rounded2].
Qed.

(** The theorem at a price with a currency sign, a thousands separator
    and the letters AUD; a price in euros is read like one in dollars. *)
Lemma C4_witness_dollar_price :
  exists r,
    normalize_price "$1,234.565 AUD" = (true, r, EmptyString)
    /\ PyFloat.repr r = "1234.57"
    /\ normalize_price (String PyStr.euro "19.99")
       = normalize_price "$19.99"
    /\ PyFloat.repr (normalize_price (String PyStr.euro "19.99")).1.2
       = "19.99".
Proof.
  edestruct (proj1 (proj2 (proj2
               (C4_normalize_price_fails_exactly "$1,234.565 AUD"))))
    as (r & Hr & _).
  - vm_compute; discriminate.
  - vm_compute; reflexivity.
  - vm_compute; reflexivity.
  - vm_compute; reflexivity.
  - vm_compute; reflexivity.
  - exists r. split; [exact Hr|]. split; [|split; vm_compute; reflexivity].
    vm_compute in Hr. injection Hr as <-. vm_compute; reflexivity.
Defined.

(** * The writer monad *)

Lemma all_open_app (e : env) (f1 f2 : list written) :
  all_open e (f1 ++ f2) = all_open e f1 && all_open e f2.
Proof. apply forallb_app. Qed.

Lemma opened_all (e : env) (files : list written) :
  all_open e files = true -> opened e files = files.
Proof.
  induction files as [|f files IH]; [reflexivity|].
  cbn [all_open forallb opened]. intros [Hf H]%andb_true_iff.
  rewrite Hf. f_equal. by apply IH.
Qed.

Lemma opened_app (e : env) (f1 f2 : list written) :
  opened e (f1 ++ f2)
  = if all_open e f1 then f1 ++ opened e f2 else opened e f1.
Proof.
  induction f1 as [|f f1 IH]; [reflexivity|].
  cbn [List.app opened all_open forallb].
  destruct (can_open e f); [|reflexivity].
  cbn [andb]. rewrite IH. change (forallb (can_open e) f1) with (all_open e f1).
  by destruct (all_open e f1).
Qed.

Lemma opened_Forall (P : written -> Prop) (e : env) (files : list written) :
  Forall P files -> Forall P (opened e files).
Proof.
  induction 1 as [|f files Hf H IH]; cbn [opened]; [constructor|].
  destruct (can_open e f); by constructor.
Qed.

Lemma writes_ret (e : env) : writes e (ret tt) [].
Proof. intros w. unfold ret. cbn. by rewrite app_nil_r. Qed.

Lemma writes_seq (e : env) (m1 m2 : io unit) (f1 f2 : list written) :
  writes e m1 f1 -> writes e m2 f2 -> writes e (m1 ;;; m2) (f1 ++ f2).
Proof.
  intros H1 H2 w. unfold bind. rewrite H1, opened_app, all_open_app.
  destruct (all_open e f1) eqn:Ha; [|reflexivity].
  rewrite (opened_all e f1 Ha). cbv beta iota. rewrite H2. cbn [andb].
  by rewrite app_assoc.
Qed.

Lemma writes_when (e : env) (b : bool) (m : io unit) (files : list written) :
  writes e m files -> writes e (io_when b m) (if b then files else []).
Proof. destruct b; [done|]. intros _. apply writes_ret. Qed.

Lemma writes_for {A : Type} (e : env) (l : list A) (body : A -> io unit)
    (F : A -> list written) :
  (forall x, writes e (body x) (F x)) ->
  writes e (io_for l body) (flat_map F l).
Proof.
  intros H. induction l as [|x l IH]; cbn [io_for flat_map];
    [apply writes_ret|by apply writes_seq].
Qed.

Lemma render_path_renders (self : app) (base batch group ts ext : string)
    (w : list written) :
  renders self ->
  _render_path self base batch group ts ext w
  = (w, Some (rendered self base batch group ts ext)).
Proof.
  intros H. unfold _render_path, rendered, lift.
  specialize (H {| pv_base := base; pv_batch := batch;
                   pv_group := or_str group "all"; pv_ts := ts;
                   pv_ext := PyStr.lstrip_char "." ext |}).
  by destruct (filename_pattern_var self _).
Qed.

Lemma writes_render_write (self : app) (e : env)
    (dir base batch group ts ext : string) (b : content) :
  renders self ->
  writes e (path <- _render_path self base batch group ts ext ;;
            write_file e {| folder := dir; name := path; body := b |})
    [{| folder := dir; name := rendered self base batch group ts ext;
        body := b |}].
Proof.
  intros H w. unfold bind. rewrite render_path_renders by done.
  unfold write_file, all_open, can_open.
  cbn [opened forallb can_open folder name]. unfold can_open.
  cbn [folder name].
  destruct (opens e dir _); [reflexivity|by rewrite app_nil_r].
Qed.

Lemma write_pair (self : app) (e : env) (dir base batch group ts : string)
    (b1 b2 : content) :
  renders self ->
  writes e
    (io_when (export_csv_var self)
       (path <- _render_path self base batch group ts "csv" ;;
        write_file e {| folder := dir; name := path; body := b1 |}) ;;;
     io_when (export_json_var self)
       (path <- _render_path self base batch group ts "json" ;;
        write_file e {| folder := dir; name := path; body := b2 |}))
    ((if export_csv_var self then
        [{| folder := dir; name := rendered self base batch group ts "csv";
            body := b1 |}] else [])
     ++ (if export_json_var self then
           [{| folder := dir;
               name := rendered self base batch group ts "json";
               body := b2 |}] else [])).
Proof.
  intros H. apply writes_seq; apply writes_when;
    by apply writes_render_write.
Qed.

Lemma export_single_writes (self : app) (e : env) (dir base : string)
    (csv_rows json_rows : list out_row) :
  renders self ->
  writes e (_export_single self e dir base csv_rows json_rows)
    (single_files self e dir base csv_rows json_rows).
Proof.
  intros H. unfold _export_single, single_files. by apply write_pair.
Qed.

Lemma export_by_rows_writes (self : app) (e : env) (dir base : string)
    (csv_rows json_rows : list out_row) (k : nat) :
  renders self ->
  writes e (_export_by_rows self e dir base csv_rows json_rows k)
    (flat_map (rows_files self e dir base csv_rows json_rows k)
       (seq 0 (rows_parts (length csv_rows) k))).
Proof.
  intros H. unfold _export_by_rows.
  destruct (Nat.eqb_spec (length csv_rows) 0) as [H0|_].
  - rewrite H0. replace (rows_parts 0 k) with 0%nat; [apply writes_ret|].
    unfold rows_parts. destruct k as [|k]; [reflexivity|].
    symmetry. apply Nat.div_small. lia.
  - apply (writes_for e _ _ (rows_files self e dir base csv_rows json_rows k)).
    intros i. unfold rows_files, rows_batch. by apply write_pair.
Qed.

Lemma export_by_group_writes (self : app) (e : env) (dir base : string)
    (json_rows csv_rows : list out_row) (group_col : string) :
  renders self ->
  writes e (_export_by_group self e dir base json_rows csv_rows group_col)
    (flat_map
       (group_files self e dir base
          (fill_groups (PyStr.lower group_col) json_rows csv_rows [] []).1)
       (fill_groups (PyStr.lower group_col) json_rows csv_rows [] []).2).
Proof.
  intros Hr. unfold _export_by_group.
  destruct (fill_groups _ _ _ _ _) as [gj gc]. cbn [fst snd].
  apply (writes_for e _ _ (group_files self e dir base gj)).
  intros [gval rows]. unfold group_files. cbn [fst snd]. by apply write_pair.
Qed.

Lemma export_batches_writes (e : env) (self : app) :
  renders self ->
  writes e
    (export_batches e self (export_folder e self) (base_name_snake self)
       (map csv_row_of (last_valid_docs self))
       (map json_row_of (last_valid_docs self)))
    (data_files e self).
Proof.
  intros Hr. unfold export_batches, data_files. cbv zeta.
  destruct (enable_batch_var self); [destruct (String.eqb _ _)|].
  - by apply export_by_rows_writes.
  - by apply export_by_group_writes.
  - by apply export_single_writes.
Qed.

(** What an export does after its guards, under a pattern that renders. *)
Lemma export_body_writes (e : env) (self : app) :
  renders self ->
  export_body e self []
  = if makedirs e (export_folder e self) then
      if all_open e (data_files e self) then
        if is_nil (last_errors self) then (data_files e self, Some true)
        else if can_open e (errors_file e self)
             then (data_files e self ++ [errors_file e self], Some true)
             else (data_files e self, Some false)
      else (opened e (data_files e self), None)
    else ([], None).
Proof.
  intros Hr. unfold export_body. cbv zeta. unfold bind at 1, lift.
  destruct (makedirs e (export_folder e self)); [|reflexivity].
  unfold bind. rewrite (export_batches_writes e self Hr []). cbn [List.app].
  destruct (all_open e (data_files e self)) eqn:Ha; [|reflexivity].
  rewrite (opened_all _ _ Ha).
  destruct (is_nil (last_errors self)); [reflexivity|].
  unfold try_write, can_open. by destruct (opens e _ _).
Qed.

Lemma pair_files_rows (c j : bool) (f1 f2 : written) :
  data_file f1 -> data_file f2 ->
  Forall data_file ((if c then [f1] else []) ++ (if j then [f2] else [])).
Proof.
  intros H1 H2. apply Forall_app. split; [destruct c|destruct j];
    by repeat constructor.
Qed.

Lemma flat_map_Forall {A : Type} (P : written -> Prop) (F : A -> list written)
    (l : list A) :
  (forall x, Forall P (F x)) -> Forall P (flat_map F l).
Proof.
  intros H. induction l as [|x l IH]; cbn [flat_map]; [constructor|].
  apply Forall_app. by split.
Qed.

Lemma data_files_rows (e : env) (self : app) :
  Forall data_file (data_files e self).
Proof.
  unfold data_files. cbv zeta.
  destruct (enable_batch_var self); [destruct (String.eqb _ _)|].
  - apply flat_map_Forall. intros i. by apply pair_files_rows.
  - apply flat_map_Forall. intros g. by apply pair_files_rows.
  - by apply pair_files_rows.
Qed.

(** * C3 *)

(** C3 (amended): when the last validation result holds an error, an
    export whose record list is empty writes no file and ends at its
    error box.  An export with at least one record, whose filename
    pattern renders, opens the files of rows of its batch mode (single,
    rows, group) one after the other.  When the export folder can be
    made and each of them opens, they are written and after them the
    file named by the base name and [_errors.csv], with the fields row,
    context, error and the errors as its rows, and the export
    completes; if the errors file does not open, a warning is shown and
    the export completes without it.  When the folder cannot be made or
    a file of rows does not open, the export raises there: the files of
    rows before that one are written and the errors file is not. *)
Theorem C3_errors_file_is_written_after_the_batches (e : env) (self : app) :
  last_errors self <> [] ->
  (last_valid_docs self = [] -> export_files e self = ([], NoValidRows))
  /\ (last_valid_docs self <> [] -> renders self ->
      export_files e self
      = (if makedirs e (export_folder e self) then
           if all_open e (data_files e self) then
             if can_open e (errors_file e self)
             then (data_files e self ++ [errors_file e self], Completed)
             else (data_files e self, CompletedWithWarning)
           else (opened e (data_files e self), Raised)
         else ([], Raised))
      /\ Forall data_file (data_files e self)
      /\ ((export_files e self).2 = Raised ->
          errors_file e self ∉ (export_files e self).1))
  /\ name (errors_file e self) = base_name_snake self +:+ "_errors.csv"
  /\ body (errors_file e self)
     = ErrorRows ["row"; "context"; "error"] (last_errors self).
Proof.
  intros He. split; [|split; [|split; reflexivity]].
  - intros Hd. unfold export_files.
    destruct (last_errors self) as [|err errs] eqn:Herrs; [done|].
    rewrite Hd. cbn [is_nil andb]. by rewrite Hd, Herrs.
  - intros Hd Hr.
    assert (export_files e self
            = (if makedirs e (export_folder e self) then
                 if all_open e (data_files e self) then
                   if can_open e (errors_file e self)
                   then (data_files e self ++ [errors_file e self], Completed)
                   else (data_files e self, CompletedWithWarning)
                 else (opened e (data_files e self), Raised)
               else ([], Raised))) as Heq.
    { unfold export_files.
      destruct (last_valid_docs self) as [|d ds] eqn:Hdocs; [done|].
      cbn [is_nil andb]. rewrite Hdocs. cbn [is_nil andb].
      rewrite export_body_writes by done.
      destruct (last_errors self) as [|err errs] eqn:Herrs; [done|].
      cbn [is_nil].
      destruct (makedirs e _); [|reflexivity].
      destruct (all_open e _); [|reflexivity].
      by destruct (can_open e _). }
    split; [exact Heq|]. split; [apply data_files_rows|].
    rewrite Heq. intros Hraised Hin.
    assert (data_file (errors_file e self) -> False) as Hno by (cbn; done).
    destruct (makedirs e _); [|by apply elem_of_nil in Hin].
    destruct (all_open e _).
    + by destruct (can_open e _).
    + apply Hno.
      pose proof (opened_Forall data_file e _ (data_files_rows e self)) as Hall.
      rewrite Forall_forall in Hall. by apply Hall.
Qed.

(** The theorem at an export of two records and one error, in rows mode:
    under the default pattern every file opens; under a pattern that puts
    the files into a folder of their own, which does not exist, the first
    file does not open and the errors file is not written. *)
Lemma C3_witness_rows_mode :
  let docs := [example_doc "A1" "2000"; example_doc "B2" "3000"] in
  let self := example_app docs [example_error] true "rows" in
  let self' :=
    {| file_stem := Some "Freight-Matrix"; last_valid_docs := docs;
       last_errors := [example_error]; last_warnings := [];
       output_folder_var := "out";
       filename_pattern_var :=
         fun v => Some (pv_ts v +:+ "/" +:+ pv_base v +:+ "_" +:+ pv_batch v
                        +:+ "." +:+ pv_ext v);
       export_csv_var := true; export_json_var := true;
       enable_batch_var := true; batch_mode_var := "rows";
       rows_per_file_var := Some 2; group_column_var := "sku" |} in
  export_files example_env self
  = (data_files example_env self
     ++ [{| folder := "out"; name := "freight_matrix_errors.csv";
            body := ErrorRows ["row"; "context"; "error"] [example_error] |}],
     Completed)
  /\ Forall data_file (data_files example_env self)
  /\ export_files example_env self' = ([], Raised).
Proof.
  cbv zeta. split; [|split].
  - rewrite (proj1 (proj1 (proj2 (C3_errors_file_is_written_after_the_batches
               example_env
               (example_app [example_doc "A1" "2000"; example_doc "B2" "3000"]
                            [example_error] true "rows")
               ltac:(discriminate)))
               ltac:(discriminate) (fun v => ltac:(discriminate)))).
    vm_compute; reflexivity.
  - apply data_files_rows.
  - match goal with
    | |- export_files example_env ?a = _ =>
        rewrite (proj1 (proj1 (proj2
                   (C3_errors_file_is_written_after_the_batches example_env a
                      ltac:(discriminate)))
                   ltac:(discriminate) (fun v => ltac:(discriminate))))
    end.
    vm_compute; reflexivity.
Defined.

(** C3, as stated, fails: with an error and no record, nothing is
    written. *)
Lemma C3_counterexample_no_record_no_file :
  last_errors (example_app [] [example_error] false "rows") <> []
  /\ export_files example_env (example_app [] [example_error] false "rows")
     = ([], NoValidRows)
  /\ export_files example_env (example_app [] [example_error] true "rows")
     = ([], NoValidRows)
  /\ export_files example_env (example_app [] [example_error] true "group")
     = ([], NoValidRows).
Proof. split; [discriminate|]. repeat split; vm_compute; reflexivity. Qed.

(** * C10 *)

Lemma lstrip_all (p : ascii -> bool) (s : string) :
  PyStr.forallb_str p s = true -> PyStr.lstrip_with p s = EmptyString.
Proof.
  induction s as [|c s IH]; [reflexivity|]. cbn.
  destruct (p c); [exact IH|discriminate].
Qed.

(** C10: a record whose postCode is made of zeros only is written to a
    CSV file with an empty postCode, and to a JSON file with its postCode
    as it is; both rows keep the sku and the price. *)
Theorem C10_all_zero_postcode_is_emptied_in_csv (d : doc) :
  PyStr.forallb_str (Ascii.eqb "0") (postCode d) = true ->
  out_postCode (csv_row_of d) = EmptyString
  /\ out_postCode (json_row_of d) = postCode d
  /\ out_sku (csv_row_of d) = sku d /\ out_sku (json_row_of d) = sku d
  /\ out_price (csv_row_of d) = price d /\ out_price (json_row_of d) = price d.
Proof.
  intros H. repeat split. unfold csv_row_of. cbn [out_postCode].
  destruct (PyStr.truthy (postCode d)); [|reflexivity].
  by apply lstrip_all.
Qed.

(** The theorem at the record of the row A1, 0000, 5: the row is valid,
    and the exported CSV file holds an empty postCode. *)
Lemma C10_witness_postcode_0000 :
  let res := validate no_lines (example_csv [example_row "A1" "0000" "5"]) in
  map postCode (records res) = ["0000"]
  /\ map (fun d => out_postCode (csv_row_of d)) (records res) = [EmptyString]
  /\ map (fun d => out_postCode (json_row_of d)) (records res) = ["0000"]
  /\ out_postCode (csv_row_of (example_doc "A1" "0000")) = EmptyString.
Proof.
  cbv zeta. split; [vm_compute; reflexivity|].
  split; [vm_compute; reflexivity|]. split; [vm_compute; reflexivity|].
  apply (C10_all_zero_postcode_is_emptied_in_csv (example_doc "A1" "0000")).
  reflexivity.
Defined.

(** * Batches of rows *)

Lemma rows_parts_bounds (n k : nat) :
  (1 <= n)%nat -> (1 <= k)%nat ->
  ((rows_parts n k - 1) * k < n /\ n <= rows_parts n k * k)%nat.
Proof.
  intros Hn Hk. unfold rows_parts.
  pose proof (Nat.div_mod_eq (n + k - 1) k) as Hdm.
  pose proof (Nat.mod_upper_bound (n + k - 1) k ltac:(lia)) as Hm.
  nia.
Qed.






(** * C7 *)


(** * Groups *)

Section Groups.
Context {A : Type}.
Implicit Types (gs acc : list (string * list A)) (pairs : list (string * A)).

Lemma group_append_keys g (x : A) gs :
  map fst (group_append g x gs)
  = if bool_decide (g ∈ map fst gs) then map fst gs else map fst gs ++ [g].
Proof.
  induction gs as [|[k xs] gs IH]; cbn [group_append map fst].
  - by rewrite bool_decide_eq_false_2 by apply not_elem_of_nil.
  - destruct (String.eqb_spec k g) as [->|Hne]; cbn [map fst].
    + rewrite bool_decide_eq_true_2; [done|]. apply elem_of_cons. by left.
    + rewrite IH. destruct (bool_decide (g ∈ map fst gs)) eqn:Hd.
      * apply bool_decide_eq_true in Hd.
        rewrite bool_decide_eq_true_2; [done|]. apply elem_of_cons. by right.
      * apply bool_decide_eq_false in Hd.
        rewrite bool_decide_eq_false_2; [done|].
        intros [?|?]%elem_of_cons; congruence.
Qed.

Lemma group_append_NoDup g (x : A) gs :
  NoDup (map fst gs) -> NoDup (map fst (group_append g x gs)).
Proof.
  intros H. rewrite group_append_keys.
  destruct (bool_decide (g ∈ map fst gs)) eqn:Hd; [done|].
  apply bool_decide_eq_false in Hd.
  apply NoDup_app. split; [done|]. split; [|apply NoDup_singleton].
  intros k Hk ->%list_elem_of_singleton. done.
Qed.

Lemma group_append_lookup g g' (x : A) gs :
  group_lookup g (group_append g' x gs)
  = if String.eqb g' g then group_lookup g gs ++ [x] else group_lookup g gs.
Proof.
  induction gs as [|[k xs] gs IH]; cbn [group_append group_lookup].
  - destruct (String.eqb g' g); reflexivity.
  - destruct (String.eqb_spec k g') as [->|Hne]; cbn [group_lookup].
    + destruct (String.eqb g' g); reflexivity.
    + destruct (String.eqb_spec k g) as [->|Hne'].
      * destruct (String.eqb_spec g' g) as [->|_]; [done|reflexivity].
      * exact IH.
Qed.

Lemma group_append_concat g (x : A) gs :
  concat (map snd (group_append g x gs)) ≡ₚ concat (map snd gs) ++ [x].
Proof.
  induction gs as [|[k xs] gs IH]; cbn [group_append map snd concat].
  - reflexivity.
  - destruct (String.eqb k g); cbn [map snd concat].
    + rewrite <- !app_assoc. apply Permutation_app_head.
      apply Permutation_app_comm.
    + rewrite IH. by rewrite app_assoc.
Qed.

Lemma group_append_nonempty g (x : A) gs :
  Forall (fun gx => gx.2 <> []) gs ->
  Forall (fun gx => gx.2 <> []) (group_append g x gs).
Proof.
  induction gs as [|[k xs] gs IH]; cbn [group_append]; intros H.
  - apply Forall_singleton. done.
  - apply Forall_cons in H as [Hx H]. destruct (String.eqb k g).
    + apply Forall_cons. split; [|done]. cbn. by destruct xs.
    + apply Forall_cons. split; [done|]. by apply IH.
Qed.

Lemma grouped_NoDup pairs acc :
  NoDup (map fst acc) -> NoDup (map fst (grouped pairs acc)).
Proof.
  revert acc. induction pairs as [|p pairs IH]; intros acc H; [done|].
  apply IH. by apply group_append_NoDup.
Qed.

Lemma grouped_lookup g pairs acc :
  group_lookup g (grouped pairs acc) = group_lookup g acc ++ members g pairs.
Proof.
  revert acc. induction pairs as [|p pairs IH]; intros acc.
  - unfold members. cbn. by rewrite app_nil_r.
  - cbn [grouped foldl]. fold (grouped pairs (group_append p.1 p.2 acc)).
    rewrite IH, group_append_lookup. unfold members. cbn [List.filter].
    destruct (String.eqb p.1 g); [|reflexivity].
    cbn [map]. by rewrite <- app_assoc.
Qed.

Lemma grouped_concat pairs acc :
  concat (map snd (grouped pairs acc)) ≡ₚ concat (map snd acc) ++ map snd pairs.
Proof.
  revert acc. induction pairs as [|p pairs IH]; intros acc.
  - cbn. by rewrite app_nil_r.
  - cbn [grouped foldl]. fold (grouped pairs (group_append p.1 p.2 acc)).
    rewrite IH, group_append_concat. cbn [map]. by rewrite <- app_assoc.
Qed.

Lemma grouped_nonempty pairs acc :
  Forall (fun gx => gx.2 <> []) acc ->
  Forall (fun gx => gx.2 <> []) (grouped pairs acc).
Proof.
  revert acc. induction pairs as [|p pairs IH]; intros acc H; [done|].
  apply IH. by apply group_append_nonempty.
Qed.

Lemma group_lookup_entry g (xs : list A) gs :
  NoDup (map fst gs) -> (g, xs) ∈ gs -> group_lookup g gs = xs.
Proof.
  induction gs as [|[k ys] gs IH]; intros Hnd Hin.
  - by apply elem_of_nil in Hin.
  - cbn [map fst] in Hnd. apply NoDup_cons in Hnd as [Hk Hnd].
    cbn [group_lookup]. apply elem_of_cons in Hin as [[= -> ->]|Hin].
    + by rewrite String.eqb_refl.
    + destruct (String.eqb_spec k g) as [->|_]; [|by apply IH].
      exfalso. apply Hk. apply list_elem_of_fmap. by exists (g, xs).
Qed.

End Groups.

Lemma grouped_keys {A B : Type} (pairs1 : list (string * A))
    (pairs2 : list (string * B)) acc1 acc2 :
  map fst pairs1 = map fst pairs2 -> map fst acc1 = map fst acc2 ->
  map fst (grouped pairs1 acc1) = map fst (grouped pairs2 acc2).
Proof.
  revert pairs2 acc1 acc2.
  induction pairs1 as [|p1 pairs1 IH]; intros [|p2 pairs2] acc1 acc2 Hp Ha;
    try discriminate Hp; [done|].
  injection Hp as Hg Hp. cbn [grouped foldl]. apply IH; [done|].
  by rewrite !group_append_keys, Hg, Ha.
Qed.

Lemma fill_groups_grouped (key : string) (js cs : list out_row)
    (gj gc : list (string * list out_row)) :
  fill_groups key js cs gj gc
  = (grouped (json_pairs key js cs) gj, grouped (csv_pairs key js cs) gc).
Proof.
  revert cs gj gc. induction js as [|j js IH]; intros [|c cs] gj gc;
    try reflexivity.
  cbn [fill_groups]. by rewrite IH.
Qed.

Lemma json_pairs_items (key : string) (js cs : list out_row) :
  length js = length cs -> map snd (json_pairs key js cs) = js.
Proof.
  revert cs. induction js as [|j js IH]; intros [|c cs] H;
    try discriminate H; [reflexivity|].
  injection H as H. cbn. by rewrite <- (IH cs H) at 2.
Qed.

Lemma csv_pairs_items (key : string) (js cs : list out_row) :
  length js = length cs -> map snd (csv_pairs key js cs) = cs.
Proof.
  revert cs. induction js as [|j js IH]; intros [|c cs] H;
    try discriminate H; [reflexivity|].
  injection H as H. cbn. by rewrite <- (IH cs H) at 2.
Qed.

Lemma pairs_same_groups (key : string) (js cs : list out_row) :
  map fst (json_pairs key js cs) = map fst (csv_pairs key js cs).
Proof.
  unfold json_pairs, csv_pairs. rewrite !map_map. reflexivity.
Qed.

Lemma members_json (key g : string) (js cs : list out_row) :
  length js = length cs ->
  members g (json_pairs key js cs)
  = List.filter (fun j => String.eqb (group_of key j) g) js.
Proof.
  revert cs. induction js as [|j js IH]; intros [|c cs] H;
    try discriminate H; [reflexivity|].
  injection H as H. unfold members in *. cbn [json_pairs zip zip_with map List.filter fst snd].
  specialize (IH cs H). unfold json_pairs in IH.
  destruct (String.eqb (group_of key j) g); cbn [map snd]; by rewrite IH.
Qed.

(** * The sanitizer *)

Lemma take_str_length (n : nat) (s : string) :
  String.length (PyStr.take_str n s) = Nat.min n (String.length s).
Proof.
  revert s. induction n as [|n IH]; intros [|c s]; cbn; try reflexivity.
  by rewrite IH.
Qed.

Lemma take_str_forall (p : ascii -> bool) (n : nat) (s : string) :
  PyStr.forallb_str p s = true -> PyStr.forallb_str p (PyStr.take_str n s) = true.
Proof.
  revert s. induction n as [|n IH]; intros [|c s]; cbn; try reflexivity.
  intros [Hc Hs]%andb_true_iff. by rewrite Hc, IH.
Qed.

Lemma map_str_length (f : ascii -> ascii) (s : string) :
  String.length (PyStr.map_str f s) = String.length s.
Proof. induction s as [|c s IH]; cbn; [reflexivity|by rewrite IH]. Qed.

Lemma sanitize_char_kept (c : ascii) :
  kept_char (if kept_char c then c else "_"%char) = true.
Proof. destruct (kept_char c) eqn:H; [exact H|reflexivity]. Qed.

Lemma sanitize_kept (s : string) :
  PyStr.forallb_str kept_char (_sanitize_group s) = true.
Proof.
  unfold _sanitize_group. fold kept_char.
  destruct (PyStr.truthy _); [|reflexivity].
  apply take_str_forall. induction s as [|c s IH]; [reflexivity|].
  cbn [PyStr.map_str PyStr.forallb_str].
  change (PyStr.isalnum_char c || Ascii.eqb c "-" || Ascii.eqb c "_"
          || Ascii.eqb c ".") with (kept_char c).
  by rewrite sanitize_char_kept, IH.
Qed.

Lemma sanitize_length (s : string) :
  (1 <= String.length (_sanitize_group s) <= 80)%nat.
Proof.
  unfold _sanitize_group.
  destruct s as [|c s]; [cbn; lia|].
  cbn [PyStr.map_str PyStr.truthy]. rewrite take_str_length.
  cbn [String.length]. lia.
Qed.

Lemma sanitize_fixed (s : string) :
  PyStr.forallb_str kept_char s = true ->
  (1 <= String.length s <= 80)%nat ->
  _sanitize_group s = s.
Proof.
  intros Hk Hl. unfold _sanitize_group. fold kept_char.
  assert (PyStr.map_str (fun c => if kept_char c then c else "_"%char) s = s)
    as Hmap.
  { clear Hl. induction s as [|c s IH]; [reflexivity|].
    cbn in Hk. apply andb_true_iff in Hk as [Hc Hs].
    cbn [PyStr.map_str]. by rewrite Hc, IH. }
  change (fun c => if PyStr.isalnum_char c || Ascii.eqb c "-"
                      || Ascii.eqb c "_" || Ascii.eqb c "."
                   then c else "_"%char)
    with (fun c => if kept_char c then c else "_"%char).
  rewrite Hmap. destruct s as [|c s]; [cbn in Hl; lia|].
  cbn [PyStr.truthy]. clear Hk Hmap. revert Hl.
  generalize (String c s). intros t Ht.
  assert (forall n u, (String.length u <= n)%nat -> PyStr.take_str n u = u)
    as Htake.
  { induction n as [|n IH]; intros [|d u] Hu; cbn in *; try reflexivity;
      [lia|]. rewrite IH; [done|lia]. }
  apply Htake. lia.
Qed.

Lemma group_of_nonempty (key : string) (j : out_row) :
  group_of key j <> EmptyString.
Proof.
  unfold group_of, or_str.
  destruct (PyStr.strip _) as [|c s]; cbn; discriminate.
Qed.

Lemma export_by_group_files (self : app) (e : env) (dir base : string)
    (json_rows csv_rows : list out_row) (group_col : string) :
  renders self ->
  let files :=
    flat_map
      (group_files self e dir base
         (fill_groups (PyStr.lower group_col) json_rows csv_rows [] []).1)
      (fill_groups (PyStr.lower group_col) json_rows csv_rows [] []).2 in
  _export_by_group self e dir base json_rows csv_rows group_col []
  = (opened e files, if all_open e files then Some tt else None).
Proof. intros Hr. exact (export_by_group_writes _ _ _ _ _ _ _ Hr []). Qed.


(** * Group values and files on disk *)

Lemma lower_char_not_C (c : ascii) : PyStr.lower_char c <> "C"%char.
Proof.
  destruct c as [[|] [|] [|] [|] [|] [|] [|] [|]]; vm_compute; discriminate.
Qed.

Lemma lower_not_postCode (s : string) : PyStr.lower s <> "postCode".
Proof.
  destruct s as [|c1 [|c2 [|c3 [|c4 [|c5 s]]]]]; cbn [PyStr.lower];
    try discriminate.
  intros [= _ _ _ _ H _]. by apply lower_char_not_C in H.
Qed.

Lemma group_of_unknown (col : string) (j : out_row) :
  PyStr.lower col ∉ group_columns -> group_of (PyStr.lower col) j = "UNK".
Proof.
  intros H. pose proof (lower_not_postCode col) as Hp.
  unfold group_of, key_for_json, out_get_default, out_get.
  repeat match goal with
         | |- context [String.eqb (PyStr.lower col) ?x] =>
             destruct (String.eqb_spec (PyStr.lower col) x) as [Heq|_];
             [exfalso; first [by apply Hp
                             |apply H; rewrite Heq; unfold group_columns;
                              set_solver]|]
         end.
  reflexivity.
Qed.

Lemma group_of_blank_postcode (key : string) (j : out_row) :
  key ∈ ["postcode"; "post_code"; "post code"] ->
  PyStr.strip (out_postCode j) = EmptyString ->
  group_of key j = "UNK".
Proof.
  intros Hk Hs. unfold group_of, key_for_json.
  assert (String.eqb key "postcode" || String.eqb key "post_code"
          || String.eqb key "post code" = true) as ->.
  { repeat (apply elem_of_cons in Hk as [->|Hk]; [reflexivity|]).
    by apply elem_of_nil in Hk. }
  unfold out_get_default, out_get, or_unk.
  cbn [String.eqb Ascii.eqb Bool.eqb default cell_truthy].
  destruct (out_postCode j) as [|c pc]; [reflexivity|].
  unfold id. cbn [cell_truthy PyStr.truthy cell_str].
  change (or_str (String c pc) "UNK") with (String c pc). by rewrite Hs.
Qed.

Lemma group_of_blank_sku (j : out_row) :
  PyStr.strip (out_sku j) = EmptyString -> group_of "sku" j = "UNK".
Proof.
  intros Hs. unfold group_of, key_for_json.
  unfold out_get_default, out_get, or_unk.
  cbn [String.eqb Ascii.eqb Bool.eqb orb default cell_truthy].
  destruct (out_sku j) as [|c sk]; [reflexivity|].
  unfold id. cbn [cell_truthy PyStr.truthy cell_str].
  change (or_str (String c sk) "UNK") with (String c sk). by rewrite Hs.
Qed.

Lemma on_disk_distinct (files : list written) :
  NoDup (map name files) -> on_disk files = files.
Proof.
  induction files as [|f files IH]; [reflexivity|].
  cbn [map on_disk]. intros [Hf Hnd]%NoDup_cons.
  assert (existsb (same_path f) files = false) as ->.
  { apply not_true_is_false. intros H.
    apply existsb_exists in H as (g & Hg & Hs).
    apply andb_true_iff in Hs as [_ Hs]. apply String.eqb_eq in Hs.
    apply Hf. rewrite Hs. apply list_elem_of_fmap. exists g.
    split; [reflexivity|]. by apply list_elem_of_In. }
  f_equal. by apply IH.
Qed.

Lemma group_files_csv_rows (self : app) (e : env) (dir base : string)
    (gj gc : list (string * list out_row)) :
  export_csv_var self = true ->
  concat (map csv_rows_in (flat_map (group_files self e dir base gj) gc))
  = concat (map snd gc).
Proof.
  intros Hc. induction gc as [|g gc IH]; [reflexivity|].
  cbn [flat_map map concat]. rewrite map_app, concat_app, IH. f_equal.
  unfold group_files. rewrite Hc.
  destruct (export_json_var self); cbn; by rewrite ?app_nil_r.
Qed.

Lemma group_files_json_rows (self : app) (e : env) (dir base : string)
    (gj gc : list (string * list out_row)) :
  export_json_var self = true ->
  concat (map json_rows_in (flat_map (group_files self e dir base gj) gc))
  = concat (map (fun g => group_lookup g.1 gj) gc).
Proof.
  intros Hj. induction gc as [|g gc IH]; [reflexivity|].
  cbn [flat_map map concat]. rewrite map_app, concat_app, IH. f_equal.
  unfold group_files. rewrite Hj.
  destruct (export_csv_var self); cbn; by rewrite ?app_nil_r.
Qed.

Lemma group_lookup_all {A : Type} (gs : list (string * list A)) :
  NoDup (map fst gs) -> map (fun g => group_lookup g.1 gs) gs = map snd gs.
Proof.
  intros Hnd. apply map_ext_Forall, Forall_forall. intros [g xs] Hin.
  cbn [fst snd]. by apply group_lookup_entry.
Qed.

Lemma group_lookup_keys {A B : Type} (gs : list (string * list A))
    (hs : list (string * list B)) :
  NoDup (map fst gs) -> map fst hs = map fst gs ->
  map (fun h => group_lookup h.1 gs) hs = map snd gs.
Proof.
  intros Hnd Hk. rewrite <- (group_lookup_all gs Hnd).
  rewrite <- (map_map fst (fun k => group_lookup k gs) hs), Hk.
  by rewrite map_map.
Qed.

(** * C8 *)

(** C8 (amended): in group mode the keys of the groups are pairwise
    distinct and the same for the CSV and the JSON rows; the JSON rows of
    a group are the rows whose group value is its key, in order, and no
    group is empty; the groups together hold every row exactly once; a
    group value is never empty, and it is UNK when the postCode or the
    sku that the column names is empty or blank, and when the column
    names no field.  With a filename pattern that renders, the files
    opened are those of the groups, in order of first appearance, each
    named with the sanitized key; when each of them opens and no two of
    them have the same name, every row is in exactly one group's output:
    the files on disk are the files of the groups, the rows of the CSV
    files put end to end are a permutation of the CSV rows, and those of
    the JSON files of the JSON rows.  The sanitized label of a value
    keeps every character that [str.isalnum] accepts (letters and digits
    of any script, not only A-Z, a-z, 0-9) and the three characters
    hyphen, underscore and full stop, puts an underscore for any other,
    keeps at most 80 characters, and is UNK for the empty value. *)
Theorem C8_groups_partition_the_records (self : app) (e : env)
    (dir base group_col : string) (json_rows csv_rows : list out_row) :
  length json_rows = length csv_rows -> renders self ->
  let key := PyStr.lower group_col in
  let gj := (fill_groups key json_rows csv_rows [] []).1 in
  let gc := (fill_groups key json_rows csv_rows [] []).2 in
  let files := flat_map (group_files self e dir base gj) gc in
  NoDup (map fst gj) /\ map fst gc = map fst gj
  /\ (forall g, group_lookup g gj
                = List.filter (fun j => String.eqb (group_of key j) g) json_rows)
  /\ (forall g rows, (g, rows) ∈ gj ->
                     rows <> [] /\ rows = group_lookup g gj)
  /\ (forall g rows, (g, rows) ∈ gc ->
                     rows <> []
                     /\ rows = members g (csv_pairs key json_rows csv_rows))
  /\ concat (map snd gj) ≡ₚ json_rows
  /\ concat (map snd gc) ≡ₚ csv_rows
  /\ (forall j, group_of key j <> EmptyString)
  /\ (forall j,
        (key ∈ ["postcode"; "post_code"; "post code"] ->
         PyStr.strip (out_postCode j) = EmptyString -> group_of key j = "UNK")
        /\ (key = "sku" -> PyStr.strip (out_sku j) = EmptyString ->
            group_of key j = "UNK")
        /\ (key ∉ group_columns -> group_of key j = "UNK"))
  /\ _export_by_group self e dir base json_rows csv_rows group_col []
     = (opened e files, if all_open e files then Some tt else None)
  /\ (all_open e files = true -> NoDup (map name files) ->
      _export_by_group self e dir base json_rows csv_rows group_col []
      = (files, Some tt)
      /\ on_disk files = files
      /\ (export_csv_var self = true ->
          concat (map csv_rows_in (on_disk files)) ≡ₚ csv_rows)
      /\ (export_json_var self = true ->
          concat (map json_rows_in (on_disk files)) ≡ₚ json_rows))
  /\ (forall s,
        _sanitize_group s
        = if PyStr.truthy s
          then PyStr.take_str 80
                 (PyStr.map_str (fun c => if kept_char c then c else "_"%char) s)
          else "UNK")
  /\ (forall s, PyStr.forallb_str kept_char (_sanitize_group s) = true
                /\ (1 <= String.length (_sanitize_group s) <= 80)%nat)
  /\ (forall s, PyStr.forallb_str kept_char s = true ->
                (1 <= String.length s <= 80)%nat -> _sanitize_group s = s).
Proof.
  intros Hlen Hr. cbv zeta. rewrite fill_groups_grouped. cbn [fst snd].
  assert (NoDup (map fst (grouped (json_pairs (PyStr.lower group_col)
                                     json_rows csv_rows) []))) as Hnj
    by (apply grouped_NoDup; constructor).
  assert (NoDup (map fst (grouped (csv_pairs (PyStr.lower group_col)
                                     json_rows csv_rows) []))) as Hnc
    by (apply grouped_NoDup; constructor).
  split; [exact Hnj|].
  split; [apply grouped_keys; [by rewrite pairs_same_groups|done]|].
  assert (map fst (grouped (csv_pairs (PyStr.lower group_col)
                              json_rows csv_rows) [])
          = map fst (grouped (json_pairs (PyStr.lower group_col)
                                json_rows csv_rows) [])) as Hkeys
    by (apply grouped_keys; [by rewrite pairs_same_groups|done]).
  assert (concat (map snd (grouped (json_pairs (PyStr.lower group_col)
                                      json_rows csv_rows) [])) ≡ₚ json_rows)
    as Hpj
    by (rewrite grouped_concat; cbn [map concat List.app];
        by rewrite json_pairs_items).
  assert (concat (map snd (grouped (csv_pairs (PyStr.lower group_col)
                                      json_rows csv_rows) [])) ≡ₚ csv_rows)
    as Hpc
    by (rewrite grouped_concat; cbn [map concat List.app];
        by rewrite csv_pairs_items).
  pose proof (export_by_group_files self e dir base json_rows csv_rows
                group_col Hr) as Hfiles.
  cbv zeta in Hfiles. rewrite fill_groups_grouped in Hfiles.
  cbn [fst snd] in Hfiles.
  split; [intros g; rewrite grouped_lookup; cbn [group_lookup List.app];
          by apply members_json|].
  split.
  { intros g rows Hin. split.
    - pose proof (grouped_nonempty (json_pairs (PyStr.lower group_col)
                    json_rows csv_rows) [] (Forall_nil_2 _)) as Hne.
      rewrite Forall_forall in Hne. exact (Hne _ Hin).
    - symmetry. by apply group_lookup_entry. }
  split.
  { intros g rows Hin. split.
    - pose proof (grouped_nonempty (csv_pairs (PyStr.lower group_col)
                    json_rows csv_rows) [] (Forall_nil_2 _)) as Hne.
      rewrite Forall_forall in Hne. exact (Hne _ Hin).
    - rewrite <- (group_lookup_entry _ _ _ Hnc Hin).
      by rewrite grouped_lookup. }
  split; [rewrite grouped_concat; cbn [map concat List.app];
          by rewrite json_pairs_items|].
  split; [rewrite grouped_concat; cbn [map concat List.app];
          by rewrite csv_pairs_items|].
  split; [apply group_of_nonempty|].
  split.
  { intros j. split; [by apply group_of_blank_postcode|].
    split; [intros Hk; rewrite Hk; by apply group_of_blank_sku|].
    apply group_of_unknown. }
  split; [exact Hfiles|].
  split.
  { intros Ha Hnd. rewrite Hfiles, Ha, (opened_all _ _ Ha).
    split; [reflexivity|]. rewrite (on_disk_distinct _ Hnd).
    split; [reflexivity|]. split.
    - intros Hc. by rewrite group_files_csv_rows.
    - intros Hj. rewrite group_files_json_rows by done.
      rewrite group_lookup_keys; done. }
  split.
  { intros s. unfold _sanitize_group. fold kept_char.
    change (fun c => if PyStr.isalnum_char c || Ascii.eqb c "-"
                        || Ascii.eqb c "_" || Ascii.eqb c "."
                     then c else "_"%char)
      with (fun c => if kept_char c then c else "_"%char).
    by destruct s. }
  split; [intros s; split; [apply sanitize_kept|apply sanitize_length]|].
  apply sanitize_fixed.
Qed.

(** The theorem at three records grouped by sku, two of them of one sku. *)
Lemma C8_witness_grouped_by_sku :
  let docs := [example_doc "A1" "2000"; example_doc "B2" "3000";
               example_doc "A1" "4000"] in
  let gj := (fill_groups "sku" (map json_row_of docs) (map csv_row_of docs)
               [] []).1 in
  map fst gj = ["A1"; "B2"]
  /\ NoDup (map fst gj)
  /\ concat (map snd gj) ≡ₚ map json_row_of docs.
Proof.
  cbv zeta. split; [vm_compute; reflexivity|].
  pose proof (C8_groups_partition_the_records
    (example_app [] [] true "group") example_env "out" "m" "SKU"
    (map json_row_of [example_doc "A1" "2000"; example_doc "B2" "3000";
                      example_doc "A1" "4000"])
    (map csv_row_of [example_doc "A1" "2000"; example_doc "B2" "3000";
                     example_doc "A1" "4000"])
    eq_refl (fun v => ltac:(discriminate))) as H.
  cbv zeta in H. destruct H as (Hnd & _ & _ & _ & _ & Hperm & _).
  split; [exact Hnd|exact Hperm].
Defined.

(** C8, as stated, fails: the letter e with an acute accent (code 233)
    and the superscript two (code 178) lie outside A-Z, a-z, 0-9, hyphen,
    underscore and full stop, and the sanitizer keeps them. *)
Lemma C8_counterexample_accented_letter_is_kept :
  PyStr.code "233"%char = 233%N
  /\ _sanitize_group (String "233"%char EmptyString)
     = String "233"%char EmptyString
  /\ _sanitize_group (String "233"%char EmptyString) <> "_"
  /\ _sanitize_group (String "178"%char EmptyString)
     = String "178"%char EmptyString
  /\ _sanitize_group "a b" = "a_b".
Proof.
  repeat split; try (vm_compute; reflexivity). vm_compute. discriminate.
Qed.

(** * Records are well formed *)

Lemma when_nil (b : bool) (x : string) : when b x = [] -> b = false.
Proof. by destruct b. Qed.

Lemma field_valid_fields (r : raw_row) :
  field_valid r = true ->
  (is_valid_sku (raw_sku_of r)).1 = true
  /\ (is_valid_postcode (raw_pc_of r)).1 = true
  /\ (normalize_price (raw_price_of r)).1.1 = true.
Proof.
  unfold field_valid, row_errs. intros H.
  destruct (when _ _ ++ _) eqn:He; [|discriminate H]. clear H.
  repeat (apply app_eq_nil in He as [?%when_nil He]).
  apply when_nil in He.
  repeat match goal with
         | H : negb _ = false |- _ => apply negb_false_iff in H
         end.
  repeat match goal with
         | H : PyStr.truthy ?s = true, H' : PyStr.truthy ?s && negb _ = false |- _ =>
             rewrite H in H'; cbn [andb] in H'; apply negb_false_iff in H'
         end.
  done.
Qed.

Lemma is_valid_sku_true (s : string) :
  (is_valid_sku s).1 = true ->
  let t := normalize_str (PyStrV s) in
  t <> EmptyString /\ PyStr.forallb_str sku_char t = true
  /\ (String.length t <= 64)%nat.
Proof.
  unfold is_valid_sku. cbv zeta. fold sku_char.
  change (fun ch => PyStr.isalnum_char ch || PyStr.char_in ch "-_./")
    with sku_char.
  destruct (normalize_str (PyStrV s)) as [|c t] eqn:Hs; [discriminate|].
  cbn [PyStr.truthy negb].
  destruct (PyStr.forallb_str sku_char (String c t)) eqn:Hf;
    cbn [negb]; [|discriminate].
  destruct (Nat.ltb_spec 64 (String.length (String c t))); [discriminate|].
  intros _. split; [discriminate|]. split; [done|lia].
Qed.

Lemma is_valid_postcode_true (s : string) :
  (is_valid_postcode s).1 = true ->
  let t := normalize_str (PyStrV s) in
  String.length t = 4%nat /\ PyStr.forallb_str PyStr.isdigit_char t = true.
Proof.
  unfold is_valid_postcode. cbv zeta.
  destruct (normalize_str (PyStrV s)) as [|c t] eqn:Hs; [discriminate|].
  cbn [PyStr.truthy negb]. unfold PyStr.isdigit. cbn [PyStr.truthy andb].
  destruct (PyStr.forallb_str PyStr.isdigit_char (String c t)) eqn:Hf;
    cbn [negb orb]; [|discriminate].
  destruct (Nat.eqb_spec (String.length (String c t)) 4);
    cbn [negb]; [|discriminate].
  done.
Qed.

Lemma normalize_price_true (s : string) :
  (normalize_price s).1.1 = true ->
  exists val, PyFloat.ltb_zero val = false /\ PyFloat.isinf val = false
              /\ PyFloat.isnan val = false
              /\ (normalize_price s).1.2 = PyFloat.round2 val.
Proof.
  unfold normalize_price.
  destruct (String.eqb _ _); [discriminate|].
  destruct (PyFloat.of_string _) as [val|]; [|discriminate].
  destruct (PyFloat.ltb_zero val) eqn:Hn; [discriminate|].
  destruct (PyFloat.isinf val) eqn:Hi; [discriminate|].
  destruct (PyFloat.isnan val) eqn:Ha; [discriminate|].
  intros _. by exists val.
Qed.

Lemma row_doc_well_formed (r : raw_row) :
  field_valid r = true -> well_formed (row_doc r).
Proof.
  intros (Hs & Hp & Hpr)%field_valid_fields.
  apply is_valid_sku_true in Hs as (Hs1 & Hs2 & Hs3).
  apply is_valid_postcode_true in Hp as (Hp1 & Hp2).
  apply normalize_price_true in Hpr.
  unfold well_formed, row_doc, build_doc. cbn [sku postCode price]. done.
Qed.

(** X1: every record of a validation run, whatever the source, has a
    non-empty sku of at most 64 characters, each alphanumeric or one of
    hyphen, underscore, full stop, slash; a postCode of exactly four
    digit characters; and as price the two-decimal rounding of a parsed
    number that is not negative, not infinite and not NaN. *)
Theorem X1_records_are_well_formed (DictReader : list string -> csv_reader)
    (src : source) :
  Forall well_formed (records (validate DictReader src)).
Proof.
  rewrite records_accepted. apply Forall_forall. intros d Hd.
  apply list_elem_of_fmap in Hd as (p & -> & Hp).
  apply elem_of_accepted in Hp as [_ Hv]. by apply row_doc_well_formed.
Qed.

(** * Counting records and errors *)

Lemma run_count (evs : list event) (st : vstate) :
  (length (valid_docs (run evs st)) + length (errors (run evs st))
   = length (valid_docs st) + length (errors st)
     + length (List.filter counts evs))%nat.
Proof.
  revert st. induction evs as [|ev evs IH]; intros st; [cbn; lia|].
  rewrite run_cons, IH. destruct ev as [i r|err|]; cbn [List.filter counts].
  - rewrite step_candidate.
    destruct (field_valid r); [destruct (bool_decide _)|];
      cbn [add_error add_doc valid_docs errors length];
      rewrite ?length_app; cbn [length]; lia.
  - cbn [step add_error valid_docs errors length]. rewrite length_app.
    cbn [length]. lia.
  - cbn [step]. lia.
Qed.

Lemma filter_counts_items (l : list (nat * json_item)) :
  length (List.filter counts (map item_event l)) = length l.
Proof.
  induction l as [|[i [o|]] l IH]; cbn; [reflexivity|by rewrite IH..].
Qed.

Lemma filter_counts_reader (l : list (nat * raw_row)) :
  length (List.filter counts (map reader_event l))
  = length (List.filter (fun p => negb (all_empty p.2)) l).
Proof.
  induction l as [|[i r] l IH]; [reflexivity|].
  cbn [map List.filter]. unfold reader_event at 1. cbn [fst snd].
  destruct (all_empty r); cbn [counts negb length]; by rewrite IH.
Qed.

Lemma numbered_length {A : Type} (l : list A) (i : nat) :
  length (numbered i l) = length l.
Proof.
  revert i. induction l as [|x l IH]; intros i; [reflexivity|].
  cbn. by rewrite IH.
Qed.

Lemma filter_numbered {A : Type} (f : A -> bool) (l : list A) (i : nat) :
  length (List.filter (fun p => f p.2) (numbered i l))
  = length (List.filter f l).
Proof.
  revert i. induction l as [|x l IH]; intros i; [reflexivity|].
  cbn [numbered List.filter snd]. destruct (f x); cbn [length]; by rewrite IH.
Qed.

Lemma reader_events_ok (reader : csv_reader) :
  header_ok reader = true ->
  reader_events reader = map reader_event (numbered 2 (reader_rows reader)).
Proof.
  unfold header_ok, reader_events.
  destruct (map _ (default [] (fieldnames reader))) as [|h fs]; [done|].
  cbn [is_nil negb andb]. intros H%header_ok_filter. by rewrite H.
Qed.

(** X2: no item is lost and none is counted twice.  For a JSON file read
    as an array, every item gives exactly one record or exactly one
    error: the records and the errors together are as many as the items.
    For a CSV reader whose header names the three fields, the records
    and the errors together are as many as the rows that are not skipped
    as empty. *)
Theorem X2_every_row_is_a_record_or_an_error
    (DictReader : list string -> csv_reader) :
  (forall f items,
     top f = TopArray items ->
     (length (records (validate DictReader (FromJson f)))
      + length (result_errors (validate DictReader (FromJson f)))
      = length items)%nat)
  /\ (forall reader,
        header_ok reader = true ->
        (length (records (validate DictReader (FromCsv (CsvOpened reader))))
         + length (result_errors
                     (validate DictReader (FromCsv (CsvOpened reader))))
         = length (List.filter (fun r => negb (all_empty r))
                     (reader_rows reader)))%nat).
Proof.
  split.
  - intros f items Hf. rewrite validate_records, validate_errors, run_count.
    cbn [source_events valid_docs errors vstate0 length Nat.add].
    unfold json_events. rewrite Hf.
    by rewrite filter_counts_items, numbered_length.
  - intros reader Hh. rewrite validate_records, validate_errors, run_count.
    cbn [source_events valid_docs errors vstate0 length Nat.add].
    rewrite reader_events_ok by done.
    rewrite filter_counts_reader.
    exact (filter_numbered (fun r => negb (all_empty r)) _ _).
Qed.

(** The theorem at an array of three items: a record, a duplicate and an
    item that is no object. *)
Lemma X2_witness_three_items :
  let f := {| top := TopArray [JObject (example_row "A1" "2000" "10");
                               JObject (example_row "A1" "2000" "11");
                               JNotObject];
              lines := []; line_read_error := None |} in
  (length (records (validate no_lines (FromJson f)))
   + length (result_errors (validate no_lines (FromJson f))) = 3)%nat
  /\ length (records (validate no_lines (FromJson f))) = 1%nat.
Proof.
  cbv zeta. split; [|vm_compute; reflexivity].
  exact (proj1 (X2_every_row_is_a_record_or_an_error no_lines)
           {| top := TopArray [JObject (example_row "A1" "2000" "10");
                               JObject (example_row "A1" "2000" "11");
                               JNotObject];
              lines := []; line_read_error := None |} _ eq_refl).
Defined.

(** * Normalization is idempotent *)

Lemma lstrip_first_char (p : ascii -> bool) (s : string) (c : ascii) :
  first_char (PyStr.lstrip_with p s) = Some c -> p c = false.
Proof.
  induction s as [|d s IH]; [discriminate|]. cbn.
  destruct (p d) eqn:Hd; [exact IH|]. cbn. by intros [= <-].
Qed.

Lemma rstrip_last_char (p : ascii -> bool) (s : string) (c : ascii) :
  last_char (PyStr.rstrip_with p s) = Some c -> p c = false.
Proof.
  induction s as [|d s IH]; [discriminate|]. cbn [PyStr.rstrip_with].
  destruct (PyStr.rstrip_with p s) as [|e t] eqn:Hr.
  - destruct (p d) eqn:Hd; [discriminate|]. cbn. by intros [= <-].
  - intros H. apply IH. exact H.
Qed.

Lemma rstrip_first_char (p : ascii -> bool) (s : string) (c : ascii) :
  first_char (PyStr.rstrip_with p s) = Some c -> first_char s = Some c.
Proof.
  destruct s as [|d s]; [discriminate|]. cbn [PyStr.rstrip_with].
  destruct (PyStr.rstrip_with p s); [destruct (p d); [discriminate|]|]; done.
Qed.

Lemma strip_with_fixed (p : ascii -> bool) (s : string) :
  (forall c, first_char s = Some c -> p c = false) ->
  (forall c, last_char s = Some c -> p c = false) ->
  PyStr.strip_with p s = s.
Proof.
  intros Hf Hl. unfold PyStr.strip_with.
  rewrite lstrip_first by done. by apply rstrip_last.
Qed.

Lemma strip_with_idempotent (p : ascii -> bool) (s : string) :
  PyStr.strip_with p (PyStr.strip_with p s) = PyStr.strip_with p s.
Proof.
  apply strip_with_fixed.
  - intros c Hc. unfold PyStr.strip_with in Hc.
    apply rstrip_first_char in Hc. by apply lstrip_first_char in Hc.
  - intros c Hc. unfold PyStr.strip_with in Hc.
    by apply rstrip_last_char in Hc.
Qed.

Lemma normalize_str_stripped (v : pyval) :
  exists y, normalize_str v = PyStr.strip y.
Proof.
  destruct v; cbn; eauto. by exists EmptyString.
Qed.

Lemma normalize_str_fixed (s : string) :
  PyStr.strip s = s -> no_outer_quote s -> normalize_str (PyStrV s) = s.
Proof.
  intros Hs [Hf Hl]. cbn [normalize_str is_number py_str]. rewrite Hs.
  unfold PyStr.strip_char. rewrite strip_with_fixed; [exact Hs|..].
  - intros c Hc. apply Ascii.eqb_neq. intros <-. by apply Hf.
  - intros c Hc. apply Ascii.eqb_neq. intros <-. by apply Hl.
Qed.

(** X3: trimming is idempotent, and so is [normalize_str] on every value
    whose normalized text neither begins nor ends with a double quote:
    normalizing that text again gives it back.  For a row whose resolved
    sku and postCode are such texts, the identity key of the record built
    from the row is the id under which the row was checked for
    duplicates. *)
Theorem X3_normalize_str_is_idempotent_without_outer_quotes :
  (forall s, PyStr.strip (PyStr.strip s) = PyStr.strip s)
  /\ (forall v, no_outer_quote (normalize_str v) ->
                normalize_str (PyStrV (normalize_str v)) = normalize_str v)
  /\ (forall r, no_outer_quote (raw_sku_of r) -> no_outer_quote (raw_pc_of r) ->
                stable r /\ identity_key (row_doc r) = row_key r).
Proof.
  assert (forall v, no_outer_quote (normalize_str v) ->
            normalize_str (PyStrV (normalize_str v)) = normalize_str v) as Hn.
  { intros v Hq. apply normalize_str_fixed; [|done].
    destruct (normalize_str_stripped v) as [y ->].
    apply strip_with_idempotent. }
  split; [intros s; apply strip_with_idempotent|]. split; [exact Hn|].
  intros r Hs Hp.
  assert (stable r) as Hst by (split; by apply Hn).
  split; [done|]. by apply stable_identity_key.
Qed.

(** The theorem at a value with inner quotes only. *)
Lemma X3_witness_inner_quote :
  let v := PyStrV ("  a" +:+ quotes 1 +:+ "b  ") in
  normalize_str v = "a" +:+ quotes 1 +:+ "b"
  /\ normalize_str (PyStrV (normalize_str v)) = normalize_str v.
Proof.
  cbv zeta. split; [vm_compute; reflexivity|].
  apply (proj1 (proj2 X3_normalize_str_is_idempotent_without_outer_quotes)).
  split; vm_compute; discriminate.
Defined.

(** * Bad headers *)

(** X4: a CSV reader whose header does not name the three fields gives
    no record and exactly one error, under row 1 and the context
    "header", whatever its rows hold: "Missing header row" when there is
    no header, and otherwise the missing fields, in the order sku,
    postCode, price. *)
Theorem X4_bad_header_stops_the_run (reader : csv_reader) :
  header_ok reader = false ->
  let fieldnames_lc :=
    map (fun h => PyStr.lower (PyStr.strip h)) (default [] (fieldnames reader)) in
  let missing :=
    List.filter (fun key => negb (has_alias fieldnames_lc key))
      ["sku"; "postCode"; "price"] in
  _validate_from_reader reader
  = ([], [{| row := 1; context := "header";
             error := if is_nil fieldnames_lc then "Missing header row"
                      else "Missing required columns: "
                           +:+ PyStr.join ", " missing |}], [])
  /\ (is_nil fieldnames_lc = false -> missing <> []).
Proof.
  unfold header_ok, _validate_from_reader. cbv zeta.
  destruct (map _ (default [] (fieldnames reader))) as [|h fs] eqn:Hfs.
  - intros _. split; [reflexivity|discriminate].
  - cbn [is_nil negb andb]. intros Hh.
    destruct (List.filter _ _) as [|k ks] eqn:Hf.
    + apply header_ok_filter in Hf. congruence.
    + split; [reflexivity|discriminate].
Qed.

(** The theorem at a file whose columns are item, postcode, qty. *)
Lemma X4_witness_two_columns_missing :
  _validate_from_reader
    {| fieldnames := Some ["item"; "PostCode "; "qty"];
       reader_rows := [example_row "A1" "2000" "10"] |}
  = ([], [{| row := 1; context := "header";
             error := "Missing required columns: sku, price" |}], []).
Proof.
  exact (proj1 (X4_bad_header_stops_the_run
                  {| fieldnames := Some ["item"; "PostCode "; "qty"];
                     reader_rows := [example_row "A1" "2000" "10"] |}
                  eq_refl)).
Defined.

(** * JSON read line by line *)

Lemma accepted_rows_only (rows1 rows2 : list (nat * raw_row))
    (seen : gset string) :
  map snd rows1 = map snd rows2 ->
  map snd (accepted_from seen rows1) = map snd (accepted_from seen rows2).
Proof.
  revert rows2 seen.
  induction rows1 as [|[i r] rows1 IH]; intros [|[j r'] rows2] seen H;
    try discriminate H; [reflexivity|].
  injection H as -> H. cbn [accepted_from].
  destruct (field_valid r' && _); cbn [map snd]; by rewrite (IH rows2).
Qed.

Lemma line_candidates_objects (ls : list nd_line) (i : nat) :
  map snd (omap line_candidate (numbered i ls)) = omap line_object ls.
Proof.
  revert i. induction ls as [|l ls IH]; intros i; [reflexivity|].
  cbn [numbered omap list_omap]. unfold line_candidate at 1. cbn [fst snd].
  destruct l; cbn [line_object map snd]; by rewrite IH.
Qed.

Lemma item_candidates_objects (objs : list raw_row) (i : nat) :
  map snd (omap item_candidate (numbered i (map JObject objs))) = objs.
Proof.
  revert i. induction objs as [|o objs IH]; intros i; [reflexivity|].
  cbn. by rewrite IH.
Qed.

(** X5: the records of a JSON file read line by line are those of the
    array of the objects on its lines, in order: blank lines, lines that
    are no JSON and lines that hold no object add errors or nothing, and
    never change which records are accepted.  The line-by-line reading
    adds exactly one warning, the array reading none. *)
Theorem X5_ndjson_records_are_those_of_the_objects
    (DictReader : list string -> csv_reader) (f : json_file) :
  (forall items, top f <> TopArray items) ->
  records (validate DictReader (FromJson f))
  = records (validate DictReader
      (FromJson {| top := TopArray (map JObject (omap line_object (lines f)));
                   lines := []; line_read_error := None |}))
  /\ length (result_warnings (validate DictReader (FromJson f))) = 1%nat
  /\ result_warnings (validate DictReader
       (FromJson {| top := TopArray (map JObject (omap line_object (lines f)));
                    lines := []; line_read_error := None |})) = [].
Proof.
  intros Hf. split; [|split].
  3:{ cbn [validate]. unfold validate_json. cbn [top].
      unfold result_warnings, finish. cbn [snd].
      by rewrite array_loop_run, run_warnings. }
  - rewrite !records_accepted. rewrite <- !(map_map snd row_doc).
    f_equal. apply accepted_rows_only.
    cbn [source_rows]. unfold json_candidates. cbn [top].
    rewrite item_candidates_objects.
    destruct (top f) as [items| |]; [by destruct (Hf items)|..];
      apply line_candidates_objects.
  - cbn [validate]. unfold validate_json.
    destruct (top f) as [items| |]; [by destruct (Hf items)|..];
      unfold ndjson_pass, result_warnings, finish; cbn [snd];
      destruct (line_read_error f); cbn [add_error warnings];
      rewrite lines_loop_run, run_warnings; reflexivity.
Qed.

(** The theorem at a file of four lines: an object, a blank line, a line
    that is no JSON, and an object. *)
Lemma X5_witness_four_lines :
  let f := {| top := TopInvalid;
              lines := [NdObject (example_row "A1" "2000" "10"); NdBlank;
                        NdInvalid "Expecting value";
                        NdObject (example_row "B2" "3000" "7")];
              line_read_error := None |} in
  map identity_key (records (validate no_lines (FromJson f)))
  = ["A1|2000"; "B2|3000"]
  /\ records (validate no_lines (FromJson f))
     = records (validate no_lines
         (example_json [example_row "A1" "2000" "10";
                        example_row "B2" "3000" "7"])).
Proof.
  cbv zeta. split; [vm_compute; reflexivity|].
  refine (proj1 (X5_ndjson_records_are_those_of_the_objects no_lines
    {| top := TopInvalid;
       lines := [NdObject (example_row "A1" "2000" "10"); NdBlank;
                 NdInvalid "Expecting value";
                 NdObject (example_row "B2" "3000" "7")];
       line_read_error := None |} _)).
  intros items. discriminate.
Defined.

(** * Row numbers of the errors *)

Lemma reported_rows (evs : list event) (seen : gset string) :
  sublist (map row (reported_from seen evs)) (omap event_row evs).
Proof.
  revert seen. induction evs as [|ev evs IH]; intros seen; [constructor|].
  cbn [reported_from omap list_omap]. destruct ev as [i r|err|];
    cbn [event_row].
  - destruct (field_valid r); [destruct (bool_decide _)|];
      cbn [map row];
      first [apply sublist_skip; apply IH|apply sublist_cons; apply IH].
  - cbn [map]. apply sublist_skip. apply IH.
  - apply IH.
Qed.

Lemma item_event_rows (items : list json_item) (i : nat) :
  omap event_row (map item_event (numbered i items)) = seq i (length items).
Proof.
  revert i. induction items as [|it items IH]; intros i; [reflexivity|].
  cbn [numbered map omap list_omap length seq]. unfold item_event at 1.
  cbn [fst snd]. destruct it; cbn [event_row row]; by rewrite IH.
Qed.

Lemma reader_event_rows (rows : list raw_row) (i : nat) :
  sublist (omap event_row (map reader_event (numbered i rows)))
          (seq i (length rows)).
Proof.
  revert i. induction rows as [|r rows IH]; intros i; [constructor|].
  cbn [numbered map omap list_omap length seq]. unfold reader_event at 1.
  cbn [fst snd]. destruct (all_empty r); cbn [event_row].
  - apply sublist_cons. apply IH.
  - apply sublist_skip. apply IH.
Qed.

(** X6: errors are reported in input order under the number of their
    row.  For a JSON array the row numbers of the errors are a
    subsequence of 1 .. n, for a CSV reader whose header names the three
    fields a subsequence of 2 .. n + 1 (the header is row 1): they
    increase strictly, and no row is reported twice. *)
Theorem X6_errors_carry_increasing_row_numbers
    (DictReader : list string -> csv_reader) :
  (forall f items,
     top f = TopArray items ->
     sublist (map row (result_errors (validate DictReader (FromJson f))))
             (seq 1 (length items)))
  /\ (forall reader,
        header_ok reader = true ->
        sublist (map row (result_errors
                   (validate DictReader (FromCsv (CsvOpened reader)))))
                (seq 2 (length (reader_rows reader)))).
Proof.
  split.
  - intros f items Hf. rewrite errors_reported. cbn [source_events].
    unfold json_events. rewrite Hf. rewrite <- item_event_rows.
    apply reported_rows.
  - intros reader Hh. rewrite errors_reported. cbn [source_events].
    rewrite reader_events_ok by done.
    etrans; [apply reported_rows|apply reader_event_rows].
Qed.

(** * Field resolution *)

Lemma lower_keys_lookup_from (m : gmap string pyval) (r : raw_row) (k : string) :
  foldl (fun m kv => <[lower_key kv.1 := kv.2]> m) m r !! k
  = match last_value k r with Some v => Some v | None => m !! k end.
Proof.
  revert m. induction r as [|kv r IH]; intros m; [reflexivity|].
  cbn [foldl last_value]. rewrite IH.
  destruct (last_value k r); [reflexivity|].
  destruct (String.eqb_spec (lower_key kv.1) k) as [->|Hne].
  - apply lookup_insert_eq.
  - by apply lookup_insert_ne.
Qed.

Lemma lower_keys_lookup (r : raw_row) (k : string) :
  _lower_keys r !! k = last_value k r.
Proof.
  unfold _lower_keys. rewrite lower_keys_lookup_from.
  by destruct (last_value k r).
Qed.

Lemma first_alias_present (r : raw_row) (aliases : list string) :
  first_alias (_lower_keys r) aliases = first_present r aliases.
Proof.
  induction aliases as [|a aliases IH]; [reflexivity|].
  cbn [first_alias first_present]. rewrite lower_keys_lookup.
  by destruct (last_value _ r).
Qed.

(** X7: a logical field of a row is the value under the first alias of
    the field, in the order of the alias table, that some header of the
    row lowers and trims to; among several columns with that header the
    last one counts; the order of the columns plays no part.  So a
    column headed postcode wins over a column headed zip wherever it
    stands, and a column headed price over one headed amount.  A field
    name that is no key of the table ("postcode" instead of "postCode")
    resolves to nothing. *)
Theorem X7_fields_resolve_by_alias_order (r : raw_row) :
  (forall key, field_from_row (_lower_keys r) key
               = first_present r (aliases_get CSV_FIELD_ALIASES key))
  /\ (forall k, _lower_keys r !! k = last_value k r)
  /\ (forall v, last_value "postcode" r = Some v ->
                field_from_row (_lower_keys r) "postCode" = v)
  /\ (forall v, last_value "price" r = Some v ->
                field_from_row (_lower_keys r) "price" = v)
  /\ (forall v, last_value "sku" r = Some v ->
                field_from_row (_lower_keys r) "sku" = v)
  /\ (forall key, key <> "sku" -> key <> "postCode" -> key <> "price" ->
                  field_from_row (_lower_keys r) key = PyNone).
Proof.
  assert (forall key, field_from_row (_lower_keys r) key
            = first_present r (aliases_get CSV_FIELD_ALIASES key)) as H
    by (intros key; apply first_alias_present).
  split; [exact H|]. split; [apply lower_keys_lookup|].
  split; [|split; [|split]].
  - intros v Hv. rewrite H.
    change (aliases_get CSV_FIELD_ALIASES "postCode")
      with ["postcode"; "postCode"; "post_code"; "post code"; "zip"; "zip_code"].
    cbn [first_present]. change (PyStr.lower "postcode") with "postcode".
    by rewrite Hv.
  - intros v Hv. rewrite H.
    change (aliases_get CSV_FIELD_ALIASES "price")
      with ["price"; "unit_price"; "unitPrice"; "unitprice"; "unit price";
            "amount"].
    cbn [first_present]. change (PyStr.lower "price") with "price".
    by rewrite Hv.
  - intros v Hv. rewrite H.
    change (aliases_get CSV_FIELD_ALIASES "sku")
      with ["sku"; "productcode"; "productCode"; "product_code";
            "product id"; "productid"].
    cbn [first_present]. change (PyStr.lower "sku") with "sku".
    by rewrite Hv.
  - intros key H1 H2 H3. rewrite H.
    unfold CSV_FIELD_ALIASES. cbn [aliases_get].
    destruct (String.eqb_spec "sku" key); [congruence|].
    destruct (String.eqb_spec "postCode" key); [congruence|].
    destruct (String.eqb_spec "price" key); [congruence|]. reflexivity.
Qed.

(** The theorem at a row with the columns ZIP, Amount, PostCode, Price:
    the later columns win by the order of the aliases. *)
Lemma X7_witness_zip_and_postcode :
  let r := [(Some "ZIP", PyStrV "9999"); (Some "Amount", PyStrV "1");
            (Some " PostCode", PyStrV "2000"); (Some "Price", PyStrV "5")] in
  field_from_row (_lower_keys r) "postCode" = PyStrV "2000"
  /\ field_from_row (_lower_keys r) "price" = PyStrV "5".
Proof.
  cbv zeta. split.
  - apply (proj1 (proj2 (proj2 (X7_fields_resolve_by_alias_order _)))).
    vm_compute; reflexivity.
  - apply (proj1 (proj2 (proj2 (proj2 (X7_fields_resolve_by_alias_order _))))).
    vm_compute; reflexivity.
Defined.

(** * Rows written to CSV *)

Lemma lstrip_zeros (s : string) :
  exists n, s = PyStr.zeros n +:+ PyStr.lstrip_char "0" s.
Proof.
  unfold PyStr.lstrip_char. induction s as [|c s IH]; [by exists O|].
  cbn [PyStr.lstrip_with]. destruct (Ascii.eqb_spec "0" c) as [<-|Hne].
  - destruct IH as [n IH]. exists (S n).
    change (String "0" s = String "0" (PyStr.zeros n +:+ PyStr.lstrip_with (Ascii.eqb "0") s)).
    f_equal. exact IH.
  - by exists O.
Qed.

(** X8: the postCode written to a CSV file is the postCode of the record
    without its leading zeros: the record's postCode is a run of zeros
    followed by the written one, and the written one does not begin with
    a zero.  The sku and the price are written as they are; the JSON row
    keeps all three. *)
Theorem X8_csv_postcode_loses_its_leading_zeros (d : doc) :
  (exists n, postCode d = PyStr.zeros n +:+ out_postCode (csv_row_of d))
  /\ first_char (out_postCode (csv_row_of d)) <> Some "0"%char
  /\ out_sku (csv_row_of d) = sku d /\ out_price (csv_row_of d) = price d
  /\ json_row_of d
     = {| out_postCode := postCode d; out_sku := sku d; out_price := price d |}.
Proof.
  unfold csv_row_of. cbn [out_postCode out_sku out_price].
  split; [|split; [|done]].
  - destruct (postCode d) as [|c s] eqn:Hp; [by exists O|].
    cbn [PyStr.truthy]. apply lstrip_zeros.
  - destruct (postCode d) as [|c s] eqn:Hp; [discriminate|].
    cbn [PyStr.truthy]. unfold PyStr.lstrip_char. intros H.
    apply lstrip_first_char in H. discriminate H.
Qed.

(** * Base names *)




(** * Patterns that do not render *)

Lemma render_path_fails (self : app) (base batch group ts ext : string)
    (w : list written) :
  never_renders self ->
  _render_path self base batch group ts ext w = (w, None).
Proof. intros H. unfold _render_path, lift. by rewrite H. Qed.

Lemma write_pair_fails (self : app) (e : env)
    (dir base batch group ts : string) (b1 b2 : content) :
  never_renders self ->
  export_csv_var self || export_json_var self = true ->
  fails
    (io_when (export_csv_var self)
       (path <- _render_path self base batch group ts "csv" ;;
        write_file e {| folder := dir; name := path; body := b1 |}) ;;;
     io_when (export_json_var self)
       (path <- _render_path self base batch group ts "json" ;;
        write_file e {| folder := dir; name := path; body := b2 |})).
Proof.
  intros H Hf w. unfold bind, io_when, ret.
  destruct (export_csv_var self); [by rewrite render_path_fails|].
  cbn [orb] in Hf. rewrite Hf. by rewrite render_path_fails.
Qed.

Lemma io_for_fails {A : Type} (x : A) (l : list A) (body : A -> io unit) :
  fails (body x) -> fails (io_for (x :: l) body).
Proof. intros H w. cbn [io_for]. unfold bind. by rewrite H. Qed.

Lemma rows_parts_positive (n k : nat) :
  (1 <= n)%nat -> (1 <= k)%nat -> exists p, rows_parts n k = S p.
Proof.
  intros Hn Hk. destruct (rows_parts_bounds n k Hn Hk) as [_ H].
  destruct (rows_parts n k) as [|p]; [lia|by exists p].
Qed.

Lemma fill_groups_nonempty (key : string) (js cs : list out_row) :
  length js = length cs -> cs <> [] ->
  (fill_groups key js cs [] []).2 <> [].
Proof.
  intros Hl Hc Hg. rewrite fill_groups_grouped in Hg. cbn [snd] in Hg.
  pose proof (grouped_concat (csv_pairs key js cs) []) as Hp.
  rewrite Hg, csv_pairs_items in Hp by done. cbn in Hp.
  apply Permutation_nil_l in Hp. congruence.
Qed.

Lemma export_batches_fails (e : env) (self : app) (dir base : string) :
  last_valid_docs self <> [] ->
  never_renders self ->
  export_csv_var self || export_json_var self = true ->
  fails (export_batches e self dir base
           (map csv_row_of (last_valid_docs self))
           (map json_row_of (last_valid_docs self))).
Proof.
  intros Hd Hr Hf. unfold export_batches.
  destruct (last_valid_docs self) as [|d ds]; [done|].
  set (csv_rows := map csv_row_of (d :: ds)).
  set (json_rows := map json_row_of (d :: ds)).
  destruct (enable_batch_var self); [destruct (String.eqb _ _)|].
  - unfold _export_by_rows. cbn [csv_rows map length Nat.eqb].
    destruct (rows_parts_positive (S (length (map csv_row_of ds)))
                (Z.to_nat match rows_per_file_var self with
                          | Some n => Z.max 1 n
                          | None => 1000
                          end)) as [p Hp]; [lia| |].
    { destruct (rows_per_file_var self); lia. }
    unfold rows_parts in Hp. rewrite Hp. cbn [seq].
    apply io_for_fails. by apply write_pair_fails.
  - unfold _export_by_group.
    pose proof (fill_groups_nonempty
      (PyStr.lower (PyStr.strip (group_column_var self)))
      json_rows csv_rows) as Hne.
    destruct (fill_groups _ _ _ _ _) as [gj gc]. cbn [snd] in Hne.
    destruct gc as [|[g rows] gc].
    + exfalso. apply Hne; [|discriminate|reflexivity].
      unfold json_rows, csv_rows. by rewrite !length_map.
    + apply io_for_fails. by apply write_pair_fails.
  - unfold _export_single. by apply write_pair_fails.
Qed.

(** X10: when the filename pattern renders no name (it holds a
    placeholder that is none of base, batch, group, ts, ext), an export
    of at least one record with a format switched on raises at its first
    file, in every batch mode: no file is written, and neither is the
    errors file. *)
Theorem X10_pattern_that_never_renders_writes_nothing (e : env) (self : app) :
  last_valid_docs self <> [] ->
  never_renders self ->
  export_csv_var self || export_json_var self = true ->
  export_files e self = ([], Raised).
Proof.
  intros Hd Hr Hf. unfold export_files.
  pose proof (export_batches_fails e self (export_folder e self)
                (base_name_snake self) Hd Hr Hf) as Hfail.
  destruct (last_valid_docs self) as [|d ds] eqn:Hdocs; [done|].
  cbn [is_nil andb]. rewrite Hdocs. cbn [is_nil andb].
  unfold export_body. cbv zeta. rewrite Hdocs. unfold bind at 1, lift.
  destruct (makedirs e _); [|reflexivity].
  unfold bind. by rewrite Hfail.
Qed.

(** The theorem at an export in rows mode under a pattern that renders
    nothing. *)
Lemma X10_witness_unknown_placeholder :
  export_files example_env
    {| file_stem := None; last_valid_docs := [example_doc "A1" "2000"];
       last_errors := [example_error]; last_warnings := [];
       output_folder_var := "out"; filename_pattern_var := fun _ => None;
       export_csv_var := false; export_json_var := true;
       enable_batch_var := true; batch_mode_var := "rows";
       rows_per_file_var := None; group_column_var := "sku" |}
  = ([], Raised).
Proof.
  apply X10_pattern_that_never_renders_writes_nothing.
  - discriminate.
  - intros v. reflexivity.
  - reflexivity.
Defined.

(** * Exports of nothing and without a format *)

Lemma data_files_of_nothing (e : env) (self : app) :
  last_valid_docs self = [] ->
  data_files e self
  = if enable_batch_var self then []
    else single_files self e (export_folder e self) (base_name_snake self)
           [] [].
Proof.
  intros Hd. unfold data_files. cbv zeta. rewrite Hd. cbn [map length].
  destruct (enable_batch_var self); [|reflexivity].
  destruct (String.eqb _ _); [|reflexivity].
  replace (rows_parts 0 _) with 0%nat; [reflexivity|].
  unfold rows_parts. destruct (Z.to_nat _) as [|k]; [reflexivity|].
  symmetry. apply Nat.div_small. lia.
Qed.

(** X11: an export with no record and no error, also after the
    validation it runs first, under a filename pattern that renders and
    with an export folder that can be made, completes in rows mode and
    in group mode without writing a file, while single mode still opens
    a file of no rows for each format switched on: it completes when
    they open, and raises at the first that does not.  When the folder
    cannot be made, the export raises in every mode. *)
Theorem X11_export_of_nothing (e : env) (self0 : app) :
  let self := preview_data e self0 in
  let files :=
    single_files self e (export_folder e self) (base_name_snake self)
      [] [] in
  last_valid_docs self0 = [] -> last_errors self0 = [] ->
  last_valid_docs self = [] -> last_errors self = [] ->
  renders self ->
  export_files e self0
  = if makedirs e (export_folder e self) then
      if enable_batch_var self then ([], Completed)
      else (opened e files, if all_open e files then Completed else Raised)
    else ([], Raised).
Proof.
  cbv zeta. intros Hd0 He0 Hd He Hr. unfold export_files.
  rewrite Hd0, He0. cbn [is_nil andb]. rewrite Hd, He. cbn [is_nil andb negb].
  rewrite export_body_writes by done.
  rewrite He, (data_files_of_nothing _ _ Hd). cbn [is_nil].
  destruct (makedirs e _); [|reflexivity].
  destruct (enable_batch_var (preview_data e self0)); [reflexivity|].
  destruct (all_open e _) eqn:Ha; [|reflexivity].
  by rewrite (opened_all _ _ Ha).
Qed.

(** The theorem at an application with nothing loaded, in single mode and
    in rows mode. *)
Lemma X11_witness_nothing_loaded :
  map (fun f => (name f, body f))
    (export_files example_env (example_app [] [] false "rows")).1
  = [("freight_matrix_all_all_20240101_000000.csv", CsvRows out_fields []);
     ("freight_matrix_all_all_20240101_000000.json", JsonRows [])]
  /\ export_files example_env (example_app [] [] true "rows") = ([], Completed).
Proof.
  split.
  - rewrite (X11_export_of_nothing example_env (example_app [] [] false "rows")
               eq_refl eq_refl eq_refl eq_refl (fun v => ltac:(discriminate))).
    vm_compute; reflexivity.
  - exact (X11_export_of_nothing example_env (example_app [] [] true "rows")
             eq_refl eq_refl eq_refl eq_refl (fun v => ltac:(discriminate))).
Defined.

Lemma io_for_skips {A : Type} (l : list A) (body : A -> io unit)
    (w : list written) :
  (forall x w', body x w' = (w', Some tt)) -> io_for l body w = (w, Some tt).
Proof.
  intros H. revert w. induction l as [|x l IH]; intros w; [reflexivity|].
  cbn [io_for]. unfold bind. by rewrite H, IH.
Qed.

Lemma export_batches_skips (e : env) (self : app) (dir base : string)
    (csv_rows json_rows : list out_row) (w : list written) :
  export_csv_var self = false -> export_json_var self = false ->
  export_batches e self dir base csv_rows json_rows w = (w, Some tt).
Proof.
  intros Hc Hj. unfold export_batches.
  destruct (enable_batch_var self); [destruct (String.eqb _ _)|].
  - unfold _export_by_rows. destruct (_ =? _)%nat; [reflexivity|].
    apply io_for_skips. intros i w'. by rewrite Hc, Hj.
  - unfold _export_by_group. destruct (fill_groups _ _ _ _ _) as [gj gc].
    apply io_for_skips. intros [g rows] w'. by rewrite Hc, Hj.
  - unfold _export_single. by rewrite Hc, Hj.
Qed.

(** X12: with both formats switched off, an export of at least one
    record opens no file of rows in any batch mode, and the filename
    pattern is never rendered, so a pattern that renders nothing goes
    unnoticed.  When the export folder can be made the export completes:
    without errors it writes nothing; with errors it writes the errors
    file alone, or, if that file does not open, nothing, after a
    warning.  When the folder cannot be made the export raises. *)
Theorem X12_no_format_no_data_file (e : env) (self : app) :
  last_valid_docs self <> [] ->
  export_csv_var self = false -> export_json_var self = false ->
  export_files e self
  = if makedirs e (export_folder e self) then
      if is_nil (last_errors self) then ([], Completed)
      else if can_open e (errors_file e self)
           then ([errors_file e self], Completed)
           else ([], CompletedWithWarning)
    else ([], Raised).
Proof.
  intros Hd Hc Hj. unfold export_files.
  destruct (last_valid_docs self) as [|d ds] eqn:Hdocs; [done|].
  cbn [is_nil andb]. rewrite Hdocs. cbn [is_nil andb].
  unfold export_body. cbv zeta. unfold bind at 1, lift.
  destruct (makedirs e _); [|reflexivity].
  unfold bind. rewrite export_batches_skips by done.
  destruct (last_errors self); [reflexivity|].
  cbn [is_nil]. unfold try_write, can_open. by destruct (opens e _ _).
Qed.

(** The theorem at an export of one record and one error with no format
    chosen, under a pattern that renders nothing. *)
Lemma X12_witness_no_format :
  let self :=
    {| file_stem := Some "m"; last_valid_docs := [example_doc "A1" "2000"];
       last_errors := [example_error]; last_warnings := [];
       output_folder_var := "out"; filename_pattern_var := fun _ => None;
       export_csv_var := false; export_json_var := false;
       enable_batch_var := true; batch_mode_var := "group";
       rows_per_file_var := None; group_column_var := "sku" |} in
  export_files example_env self = ([errors_file example_env self], Completed).
Proof.
  cbv zeta.
  match goal with
  | |- export_files example_env ?a = _ =>
      rewrite (X12_no_format_no_data_file example_env a
                 ltac:(discriminate) eq_refl eq_refl)
  end.
  reflexivity.
Defined.

(** * Unknown group columns *)

Lemma pairs_one_group (key g : string) (js cs : list out_row) :
  (forall j, group_of key j = g) -> length js = length cs ->
  json_pairs key js cs = map (fun x => (g, x)) js.
Proof.
  intros Hg. revert cs. induction js as [|j js IH]; intros [|c cs] H;
    try discriminate H; [reflexivity|].
  injection H as H. unfold json_pairs in *. cbn. by rewrite Hg, IH.
Qed.

Lemma pairs_one_group_csv (key g : string) (js cs : list out_row) :
  (forall j, group_of key j = g) -> length js = length cs ->
  csv_pairs key js cs = map (fun x => (g, x)) cs.
Proof.
  intros Hg. revert cs. induction js as [|j js IH]; intros [|c cs] H;
    try discriminate H; [reflexivity|].
  injection H as H. unfold csv_pairs in *. cbn. by rewrite Hg, IH.
Qed.

Lemma grouped_one_group {A : Type} (g : string) (l acc : list A) :
  grouped (map (fun x => (g, x)) l) [(g, acc)] = [(g, acc ++ l)].
Proof.
  revert acc. induction l as [|x l IH]; intros acc.
  - cbn. by rewrite app_nil_r.
  - cbn [map grouped foldl fst snd group_append].
    rewrite String.eqb_refl.
    fold (grouped (map (fun x => (g, x)) l) [(g, acc ++ [x])]).
    rewrite IH. by rewrite <- app_assoc.
Qed.

Lemma grouped_all_one {A : Type} (g : string) (x : A) (l : list A) :
  grouped (map (fun y => (g, y)) (x :: l)) [] = [(g, x :: l)].
Proof.
  cbn [map grouped foldl fst snd group_append].
  fold (grouped (map (fun y => (g, y)) l) [(g, [x])]).
  by rewrite grouped_one_group.
Qed.

(** X13: when the lowered group column names no field of a row (it is
    none of postcode, post_code, "post code", sku and price; the empty
    column too), every row gets the group UNK: group mode puts all the
    rows, in their order, into the one group UNK, whose name the file
    names keep. *)
Theorem X13_unknown_group_column_gives_one_group (col : string)
    (json_rows csv_rows : list out_row) :
  PyStr.lower col ∉ group_columns ->
  length json_rows = length csv_rows -> json_rows <> [] ->
  (forall j, group_of (PyStr.lower col) j = "UNK")
  /\ fill_groups (PyStr.lower col) json_rows csv_rows [] []
     = ([("UNK", json_rows)], [("UNK", csv_rows)])
  /\ _sanitize_group "UNK" = "UNK".
Proof.
  intros Hk Hl Hj. split; [intros j; by apply group_of_unknown|].
  split; [|reflexivity]. rewrite fill_groups_grouped.
  rewrite (pairs_one_group (PyStr.lower col) "UNK" json_rows csv_rows)
    by (done || intros j; by apply group_of_unknown).
  rewrite (pairs_one_group_csv (PyStr.lower col) "UNK" json_rows csv_rows)
    by (done || intros j; by apply group_of_unknown).
  destruct json_rows as [|j js]; [done|].
  destruct csv_rows as [|c cs]; [discriminate Hl|].
  by rewrite !grouped_all_one.
Qed.

(** The theorem at two records grouped by a column "Region". *)
Lemma X13_witness_region :
  fill_groups "region"
    (map json_row_of [example_doc "A1" "2000"; example_doc "B2" "3000"])
    (map csv_row_of [example_doc "A1" "2000"; example_doc "B2" "3000"]) [] []
  = ([("UNK", map json_row_of [example_doc "A1" "2000"; example_doc "B2" "3000"])],
     [("UNK", map csv_row_of [example_doc "A1" "2000"; example_doc "B2" "3000"])]).
Proof.
  refine (proj1 (proj2 (X13_unknown_group_column_gives_one_group "Region"
    _ _ _ eq_refl _))).
  - vm_compute. intros H.
    repeat (apply elem_of_cons in H as [H|H]; [discriminate H|]).
    by apply elem_of_nil in H.
  - discriminate.
Defined.

(** * Settings *)

Lemma jvalue_ind (P : jvalue -> Prop) :
  P JNull -> (forall b, P (JBool b)) -> (forall n, P (JInt n)) ->
  (forall x, P (JFloat x)) -> (forall s, P (JStr s)) ->
  (forall items, Forall P items -> P (JArr items)) ->
  (forall members, Forall (fun kv => P kv.2) members -> P (JObj members)) ->
  forall j, P j.
Proof.
  intros H1 H2 H3 H4 H5 H6 H7. fix IH 1.
  intros [|b|n|x|s|items|members].
  - exact H1.
  - exact (H2 b).
  - exact (H3 n).
  - exact (H4 x).
  - exact (H5 s).
  - apply H6. induction items as [|x items IHi]; constructor;
      [apply IH|exact IHi].
  - apply H7. induction members as [|[k v] members IHm]; constructor;
      [apply IH|exact IHm].
Qed.

Lemma dict_get_keys (k : string) (d : list (string * jvalue)) :
  k ∈ map fst d <-> is_Some (dict_get k d).
Proof.
  induction d as [|[k' v] d IH]; cbn.
  - split; [intros H; by apply elem_of_nil in H|intros [x H]; discriminate].
  - rewrite elem_of_cons, IH. destruct (String.eqb_spec k k') as [->|Hne].
    + split; [by eexists|by left].
    + split; [intros [H|H]; done|by right].
Qed.

Lemma dict_get_absent (k : string) (d : list (string * jvalue)) :
  k ∉ map fst d <-> dict_get k d = None.
Proof. rewrite dict_get_keys, eq_None_not_Some. done. Qed.

Lemma dict_get_set (k k' : string) (v : jvalue) (d : list (string * jvalue)) :
  dict_get k' (dict_set k v d)
  = if String.eqb k' k then Some v else dict_get k' d.
Proof.
  induction d as [|[k1 v1] d IH]; cbn.
  - destruct (String.eqb k' k); reflexivity.
  - destruct (String.eqb_spec k k1) as [->|Hne]; cbn.
    + destruct (String.eqb k' k1); reflexivity.
    + rewrite IH. destruct (String.eqb_spec k' k1) as [->|Hne'];
        [|reflexivity].
      destruct (String.eqb_spec k1 k); [congruence|reflexivity].
Qed.

Lemma dict_set_new (k : string) (v : jvalue) (d : list (string * jvalue)) :
  dict_get k d = None -> dict_set k v d = d ++ [(k, v)].
Proof.
  induction d as [|[k1 v1] d IH]; cbn; [reflexivity|].
  destruct (String.eqb k k1); [discriminate|]. intros H. by rewrite IH.
Qed.

Lemma dict_set_same (k : string) (x : jvalue) (d : list (string * jvalue)) :
  dict_get k d = Some x -> dict_set k x d = d.
Proof.
  induction d as [|[k1 v1] d IH]; cbn; [discriminate|].
  destruct (String.eqb k k1); [by intros [= ->]|].
  intros H. by rewrite IH.
Qed.

Lemma dict_get_elem (k : string) (v : jvalue) (d : list (string * jvalue)) :
  NoDup (map fst d) -> (k, v) ∈ d -> dict_get k d = Some v.
Proof.
  induction d as [|[k1 v1] d IH]; cbn; intros Hnd Hin.
  - by apply elem_of_nil in Hin.
  - apply NoDup_cons in Hnd as [Hk1 Hnd].
    apply elem_of_cons in Hin as [[= -> ->]|Hin].
    + by rewrite String.eqb_refl.
    + destruct (String.eqb_spec k k1) as [->|Hne]; [|by apply IH].
      exfalso. apply Hk1. apply list_elem_of_fmap. by exists (k1, v).
Qed.

Lemma covers_keys_spec (rec : jvalue -> jvalue -> bool) (missing : bool)
    (d items : list (string * jvalue)) :
  covers_keys rec missing d items = true
  <-> Forall (fun kv => match dict_get kv.1 d with
                        | None => missing
                        | Some x => rec kv.2 x
                        end = true) items.
Proof.
  induction items as [|[k v] items IH]; cbn [covers_keys].
  - split; [constructor|reflexivity].
  - rewrite andb_true_iff, IH, Forall_cons. reflexivity.
Qed.

Lemma all_values_spec (p : jvalue -> bool) (items : list (string * jvalue)) :
  all_values p items = true <-> Forall (fun kv => p kv.2 = true) items.
Proof.
  induction items as [|[k v] items IH]; cbn [all_values].
  - split; [constructor|reflexivity].
  - rewrite andb_true_iff, IH, Forall_cons. reflexivity.
Qed.

Lemma distinct_keys_obj (items : list (string * jvalue)) :
  distinct_keys (JObj items) = true
  <-> NoDup (map fst items)
      /\ Forall (fun kv => distinct_keys kv.2 = true) items.
Proof.
  cbn [distinct_keys]. rewrite andb_true_iff, bool_decide_eq_true.
  by rewrite all_values_spec.
Qed.

Lemma covers_obj (missing : bool) (items members : list (string * jvalue)) :
  covers missing (JObj items) (JObj members) = true
  <-> Forall (fun kv => match dict_get kv.1 members with
                        | None => missing
                        | Some x => covers missing kv.2 x
                        end = true) items.
Proof. cbn [covers]. apply covers_keys_spec. Qed.

Lemma covers_dict (missing : bool) (v x : jvalue) :
  is_dict v = true -> covers missing v x = true -> is_dict x = true.
Proof. destruct v; try discriminate. destruct x; cbn; done. Qed.

Lemma covers_scalar (missing : bool) (v x : jvalue) :
  is_dict v = false -> covers missing v x = true.
Proof. destruct v; try discriminate; reflexivity. Qed.

(** ** One turn of the loop *)

Lemma merge_key_obj (rec : jvalue -> jvalue -> option jvalue)
    (ds : list (string * jvalue)) (k : string) (v : jvalue) :
  merge_key rec (JObj ds) k v
  = match dict_get k ds with
    | None => Some (JObj (ds ++ [(k, v)]))
    | Some x =>
        if is_dict v && is_dict x then
          match rec x v with
          | None => None
          | Some x' => Some (JObj (dict_set k x' ds))
          end
        else Some (JObj ds)
    end.
Proof.
  unfold merge_key. cbn [contains getitem setitem].
  case_bool_decide as Hk.
  - apply dict_get_keys in Hk as [x Hx]. rewrite Hx.
    destruct (is_dict v), (is_dict x); reflexivity.
  - apply dict_get_absent in Hk. rewrite Hk. by rewrite dict_set_new.
Qed.

Lemma merge_key_other (rec : jvalue -> jvalue -> option jvalue)
    (ds : list (string * jvalue)) (k : string) (v d' : jvalue) :
  merge_key rec (JObj ds) k v = Some d' ->
  exists ds', d' = JObj ds'
    /\ forall k', k' <> k -> dict_get k' ds' = dict_get k' ds.
Proof.
  rewrite merge_key_obj. destruct (dict_get k ds) as [x|] eqn:Hx.
  - destruct (is_dict v && is_dict x).
    + destruct (rec x v) as [x'|]; [|discriminate]. intros [= <-].
      eexists; split; [reflexivity|]. intros k' Hk'. rewrite dict_get_set.
      by destruct (String.eqb_spec k' k).
    + intros [= <-]. by eexists.
  - intros [= <-]. eexists; split; [reflexivity|]. intros k' Hk'.
    rewrite <- (dict_set_new k v ds Hx), dict_get_set.
    by destruct (String.eqb_spec k' k).
Qed.

Lemma merge_keys_other (rec : jvalue -> jvalue -> option jvalue)
    (items ds : list (string * jvalue)) (r : jvalue) (k : string) :
  merge_keys rec items (JObj ds) = Some r -> k ∉ map fst items ->
  exists rs, r = JObj rs /\ dict_get k rs = dict_get k ds.
Proof.
  revert ds. induction items as [|[k0 v] items IH]; intros ds;
    cbn [merge_keys map fst].
  - intros [= <-] _. by eexists.
  - destruct (merge_key rec (JObj ds) k0 v) as [d'|] eqn:Hd'; [|done].
    apply merge_key_other in Hd' as (ds' & -> & Hother).
    intros Hr Hk. apply not_elem_of_cons in Hk as [Hk0 Hk].
    destruct (IH ds' Hr Hk) as (rs & -> & Hrs).
    exists rs. split; [reflexivity|]. rewrite Hrs. by apply Hother.
Qed.

(** ** The merge extends the file *)

Lemma extends_members_refl (d : list (string * jvalue)) :
  Forall2 (fun p q => p.1 = q.1 /\ extends p.2 q.2) d d.
Proof.
  induction d as [|p d IH]; constructor; [|exact IH].
  split; [reflexivity|constructor].
Qed.

Lemma dict_set_extends (k : string) (x x' : jvalue)
    (d : list (string * jvalue)) :
  dict_get k d = Some x -> extends x x' ->
  Forall2 (fun p q => p.1 = q.1 /\ extends p.2 q.2) d (dict_set k x' d).
Proof.
  induction d as [|[k1 v1] d IH]; cbn; [discriminate|].
  destruct (String.eqb k k1).
  - intros [= ->] H. constructor; [by split|apply extends_members_refl].
  - intros Hx H. constructor; [|by apply IH].
    split; [reflexivity|constructor].
Qed.

Lemma extends_members_trans (d r t : list (string * jvalue)) :
  Forall (fun kv => forall b c, extends kv.2 b -> extends b c ->
                               extends kv.2 c) d ->
  Forall2 (fun p q => p.1 = q.1 /\ extends p.2 q.2) d r ->
  Forall2 (fun p q => p.1 = q.1 /\ extends p.2 q.2) r t ->
  Forall2 (fun p q => p.1 = q.1 /\ extends p.2 q.2) d t.
Proof.
  intros HP H. revert t. induction H as [|p q d r [Hk Hpq] H IH];
    intros t Ht; inversion Ht as [|q' u r' t' [Hk' Hqu] Ht']; subst;
    [constructor|].
  apply Forall_cons in HP as [Hp HP]. constructor.
  - split; [congruence|by eapply Hp].
  - by apply IH.
Qed.

Lemma extends_trans (a b c : jvalue) :
  extends a b -> extends b c -> extends a c.
Proof.
  revert b c.
  induction a as [|x|n|x|s|items IH|members IH] using jvalue_ind;
    intros b c Hab Hbc; inversion Hab; subst; try exact Hbc.
  inversion Hbc as [|d' r' extra' H']; subst; [exact Hab|].
  apply Forall2_app_inv_l in H' as (t1 & t2 & Ht1 & Ht2 & ->).
  rewrite <- app_assoc. apply extends_obj.
  by eapply extends_members_trans.
Qed.

Lemma merge_keys_extends (rec : jvalue -> jvalue -> option jvalue)
    (items : list (string * jvalue)) :
  Forall (fun kv => is_dict kv.2 = true -> forall x, is_dict x = true ->
            exists x', rec x kv.2 = Some x' /\ extends x x') items ->
  forall ds, exists rs,
    merge_keys rec items (JObj ds) = Some (JObj rs)
    /\ extends (JObj ds) (JObj rs).
Proof.
  induction items as [|[k v] items IH]; intros Hrec ds.
  - exists ds. split; [reflexivity|constructor].
  - apply Forall_cons in Hrec as [Hv Hrec]. cbn [fst snd] in Hv.
    cbn [merge_keys]. rewrite merge_key_obj.
    destruct (dict_get k ds) as [x|] eqn:Hx.
    + destruct (is_dict v) eqn:Hdv, (is_dict x) eqn:Hdx; cbn [andb];
        try apply (IH Hrec).
      destruct (Hv eq_refl x Hdx) as (x' & -> & Hx').
      destruct (IH Hrec (dict_set k x' ds)) as (rs & -> & Hext).
      exists rs. split; [reflexivity|].
      eapply extends_trans; [|exact Hext].
      rewrite <- (app_nil_r (dict_set k x' ds)). apply extends_obj.
      by eapply dict_set_extends.
    + destruct (IH Hrec (ds ++ [(k, v)])) as (rs & -> & Hext).
      exists rs. split; [reflexivity|].
      eapply extends_trans; [|exact Hext].
      apply extends_obj. apply extends_members_refl.
Qed.

(** On two objects [deep_merge] raises nothing, and its result extends
    the first. *)
Lemma deep_merge_extends (default : jvalue) :
  is_dict default = true -> forall d, is_dict d = true ->
  exists r, deep_merge d default = Some r /\ extends d r.
Proof.
  induction default as [|x|n|x|s|items IH|members IH] using jvalue_ind;
    intros Hdict d Hd; try discriminate Hdict.
  destruct d as [| | | | | |ds]; try discriminate Hd.
  cbn [deep_merge].
  destruct (merge_keys_extends (fun x v => deep_merge x v) members IH ds)
    as (rs & Hrs & Hext).
  by exists (JObj rs).
Qed.

(** ** The merge fills in the defaults *)

Lemma covers_refl (missing : bool) (v : jvalue) :
  distinct_keys v = true -> covers missing v v = true.
Proof.
  induction v as [|x|n|x|s|items IH|members IH] using jvalue_ind;
    try reflexivity.
  intros [Hnd Hall]%distinct_keys_obj. apply covers_obj.
  apply Forall_forall. intros [k x] Hin. cbn [fst snd].
  rewrite (dict_get_elem k x members Hnd Hin).
  rewrite Forall_forall in IH, Hall.
  apply (IH _ Hin). apply (Hall _ Hin).
Qed.

Lemma merge_keys_complete (rec : jvalue -> jvalue -> option jvalue)
    (items : list (string * jvalue)) :
  NoDup (map fst items) ->
  Forall (fun kv => complete kv.2 kv.2 = true) items ->
  Forall (fun kv => is_dict kv.2 = true ->
            forall x, same_shape kv.2 x = true ->
            exists x', rec x kv.2 = Some x' /\ complete kv.2 x' = true)
    items ->
  forall ds,
    Forall (fun kv => match dict_get kv.1 ds with
                      | None => true
                      | Some x => same_shape kv.2 x
                      end = true) items ->
    exists rs,
      merge_keys rec items (JObj ds) = Some (JObj rs)
      /\ Forall (fun kv => match dict_get kv.1 rs with
                           | None => false
                           | Some x => complete kv.2 x
                           end = true) items.
Proof.
  induction items as [|[k v] items IH]; intros Hnd Hrefl Hrec ds Hshape.
  - exists ds. split; [reflexivity|constructor].
  - cbn [map fst] in Hnd. apply NoDup_cons in Hnd as [Hk Hnd].
    apply Forall_cons in Hrefl as [Hv Hrefl].
    apply Forall_cons in Hrec as [Hrv Hrec].
    apply Forall_cons in Hshape as [Hsv Hshape].
    cbn [fst snd] in Hv, Hrv, Hsv.
    assert (exists ds1 x1,
              merge_key rec (JObj ds) k v = Some (JObj ds1)
              /\ dict_get k ds1 = Some x1 /\ complete v x1 = true)
      as (ds1 & x1 & Hm & Hg & Hc).
    { rewrite merge_key_obj. destruct (dict_get k ds) as [x|] eqn:Hx.
      - destruct (is_dict v) eqn:Hdv.
        + rewrite (covers_dict true v x Hdv Hsv). cbn [andb].
          destruct (Hrv eq_refl x Hsv) as (x' & -> & Hx').
          exists (dict_set k x' ds), x'. split; [reflexivity|].
          split; [|exact Hx']. by rewrite dict_get_set, String.eqb_refl.
        + cbn [andb]. exists ds, x. split; [reflexivity|].
          split; [exact Hx|]. by apply covers_scalar.
      - exists (ds ++ [(k, v)]), v. split; [reflexivity|].
        split; [|exact Hv].
        by rewrite <- (dict_set_new k v ds Hx), dict_get_set,
          String.eqb_refl. }
    cbn [merge_keys]. rewrite Hm.
    destruct (merge_key_other _ _ _ _ _ Hm) as (ds1' & [= <-] & Hother).
    destruct (IH Hnd Hrefl Hrec ds1) as (rs & Hrs & Hall).
    { apply Forall_forall. intros [k' v'] Hin. cbn [fst snd].
      rewrite Hother.
      - rewrite Forall_forall in Hshape. exact (Hshape _ Hin).
      - intros ->. apply Hk. apply list_elem_of_fmap. by exists (k, v'). }
    exists rs. split; [exact Hrs|]. constructor; [|exact Hall].
    cbn [fst snd].
    destruct (merge_keys_other _ _ _ _ k Hrs Hk) as (rs' & [= <-] & ->).
    by rewrite Hg.
Qed.

(** When the file has the shape of the defaults, the merge raises
    nothing and its result is complete. *)
Lemma deep_merge_complete (default : jvalue) :
  distinct_keys default = true -> is_dict default = true ->
  forall d, same_shape default d = true ->
  exists r, deep_merge d default = Some r /\ complete default r = true.
Proof.
  induction default as [|x|n|x|s|items IH|members IH] using jvalue_ind;
    intros Hdk Hdict d Hshape; try discriminate Hdict.
  destruct d as [| | | | | |ds]; try discriminate Hshape.
  apply distinct_keys_obj in Hdk as [Hnd Hall].
  apply covers_obj in Hshape. cbn [deep_merge].
  destruct (merge_keys_complete (fun x v => deep_merge x v) members Hnd)
    with (ds := ds) as (rs & Hrs & Hc).
  - apply Forall_forall. intros kv Hin. rewrite Forall_forall in Hall.
    apply covers_refl. by apply Hall.
  - apply Forall_forall. intros kv Hin Hd x Hx.
    rewrite Forall_forall in IH, Hall. apply (IH _ Hin); [|exact Hd|exact Hx].
    by apply Hall.
  - exact Hshape.
  - exists (JObj rs). split; [exact Hrs|]. by apply covers_obj.
Qed.

(** ** Complete settings are a fixed point *)

Lemma merge_keys_fixed (rec : jvalue -> jvalue -> option jvalue)
    (items ds : list (string * jvalue)) :
  Forall (fun kv => is_dict kv.2 = true ->
            forall x, complete kv.2 x = true -> rec x kv.2 = Some x) items ->
  Forall (fun kv => match dict_get kv.1 ds with
                    | None => false
                    | Some x => complete kv.2 x
                    end = true) items ->
  merge_keys rec items (JObj ds) = Some (JObj ds).
Proof.
  induction items as [|[k v] items IH]; intros Hrec Hc; [reflexivity|].
  apply Forall_cons in Hrec as [Hv Hrec].
  apply Forall_cons in Hc as [Hcv Hc]. cbn [fst snd] in Hv, Hcv.
  cbn [merge_keys]. rewrite merge_key_obj.
  destruct (dict_get k ds) as [x|] eqn:Hx; [|discriminate].
  destruct (is_dict v) eqn:Hdv.
  - rewrite (covers_dict false v x Hdv Hcv). cbn [andb].
    rewrite (Hv eq_refl x Hcv), (dict_set_same k x ds Hx). by apply IH.
  - cbn [andb]. by apply IH.
Qed.

Lemma deep_merge_fixed (default : jvalue) :
  is_dict default = true ->
  forall d, complete default d = true -> deep_merge d default = Some d.
Proof.
  induction default as [|x|n|x|s|items IH|members IH] using jvalue_ind;
    intros Hdict d Hc; try discriminate Hdict.
  destruct d as [| | | | | |ds]; try discriminate Hc.
  apply covers_obj in Hc. cbn [deep_merge].
  by apply merge_keys_fixed.
Qed.

(** ** Files that hold no object *)

Lemma deep_merge_not_dict (folder : string) (data : jvalue) :
  is_dict data = false -> deep_merge data (DEFAULT_SETTINGS folder) = None.
Proof.
  destruct data as [|b|n|x|s|items|members]; try discriminate; intros _;
    unfold DEFAULT_SETTINGS; cbn [deep_merge merge_keys]; unfold merge_key;
    cbn [contains]; try reflexivity.
  - destruct (str_in "export" s); reflexivity.
  - destruct (existsb _ items); reflexivity.
Qed.

Lemma default_settings_distinct (folder : string) :
  distinct_keys (DEFAULT_SETTINGS folder) = true.
Proof. vm_compute. reflexivity. Qed.

(** X14: [load_settings] gives the default settings when there is no
    settings file, when the file cannot be read as JSON, and also when it
    holds JSON that is no object (null, a number, a string, a list): the
    merge raises on it and the file is ignored. *)
Theorem X14_settings_fall_back_to_the_defaults (folder : string) :
  load_settings folder NoConfig = DEFAULT_SETTINGS folder
  /\ load_settings folder BadConfig = DEFAULT_SETTINGS folder
  /\ forall data, is_dict data = false ->
       load_settings folder (Config data) = DEFAULT_SETTINGS folder.
Proof.
  split; [reflexivity|]. split; [reflexivity|]. intros data Hd.
  unfold load_settings. by rewrite deep_merge_not_dict.
Qed.

Lemma dict_get_Some_elem (k : string) (v : jvalue)
    (d : list (string * jvalue)) :
  dict_get k d = Some v -> (k, v) ∈ d.
Proof.
  induction d as [|[k1 v1] d IH]; cbn; [discriminate|].
  destruct (String.eqb_spec k k1) as [->|Hne].
  - intros [= ->]. apply elem_of_cons. by left.
  - intros H. apply elem_of_cons. right. by apply IH.
Qed.

(** What can be read in the defaults can be read in complete settings. *)
Lemma complete_read_path (path : list string) (default r v : jvalue) :
  complete default r = true -> read_path default path = Some v ->
  exists x, read_path r path = Some x /\ complete v x = true.
Proof.
  revert default r. induction path as [|k path IH]; intros default r Hc;
    cbn [read_path].
  - intros [= <-]. by exists r.
  - destruct (getitem default k) as [v'|] eqn:Hv'; [|discriminate].
    destruct default as [| | | | | |items]; try discriminate Hv'.
    destruct r as [| | | | | |rs]; try discriminate Hc.
    cbn [getitem] in Hv' |- *. apply covers_obj in Hc.
    rewrite Forall_forall in Hc.
    specialize (Hc _ (dict_get_Some_elem _ _ _ Hv')). cbn [fst snd] in Hc.
    destruct (dict_get k rs) as [x'|]; [|discriminate]. by apply IH.
Qed.

(** X15: when the settings file holds an object that has an object, or
    nothing, wherever the defaults have one, the loaded settings are
    complete: every key of the defaults is there, at every level, with
    an object wherever the defaults have one; so each setting that the
    application reads at its start is found. *)
Theorem X15_loaded_settings_are_complete (folder : string) (data : jvalue) :
  same_shape (DEFAULT_SETTINGS folder) data = true ->
  complete (DEFAULT_SETTINGS folder) (load_settings folder (Config data))
  = true
  /\ Forall (fun path =>
               is_Some (read_path (load_settings folder (Config data)) path))
       settings_reads.
Proof.
  intros Hshape.
  assert (complete (DEFAULT_SETTINGS folder)
            (load_settings folder (Config data)) = true) as Hc.
  { unfold load_settings.
    destruct (deep_merge_complete (DEFAULT_SETTINGS folder)
                (default_settings_distinct folder) eq_refl data Hshape)
      as (r & -> & Hr).
    exact Hr. }
  split; [exact Hc|].
  assert (forall path v,
            read_path (DEFAULT_SETTINGS folder) path = Some v ->
            is_Some (read_path (load_settings folder (Config data)) path))
    as Hread.
  { intros path v Hv.
    destruct (complete_read_path path _ _ v Hc Hv) as (x & Hx & _).
    by exists x. }
  unfold settings_reads.
  repeat (apply Forall_cons_2; [eapply Hread; reflexivity|]).
  apply Forall_nil_2.
Qed.

(** The theorem at a file that sets the batch mode and a key of its own. *)
Lemma X15_witness_batch_mode_only :
  complete (DEFAULT_SETTINGS "/export")
    (load_settings "/export" (Config example_settings)) = true
  /\ read_path (load_settings "/export" (Config example_settings))
       ["batch"; "mode"] = Some (JStr "group")
  /\ read_path (load_settings "/export" (Config example_settings))
       ["export"; "formats"; "json"] = Some (JBool true).
Proof.
  split; [|split; vm_compute; reflexivity].
  refine (proj1 (X15_loaded_settings_are_complete "/export" example_settings
                   _)).
  vm_compute. reflexivity.
Defined.

(** X16: the settings loaded from a file that holds an object extend
    the file: every key of the file is kept, in its place, with its
    value, whatever its type; the objects under the keys the defaults
    know as objects are extended in the same way, and the keys the file
    lacks come after its own. *)
Theorem X16_loaded_settings_extend_the_file (folder : string)
    (data : jvalue) :
  is_dict data = true ->
  deep_merge data (DEFAULT_SETTINGS folder)
  = Some (load_settings folder (Config data))
  /\ extends data (load_settings folder (Config data)).
Proof.
  intros Hd. unfold load_settings.
  destruct (deep_merge_extends (DEFAULT_SETTINGS folder) eq_refl data Hd)
    as (r & -> & Hr).
  by split.
Qed.

(** The theorem at a file whose export section is a number: the number
    stays. *)
Lemma X16_witness_section_of_wrong_type :
  extends (JObj [("export", JInt 5)])
    (load_settings "/export" (Config (JObj [("export", JInt 5)])))
  /\ load_settings "/export" (Config (JObj [("export", JInt 5)]))
     = JObj [("export", JInt 5);
             ("batch",
              JObj [("enabled", JBool true);
                    ("mode", JStr "rows");
                    ("rows_per_file", JInt 100000);
                    ("group_column", JStr "postcode")])].
Proof.
  split.
  - exact (proj2 (X16_loaded_settings_extend_the_file "/export"
                    (JObj [("export", JInt 5)]) eq_refl)).
  - vm_compute. reflexivity.
Defined.

(** X17: complete settings are loaded as they are, and the loaded
    settings of a file that has the shape of the defaults (or of no
    file) are complete: loading them again changes nothing. *)
Theorem X17_complete_settings_load_unchanged (folder : string) :
  (forall data, complete (DEFAULT_SETTINGS folder) data = true ->
     load_settings folder (Config data) = data)
  /\ (forall c,
        (forall data, c = Config data ->
           same_shape (DEFAULT_SETTINGS folder) data = true) ->
        load_settings folder (Config (load_settings folder c))
        = load_settings folder c).
Proof.
  assert (forall data, complete (DEFAULT_SETTINGS folder) data = true ->
            load_settings folder (Config data) = data) as Hfix.
  { intros data Hc. unfold load_settings.
    by rewrite (deep_merge_fixed (DEFAULT_SETTINGS folder) eq_refl data Hc). }
  split; [exact Hfix|]. intros c Hc. apply Hfix.
  destruct c as [| |data].
  - apply covers_refl, default_settings_distinct.
  - apply covers_refl, default_settings_distinct.
  - unfold load_settings.
    destruct (deep_merge_complete (DEFAULT_SETTINGS folder)
                (default_settings_distinct folder) eq_refl data
                (Hc data eq_refl)) as (r & -> & Hr).
    exact Hr.
Qed.

(** ** A section of the wrong type *)

Lemma extends_scalar (x x' : jvalue) :
  is_dict x = false -> extends x x' -> x' = x.
Proof. intros Hx H. inversion H; subst; [reflexivity|discriminate Hx]. Qed.

Lemma extends_members_get (k : string) (x : jvalue)
    (d r extra : list (string * jvalue)) :
  Forall2 (fun p q => p.1 = q.1 /\ extends p.2 q.2) d r ->
  dict_get k d = Some x ->
  exists x', dict_get k (r ++ extra) = Some x' /\ extends x x'.
Proof.
  induction 1 as [|[k1 v1] [k2 v2] d r [Hk Hv] H IH]; cbn; [discriminate|].
  cbn [fst snd] in Hk, Hv. subst k2.
  destruct (String.eqb k k1); [|exact IH].
  intros [= <-]. by exists v2.
Qed.

Lemma extends_get (d r : jvalue) (k : string) (x : jvalue) :
  extends d r -> getitem d k = Some x ->
  exists x', getitem r k = Some x' /\ extends x x'.
Proof.
  intros H Hx. inversion H as [|ds rs extra Hall]; subst.
  - exists x. split; [exact Hx|constructor].
  - cbn [getitem] in Hx |- *. by eapply extends_members_get.
Qed.

(** X18: [load_settings] repairs no section of the wrong type: when the
    file is an object whose export or batch section is no object (a
    number, a string, a list, null), the loaded settings keep that value
    as the section, and a setting read in it at the start of the
    application raises. *)
Theorem X18_section_of_wrong_type_is_kept (folder : string) (data x : jvalue)
    (section key : string) :
  is_dict data = true ->
  getitem data section = Some x -> is_dict x = false ->
  getitem (load_settings folder (Config data)) section = Some x
  /\ read_path (load_settings folder (Config data)) [section; key] = None.
Proof.
  intros Hd Hx Hnd.
  assert (extends data (load_settings folder (Config data))) as Hext.
  { unfold load_settings.
    destruct (deep_merge_extends (DEFAULT_SETTINGS folder) eq_refl data Hd)
      as (r & -> & Hr).
    exact Hr. }
  destruct (extends_get _ _ _ _ Hext Hx) as (x' & Hx' & Hxx').
  apply (extends_scalar _ _ Hnd) in Hxx'. subst x'.
  split; [exact Hx'|]. cbn [read_path]. rewrite Hx'.
  destruct x; try reflexivity. discriminate Hnd.
Qed.

(** The theorem at a file whose batch section is a string. *)
Lemma X18_witness_batch_is_a_string :
  read_path
    (load_settings "/export" (Config (JObj [("batch", JStr "rows")])))
    ["batch"; "mode"] = None.
Proof.
  refine (proj2 (X18_section_of_wrong_type_is_kept "/export"
                   (JObj [("batch", JStr "rows")]) (JStr "rows")
                   "batch" "mode" eq_refl eq_refl eq_refl)).
Defined.

(** * Groups whose labels collide *)

Lemma same_path_trans (a f g : written) :
  same_path a f = true -> same_path f g = true -> same_path a g = true.
Proof.
  unfold same_path. intros [H1 H2]%andb_true_iff [H3 H4]%andb_true_iff.
  apply String.eqb_eq in H1, H2, H3, H4. rewrite H1, H2, H3, H4.
  by rewrite !String.eqb_refl.
Qed.

Lemma existsb_same_path (a f : written) (rest : list written) :
  same_path a f = true -> existsb (same_path f) rest = true ->
  existsb (same_path a) rest = true.
Proof.
  intros Ha (g & Hg & Hs)%existsb_exists. apply existsb_exists.
  exists g. split; [exact Hg|]. by eapply same_path_trans.
Qed.

(** A write that a later write to the same file follows leaves nothing
    on disk. *)
Lemma on_disk_overwritten (pre rest : list written) (f : written) :
  existsb (same_path f) rest = true ->
  on_disk (pre ++ f :: rest) = on_disk (pre ++ rest).
Proof.
  intros Hf. induction pre as [|a pre IH]; cbn [List.app on_disk].
  - by rewrite Hf.
  - rewrite IH. rewrite !existsb_app. cbn [existsb].
    destruct (same_path a f) eqn:Ha; [|reflexivity].
    rewrite (existsb_same_path a f rest Ha Hf). by rewrite !orb_true_r.
Qed.

Lemma on_disk_csv_rows (files : list written) :
  (length (concat (map csv_rows_in (on_disk files)))
   <= length (concat (map csv_rows_in files)))%nat.
Proof.
  induction files as [|f files IH]; [reflexivity|].
  cbn [on_disk map concat]. destruct (existsb _ _);
    cbn [map concat]; rewrite ?length_app; lia.
Qed.

(** X19: in group mode with the CSV format on, when two groups have the
    same sanitized label (the skus A/1 and A_1 both give A_1), their
    files have the same name and the later one overwrites the earlier
    one: with a filename pattern that renders and files that open, the
    export returns, and the CSV files on disk hold fewer rows than there
    are records. *)
Theorem X19_groups_with_one_label_lose_rows (self : app) (e : env)
    (dir base group_col : string) (json_rows csv_rows : list out_row)
    (k1 k2 : string) (rows1 rows2 : list out_row)
    (pre mid post : list (string * list out_row)) :
  let key := PyStr.lower group_col in
  let gj := (fill_groups key json_rows csv_rows [] []).1 in
  let gc := (fill_groups key json_rows csv_rows [] []).2 in
  let files := flat_map (group_files self e dir base gj) gc in
  length json_rows = length csv_rows -> renders self ->
  export_csv_var self = true -> all_open e files = true ->
  gc = pre ++ (k1, rows1) :: mid ++ (k2, rows2) :: post ->
  _sanitize_group k1 = _sanitize_group k2 ->
  _export_by_group self e dir base json_rows csv_rows group_col []
  = (files, Some tt)
  /\ (length (concat (map csv_rows_in (on_disk files))) < length csv_rows)%nat.
Proof.
  cbv zeta. intros Hlen Hr Hc Ha Hgc Hlabel.
  split.
  { pose proof (export_by_group_files self e dir base json_rows csv_rows
                  group_col Hr) as Hfiles.
    cbv zeta in Hfiles. by rewrite Hfiles, Ha, (opened_all _ _ Ha). }
  set (gj := (fill_groups (PyStr.lower group_col) json_rows csv_rows [] []).1)
    in *.
  assert (length (concat (map csv_rows_in
            (flat_map (group_files self e dir base gj)
               (fill_groups (PyStr.lower group_col) json_rows csv_rows
                  [] []).2)))
          = length csv_rows) as Htotal.
  { rewrite group_files_csv_rows by done.
    rewrite fill_groups_grouped. cbn [snd].
    rewrite grouped_concat. cbn [map concat List.app].
    by rewrite csv_pairs_items. }
  assert (rows1 <> []) as Hne.
  { pose proof (grouped_nonempty
                  (csv_pairs (PyStr.lower group_col) json_rows csv_rows) []
                  (Forall_nil_2 _)) as Hall.
    rewrite Forall_forall in Hall. apply (Hall (k1, rows1)).
    rewrite fill_groups_grouped in Hgc. cbn [snd] in Hgc. rewrite Hgc.
    apply elem_of_app. right. apply elem_of_cons. by left. }
  rewrite Hgc in Htotal |- *.
  rewrite !flat_map_app in Htotal |- *. cbn [flat_map] in Htotal |- *.
  rewrite !flat_map_app in Htotal |- *. cbn [flat_map] in Htotal |- *.
  unfold group_files at 2 in Htotal. unfold group_files at 2.
  rewrite Hc in Htotal |- *. cbn [List.app fst snd] in Htotal |- *.
  rewrite on_disk_overwritten.
  - eapply Nat.le_lt_trans; [apply on_disk_csv_rows|].
    rewrite !map_app, !concat_app, !length_app in Htotal |- *.
    cbn [map concat csv_rows_in body] in Htotal.
    rewrite !length_app in Htotal.
    destruct rows1 as [|r rows1]; [done|]. cbn [length] in Htotal. lia.
  - assert (same_path
              {| folder := dir;
                 name := rendered self base "group" (_sanitize_group k1)
                           (now e) "csv";
                 body := CsvRows out_fields rows1 |}
              {| folder := dir;
                 name := rendered self base "group" (_sanitize_group k2)
                           (now e) "csv";
                 body := CsvRows out_fields rows2 |} = true) as Hs.
    { unfold same_path. cbn [folder name].
      by rewrite Hlabel, !String.eqb_refl. }
    rewrite !existsb_app. unfold group_files at 2. rewrite Hc.
    cbn [List.app existsb fst snd]. rewrite Hs. cbn [orb].
    by rewrite !orb_true_r.
Qed.

(** The theorem at two records with the skus A/1 and A_1, grouped by
    sku. *)
Lemma X19_witness_slash_and_underscore :
  let docs := [example_doc "A/1" "2000"; example_doc "A_1" "3000"] in
  let self := example_app docs [] true "group" in
  map fst (fill_groups "sku" (map json_row_of docs) (map csv_row_of docs)
             [] []).2 = ["A/1"; "A_1"]
  /\ (length (concat (map csv_rows_in (on_disk (data_files example_env self))))
      < 2)%nat
  /\ is_valid_sku "A/1" = (true, EmptyString)
  /\ is_valid_sku "A_1" = (true, EmptyString).
Proof.
  cbv zeta. split; [vm_compute; reflexivity|].
  split; [|split; vm_compute; reflexivity].
  exact (proj2 (X19_groups_with_one_label_lose_rows
    (example_app [example_doc "A/1" "2000"; example_doc "A_1" "3000"] []
       true "group")
    example_env "out" "freight_matrix" "sku"
    (map json_row_of [example_doc "A/1" "2000"; example_doc "A_1" "3000"])
    (map csv_row_of [example_doc "A/1" "2000"; example_doc "A_1" "3000"])
    "A/1" "A_1"
    [csv_row_of (example_doc "A/1" "2000")]
    [csv_row_of (example_doc "A_1" "3000")]
    [] [] [] eq_refl (fun v => ltac:(discriminate)) eq_refl eq_refl
    eq_refl eq_refl)).
Defined.
